(** * BifrostScript: value encoding, bytecode, function builder and VM

    A shallow embedding of the parts of the BifrostScript runtime that the
    specification talks about, followed by the properties proved of them.

    Conventions.
    - A [uint64_t], [uint32_t] or [size_t] is a [Z]; wrap-around is written
      out with [wrap32] and [wrap64] where the C arithmetic can wrap.
    - A C [double] is represented by its IEEE-754 bit pattern, exactly as
      [bfVMValue_asNumber] and [bfVMValue_fromNumber] move it with [memcpy];
      the arithmetic of the platform on those patterns is the record
      [DoubleOps].
    - Pointers are addresses ([Z], 0 is [NULL]); the heap maps addresses to
      objects.  Dereferencing an address with no object, or indexing an array
      out of bounds, is [Undefined]; a failed [LibC_assert] is [Aborted].
    - Arrays ([bfVMArray]) are lists, read with [!!] and written with
      [<[ i := x ]>].
    - A C [float] is an IEEE-754 binary32 number ([SpecFloat.spec_float] at
      precision 24), and [float] expressions are evaluated in that format
      (FLT_EVAL_METHOD 0). *)

From Stdlib Require Import ZArith Lia Bool List Ascii QArith Qround.
From Stdlib Require Floats.SpecFloat.
From stdpp Require Import base option list gmap.
From coqutil Require Import Z.bitblast.

Local Open Scope Z_scope.

(* ===================================================================== *)
(** ** Machine integers and results *)
(* ===================================================================== *)

Definition wrap32 (z : Z) : Z := z mod 2 ^ 32.
Definition wrap64 (z : Z) : Z := z mod 2 ^ 64.
Definition UINT64_MAX : Z := Z.ones 64.

Definition is_uint64 (z : Z) : Prop := 0 <= z < 2 ^ 64.
Definition is_uint32 (z : Z) : Prop := 0 <= z < 2 ^ 32.

(** What a C call can do besides returning. *)
Inductive Res (A : Type) : Type :=
| Ok (a : A)
| Aborted      (* a LibC_assert failed: the process aborts *)
| Undefined    (* undefined behaviour: stray pointer, index out of bounds *)
| OutOfFuel.   (* the interpreter loop did not finish within the fuel given *)

Arguments Ok {A} a.
Arguments Aborted {A}.
Arguments Undefined {A}.
Arguments OutOfFuel {A}.

Definition res_bind {A B : Type} (r : Res A) (k : A -> Res B) : Res B :=
  match r with
  | Ok a => k a
  | Aborted => Aborted
  | Undefined => Undefined
  | OutOfFuel => OutOfFuel
  end.

Declare Scope res_scope.
Delimit Scope res_scope with res.
Notation "x <<- r ;; k" := (res_bind r (fun x => k))
  (at level 100, r at next level, right associativity) : res_scope.

(** A read that is undefined behaviour when there is nothing to read. *)
Definition defined {A : Type} (o : option A) : Res A :=
  match o with
  | Some a => Ok a
  | None => Undefined
  end.

(** [LibC_assert]. *)
Definition LibC_assert (condition : bool) : Res unit :=
  if condition then Ok tt else Aborted.

(* ===================================================================== *)
(** ** bifrost_vm_value.h / bifrost_vm_value.c *)
(* ===================================================================== *)

Definition bfVMValue : Type := Z.

Definition k_doubleSignBit : Z := Z.shiftl 1 63.
Definition k_QuietNan : Z := 0x7FFC000000000000.
Definition k_VMValuePointerMask : Z := Z.lor k_doubleSignBit k_QuietNan.
Definition k_VMValueTagMask : Z := 0x3.
Definition k_VMValueTagNan : Z := 0x0.
Definition k_VMValueTagNull : Z := 0x1.
Definition k_VMValueTagTrue : Z := 0x2.
Definition k_VMValueTagFalse : Z := 0x3.
Definition k_VMValueNull : bfVMValue := Z.lor k_QuietNan k_VMValueTagNull.
Definition k_VMValueTrue : bfVMValue := Z.lor k_QuietNan k_VMValueTagTrue.
(* The header builds the false constant from the null tag. *)
Definition k_VMValueFalse : bfVMValue := Z.lor k_QuietNan k_VMValueTagNull.

Definition bfVMValue_isNull (value : bfVMValue) : bool :=
  value =? k_VMValueNull.

Definition bfVMValue_isTrue (value : bfVMValue) : bool :=
  value =? k_VMValueTrue.

Definition bfVMValue_isFalse (value : bfVMValue) : bool :=
  value =? k_VMValueFalse.

Definition bfVMValue_isBool (value : bfVMValue) : bool :=
  bfVMValue_isTrue value || bfVMValue_isFalse value.

Definition bfVMValue_isPointer (value : bfVMValue) : bool :=
  Z.land value k_VMValuePointerMask =? k_VMValuePointerMask.

Definition bfVMValue_isNumber (value : bfVMValue) : bool :=
  negb (Z.land value k_QuietNan =? k_QuietNan).

Definition bfVMValue_fromNull : bfVMValue := k_VMValueNull.

Definition bfVMValue_fromBool (value : bool) : bfVMValue :=
  if value then k_VMValueTrue else k_VMValueFalse.

(** The bits of the double, unchanged. *)
Definition bfVMValue_fromNumber (bits64 : Z) : bfVMValue := bits64.

Definition bfVMValue_fromPointer (value : Z) : bfVMValue :=
  if value =? 0 then bfVMValue_fromNull else Z.lor k_VMValuePointerMask value.

Definition bfVMValue_asNumber (self : bfVMValue) : Z := self.

(** [self & ~k_VMValuePointerMask], the complement taken on 64 bits. *)
Definition bfVMValue_asPointer (self : bfVMValue) : Z :=
  Z.land self (Z.lxor UINT64_MAX k_VMValuePointerMask).

Definition bfVMValue_isThuthy (self : bfVMValue) : bool :=
  if bfVMValue_isNull self
     || bfVMValue_isFalse self
     || (bfVMValue_isPointer self && (bfVMValue_asPointer self =? 0))
  then false
  else true.

(** The platform's arithmetic on doubles, seen on their bit patterns. *)
Record DoubleOps : Type := {
  double_add : Z -> Z -> Z;
  double_sub : Z -> Z -> Z;
  double_mul : Z -> Z -> Z;
  double_div : Z -> Z -> Z;
  double_eq : Z -> Z -> bool;
  double_lt : Z -> Z -> bool;
  double_gt : Z -> Z -> bool;
  double_ge : Z -> Z -> bool
}.

Section ValueOps.
Context (fp : DoubleOps).

Definition bfVMValue_sub (lhs rhs : bfVMValue) : bfVMValue :=
  if bfVMValue_isNumber lhs && bfVMValue_isNumber rhs
  then bfVMValue_fromNumber (double_sub fp (bfVMValue_asNumber lhs) (bfVMValue_asNumber rhs))
  else bfVMValue_fromNull.

Definition bfVMValue_mul (lhs rhs : bfVMValue) : bfVMValue :=
  if bfVMValue_isNumber lhs && bfVMValue_isNumber rhs
  then bfVMValue_fromNumber (double_mul fp (bfVMValue_asNumber lhs) (bfVMValue_asNumber rhs))
  else bfVMValue_fromNull.

Definition bfVMValue_div (lhs rhs : bfVMValue) : bfVMValue :=
  if bfVMValue_isNumber lhs && bfVMValue_isNumber rhs
  then bfVMValue_fromNumber (double_div fp (bfVMValue_asNumber lhs) (bfVMValue_asNumber rhs))
  else bfVMValue_fromNull.

Definition bfVMValue_lt (lhs rhs : bfVMValue) : bool :=
  if bfVMValue_isNumber lhs && bfVMValue_isNumber rhs
  then double_lt fp (bfVMValue_asNumber lhs) (bfVMValue_asNumber rhs)
  else lhs <? rhs.

Definition bfVMValue_gt (lhs rhs : bfVMValue) : bool :=
  if bfVMValue_isNumber lhs && bfVMValue_isNumber rhs
  then double_gt fp (bfVMValue_asNumber lhs) (bfVMValue_asNumber rhs)
  else lhs >? rhs.

Definition bfVMValue_ge (lhs rhs : bfVMValue) : bool :=
  if bfVMValue_isNumber lhs && bfVMValue_isNumber rhs
  then double_ge fp (bfVMValue_asNumber lhs) (bfVMValue_asNumber rhs)
  else lhs >=? rhs.

End ValueOps.

(* ===================================================================== *)
(** ** bifrost_vm_instruction_op.h *)
(* ===================================================================== *)

Definition BIFROST_VM_OP_LOAD_BASIC_TRUE : Z := 0.
Definition BIFROST_VM_OP_LOAD_BASIC_FALSE : Z := 1.
Definition BIFROST_VM_OP_LOAD_BASIC_NULL : Z := 2.
Definition BIFROST_VM_OP_LOAD_BASIC_CURRENT_MODULE : Z := 3.
Definition BIFROST_VM_OP_LOAD_BASIC_CONSTANT : Z := 4.

(** The enumeration generated by [BF_INST_OP_XTABLE], in its order. *)
Inductive bfInstructionOp : Type :=
| BIFROST_VM_OP_LOAD_SYMBOL
| BIFROST_VM_OP_LOAD_BASIC
| BIFROST_VM_OP_STORE_MOVE
| BIFROST_VM_OP_STORE_SYMBOL
| BIFROST_VM_OP_NEW_CLZ
| BIFROST_VM_OP_MATH_ADD
| BIFROST_VM_OP_MATH_SUB
| BIFROST_VM_OP_MATH_MUL
| BIFROST_VM_OP_MATH_DIV
| BIFROST_VM_OP_MATH_MOD
| BIFROST_VM_OP_MATH_POW
| BIFROST_VM_OP_MATH_INV
| BIFROST_VM_OP_CMP_EE
| BIFROST_VM_OP_CMP_NE
| BIFROST_VM_OP_CMP_LT
| BIFROST_VM_OP_CMP_LE
| BIFROST_VM_OP_CMP_GT
| BIFROST_VM_OP_CMP_GE
| BIFROST_VM_OP_CMP_AND
| BIFROST_VM_OP_CMP_OR
| BIFROST_VM_OP_NOT
| BIFROST_VM_OP_CALL_FN
| BIFROST_VM_OP_JUMP
| BIFROST_VM_OP_JUMP_IF
| BIFROST_VM_OP_JUMP_IF_NOT
| BIFROST_VM_OP_RETURN.

Definition all_ops : list bfInstructionOp :=
  [ BIFROST_VM_OP_LOAD_SYMBOL; BIFROST_VM_OP_LOAD_BASIC; BIFROST_VM_OP_STORE_MOVE;
    BIFROST_VM_OP_STORE_SYMBOL; BIFROST_VM_OP_NEW_CLZ; BIFROST_VM_OP_MATH_ADD;
    BIFROST_VM_OP_MATH_SUB; BIFROST_VM_OP_MATH_MUL; BIFROST_VM_OP_MATH_DIV;
    BIFROST_VM_OP_MATH_MOD; BIFROST_VM_OP_MATH_POW; BIFROST_VM_OP_MATH_INV;
    BIFROST_VM_OP_CMP_EE; BIFROST_VM_OP_CMP_NE; BIFROST_VM_OP_CMP_LT;
    BIFROST_VM_OP_CMP_LE; BIFROST_VM_OP_CMP_GT; BIFROST_VM_OP_CMP_GE;
    BIFROST_VM_OP_CMP_AND; BIFROST_VM_OP_CMP_OR; BIFROST_VM_OP_NOT;
    BIFROST_VM_OP_CALL_FN; BIFROST_VM_OP_JUMP; BIFROST_VM_OP_JUMP_IF;
    BIFROST_VM_OP_JUMP_IF_NOT; BIFROST_VM_OP_RETURN ].

(** The integer value of an enumerator. *)
Definition op_code (op : bfInstructionOp) : Z :=
  match op with
  | BIFROST_VM_OP_LOAD_SYMBOL => 0
  | BIFROST_VM_OP_LOAD_BASIC => 1
  | BIFROST_VM_OP_STORE_MOVE => 2
  | BIFROST_VM_OP_STORE_SYMBOL => 3
  | BIFROST_VM_OP_NEW_CLZ => 4
  | BIFROST_VM_OP_MATH_ADD => 5
  | BIFROST_VM_OP_MATH_SUB => 6
  | BIFROST_VM_OP_MATH_MUL => 7
  | BIFROST_VM_OP_MATH_DIV => 8
  | BIFROST_VM_OP_MATH_MOD => 9
  | BIFROST_VM_OP_MATH_POW => 10
  | BIFROST_VM_OP_MATH_INV => 11
  | BIFROST_VM_OP_CMP_EE => 12
  | BIFROST_VM_OP_CMP_NE => 13
  | BIFROST_VM_OP_CMP_LT => 14
  | BIFROST_VM_OP_CMP_LE => 15
  | BIFROST_VM_OP_CMP_GT => 16
  | BIFROST_VM_OP_CMP_GE => 17
  | BIFROST_VM_OP_CMP_AND => 18
  | BIFROST_VM_OP_CMP_OR => 19
  | BIFROST_VM_OP_NOT => 20
  | BIFROST_VM_OP_CALL_FN => 21
  | BIFROST_VM_OP_JUMP => 22
  | BIFROST_VM_OP_JUMP_IF => 23
  | BIFROST_VM_OP_JUMP_IF_NOT => 24
  | BIFROST_VM_OP_RETURN => 25
  end.

(** The enumerator with a given value, if there is one. *)
Definition op_of_code (z : Z) : option bfInstructionOp :=
  List.find (fun op => op_code op =? z) all_ops.

Definition bfInstruction : Type := Z.

Definition BIFROST_INST_OP_MASK : Z := 0x1F.
Definition BIFROST_INST_OP_OFFSET : Z := 0.
Definition BIFROST_INST_RA_MASK : Z := 0x1FF.
Definition BIFROST_INST_RA_OFFSET : Z := 5.
Definition BIFROST_INST_RB_MASK : Z := 0x1FF.
Definition BIFROST_INST_RB_OFFSET : Z := 14.
Definition BIFROST_INST_RC_MASK : Z := 0x1FF.
Definition BIFROST_INST_RC_OFFSET : Z := 23.
Definition BIFROST_INST_RBx_MASK : Z := 0x3FFFF.
Definition BIFROST_INST_RBx_OFFSET : Z := 14.
Definition BIFROST_INST_RsBx_MASK : Z := 0x3FFFF.
Definition BIFROST_INST_RsBx_OFFSET : Z := 14.
Definition BIFROST_INST_RsBx_MAX : Z := BIFROST_INST_RsBx_MASK / 2.

Definition BIFROST_INST_INVALID : bfInstruction := 0xFFFFFFFF.

Definition BIFROST_MAKE_INST_OP (op : Z) : bfInstruction :=
  Z.land op BIFROST_INST_OP_MASK.

Definition BIFROST_MAKE_INST_RC (c : Z) : bfInstruction :=
  Z.shiftl (Z.land c BIFROST_INST_RC_MASK) BIFROST_INST_RC_OFFSET.

Definition BIFROST_MAKE_INST_OP_ABC (op a b c : Z) : bfInstruction :=
  wrap32
    (Z.lor (Z.lor (Z.lor (BIFROST_MAKE_INST_OP op)
                         (Z.shiftl (Z.land a BIFROST_INST_RA_MASK) BIFROST_INST_RA_OFFSET))
                  (Z.shiftl (Z.land b BIFROST_INST_RB_MASK) BIFROST_INST_RB_OFFSET))
           (BIFROST_MAKE_INST_RC c)).

Definition BIFROST_MAKE_INST_OP_ABx (op a bx : Z) : bfInstruction :=
  wrap32
    (Z.lor (Z.lor (BIFROST_MAKE_INST_OP op)
                  (Z.shiftl (Z.land a BIFROST_INST_RA_MASK) BIFROST_INST_RA_OFFSET))
           (Z.shiftl (Z.land bx BIFROST_INST_RBx_MASK) BIFROST_INST_RBx_OFFSET)).

Definition BIFROST_MAKE_INST_OP_AsBx (op a bx : Z) : bfInstruction :=
  wrap32
    (Z.lor (Z.lor (BIFROST_MAKE_INST_OP op)
                  (Z.shiftl (Z.land a BIFROST_INST_RA_MASK) BIFROST_INST_RA_OFFSET))
           (Z.shiftl (Z.land (bx + BIFROST_INST_RsBx_MAX) BIFROST_INST_RsBx_MASK)
                     BIFROST_INST_RsBx_OFFSET)).

(** The decoders of bifrost_vm_api.c. *)
Definition bfInst_decodeOp (inst : bfInstruction) : Z :=
  Z.land inst BIFROST_INST_OP_MASK.
Definition bfInst_decodeRa (inst : bfInstruction) : Z :=
  Z.land (Z.shiftr inst BIFROST_INST_RA_OFFSET) BIFROST_INST_RA_MASK.
Definition bfInst_decodeRb (inst : bfInstruction) : Z :=
  Z.land (Z.shiftr inst BIFROST_INST_RB_OFFSET) BIFROST_INST_RB_MASK.
Definition bfInst_decodeRc (inst : bfInstruction) : Z :=
  Z.land (Z.shiftr inst BIFROST_INST_RC_OFFSET) BIFROST_INST_RC_MASK.
Definition bfInst_decodeRBx (inst : bfInstruction) : Z :=
  Z.land (Z.shiftr inst BIFROST_INST_RBx_OFFSET) BIFROST_INST_RBx_MASK.
Definition bfInst_decodeRsBx (inst : bfInstruction) : Z :=
  bfInst_decodeRBx inst - BIFROST_INST_RsBx_MAX.

(* ===================================================================== *)
(** ** Arrays and strings (bifrost_vm_obj.c) *)
(* ===================================================================== *)

(** A C string or a [string_range]: the bytes, each an [unsigned char]. *)
Definition bytes : Type := list Z.

(** [string_range]: the bytes between [str_bgn] and [str_bgn + str_len].
    A range made by [MakeStringLen(NULL, 0)] is the empty list. *)
Definition string_range : Type := bytes.

Definition string_range_length (r : string_range) : Z := Z.of_nat (length r).

Definition bfVMArray_size {A : Type} (self : list A) : Z := Z.of_nat (length self).

(** [bfVMArray_resize]: the size becomes [size]; the elements of a grown
    array are whatever the allocator left there, here [junk]. *)
Definition bfVMArray_resize {A : Type} (junk : A) (self : list A) (size : Z) : list A :=
  take (Z.to_nat size) self ++ replicate (Z.to_nat size - length self) junk.

(** [Array_reserve]: the capacity of an array of capacity [capacity] once
    room for [num_elements] has been asked for.  The array is reallocated,
    and so may move, exactly when its capacity grows; the host's memory
    function is taken to return the memory. *)
Definition Array_reserve (capacity num_elements : Z) : Z :=
  if capacity <? num_elements
  then
    let new_capacity :=
      (Z.shiftr capacity 3 + (if capacity <? 9 then 3 else 6) + capacity) mod 2 ^ 64 in
    if new_capacity <? num_elements then num_elements else new_capacity
  else capacity.

(** [bfVMArray_emplaceN]: [num_elements] zeroed elements at the end. *)
Definition bfVMArray_emplaceN {A : Type} (zero : A) (self : list A) (num_elements : Z) : list A :=
  self ++ replicate (Z.to_nat num_elements) zero.

Definition bfVMArray_push {A : Type} (self : list A) (data : A) : list A :=
  self ++ [data].

(** [bfVMArray_back]: the last element; reading it from an empty array is
    undefined. *)
Definition bfVMArray_back {A : Type} (self : list A) : Res A :=
  defined (last self).

(** [bfVMArray_pop] asserts that the array is not empty. *)
Definition bfVMArray_pop {A : Type} (self : list A) : Res (list A) :=
  (_ <<- LibC_assert (negb (bfVMArray_size self =? 0)) ;;
   Ok (removelast self))%res.

Definition BIFROST_ARRAY_INVALID_INDEX : Z := wrap64 (-1).

(** Modelled from the spec: [bfVMArray_find] is called by [bfVM_getSymbol]
    and [bfFuncBuilder_addConstant] but its body is not among the sources.
    The spec says of the symbol table that "lookup is linear" and of the
    constant pool that it is "de-duplicated by exact value equality": the
    index of the first element that [compare] accepts for [key], and
    [BIFROST_ARRAY_INVALID_INDEX] when there is none. *)
Fixpoint bfVMArray_find_from {A K : Type} (compare : K -> A -> bool) (key : K)
    (self : list A) (i : Z) : Z :=
  match self with
  | [] => BIFROST_ARRAY_INVALID_INDEX
  | x :: rest => if compare key x then i else bfVMArray_find_from compare key rest (i + 1)
  end.

Definition bfVMArray_find {A K : Type} (self : list A) (key : K) (compare : K -> A -> bool) : Z :=
  bfVMArray_find_from compare key self 0.

(** [strncmp]: at most [n] characters, stopping after a NUL; what lies
    beyond the end of a list is its terminating NUL. *)
Fixpoint LibC_strncmp (lhs rhs : bytes) (n : nat) : Z :=
  match n with
  | O => 0
  | S n' =>
      let c1 := hd 0 lhs in
      let c2 := hd 0 rhs in
      if c1 =? c2
      then (if c1 =? 0 then 0 else LibC_strncmp (tl lhs) (tl rhs) n')
      else c1 - c2
  end.

(** A [BifrostString] keeps its length in a header before the characters. *)
Definition bfVMString_length (self : bytes) : Z := Z.of_nat (length self).

Definition bfVMString_ccmpn (self other : bytes) (length : Z) : Z :=
  if length >? bfVMString_length self
  then -1
  else LibC_strncmp self other (Z.to_nat length).

Definition bfVMString_cmp (self other : bytes) : Z :=
  let len1 := bfVMString_length self in
  let len2 := bfVMString_length other in
  if negb (len1 =? len2) then -1 else LibC_strncmp self other (Z.to_nat len1).

(** FNV-1a on 32 bits. *)
Definition bfVMString_hashN (str : bytes) : Z :=
  fold_left (fun hash c => wrap32 (Z.lxor hash c * 0x01000193)) str 0x811c9dc5.

(* ===================================================================== *)
(** ** Heap objects (bifrost_vm_obj.h) *)
(* ===================================================================== *)

Inductive BifrostObjType : Type :=
| BIFROST_VM_OBJ_FUNCTION
| BIFROST_VM_OBJ_MODULE
| BIFROST_VM_OBJ_CLASS
| BIFROST_VM_OBJ_INSTANCE
| BIFROST_VM_OBJ_STRING
| BIFROST_VM_OBJ_NATIVE_FN
| BIFROST_VM_OBJ_REFERENCE
| BIFROST_VM_OBJ_WEAK_REF.

#[global] Instance BifrostObjType_eq_dec : EqDecision BifrostObjType.
Proof. solve_decision. Defined.

Record BifrostVMSymbol : Type := {
  sym_name : option bytes;   (* NULL or a string owned by the symbol table *)
  sym_value : bfVMValue
}.

Record BifrostObjFn : Type := {
  fn_name : bytes;
  fn_arity : Z;                       (* int32_t, -1 is variadic *)
  fn_code_to_line : list Z;
  fn_constants : list bfVMValue;
  fn_instructions : list bfInstruction;
  fn_needed_stack_space : Z;          (* size_t *)
  fn_module : Z                       (* BifrostObjModule* *)
}.

Record BifrostObjModule : Type := {
  module_name : bytes;
  module_variables : list BifrostVMSymbol;
  module_init_fn : BifrostObjFn
}.

Record BifrostObjClass : Type := {
  clz_name : bytes;
  clz_base_clz : Z;                   (* BifrostObjClass*, 0 when there is none *)
  clz_module : Z;
  clz_symbols : list BifrostVMSymbol;
  clz_field_initializers : list BifrostVMSymbol;
  clz_extra_data : Z
}.

Record BifrostObjInstance : Type := {
  inst_clz : Z;                       (* BifrostObjClass*, optional *)
  inst_fields : list (list (bytes * bfVMValue))   (* a BifrostHashMap: its buckets *)
}.

Record BifrostObjStr : Type := {
  str_value : bytes;
  str_hash : Z
}.

Record BifrostObjNativeFn : Type := {
  native_value : Z;                   (* bfNativeFnT, the host's function *)
  native_arity : Z;
  native_statics : list bfVMValue
}.

(** [BifrostObjReference] and [BifrostObjWeakRef] start with the same
    [INSTANCE_HEADER] as an instance: the class pointer. *)
Inductive BifrostObj : Type :=
| ObjFn (fn : BifrostObjFn)
| ObjModule (module : BifrostObjModule)
| ObjClass (clz : BifrostObjClass)
| ObjInstance (inst : BifrostObjInstance)
| ObjStr (str : BifrostObjStr)
| ObjNativeFn (fn : BifrostObjNativeFn)
| ObjReference (ref_clz : Z)
| ObjWeakRef (ref_clz : Z).

(** [obj->type]. *)
Definition obj_type (obj : BifrostObj) : BifrostObjType :=
  match obj with
  | ObjFn _ => BIFROST_VM_OBJ_FUNCTION
  | ObjModule _ => BIFROST_VM_OBJ_MODULE
  | ObjClass _ => BIFROST_VM_OBJ_CLASS
  | ObjInstance _ => BIFROST_VM_OBJ_INSTANCE
  | ObjStr _ => BIFROST_VM_OBJ_STRING
  | ObjNativeFn _ => BIFROST_VM_OBJ_NATIVE_FN
  | ObjReference _ => BIFROST_VM_OBJ_REFERENCE
  | ObjWeakRef _ => BIFROST_VM_OBJ_WEAK_REF
  end.

(** [instance->clz] through the shared header. *)
Definition obj_clz (obj : BifrostObj) : Z :=
  match obj with
  | ObjInstance inst => inst_clz inst
  | ObjReference c => c
  | ObjWeakRef c => c
  | _ => 0
  end.

Record BifrostVMStackFrame : Type := {
  frame_fn : Z;          (* BifrostObjFn*, 0 for a native frame *)
  frame_ip : Z;          (* index of the current instruction in fn->instructions *)
  frame_old_stack : Z;   (* the top of the stack to restore to *)
  frame_stack : Z        (* where this frame's locals start *)
}.

(* ===================================================================== *)
(** ** bifrost_vm_function_builder.c *)
(* ===================================================================== *)

Record BifrostVMFunctionBuilder : Type := {
  name : string_range;
  constants : option (list bfVMValue);     (* NULL outside begin .. end *)
  local_vars : list string_range;
  local_var_scope_size : list Z;
  instructions : list bfInstruction;
  code_to_line : list Z;
  max_local_idx : Z;
  current_line_no : Z                      (* the lexer's line, read through the pointer *)
}.

Definition uint16 (z : Z) : Z := z mod 2 ^ 16.

Definition bfFuncBuilder_ctor (lexer_line_no : Z) : BifrostVMFunctionBuilder :=
  {| name := [];
     constants := None;
     local_vars := [];
     local_var_scope_size := [];
     instructions := [];
     code_to_line := [];
     max_local_idx := 0;
     current_line_no := lexer_line_no |}.

Definition bfFuncBuilder_pushScope (self : BifrostVMFunctionBuilder) : BifrostVMFunctionBuilder :=
  {| name := name self;
     constants := constants self;
     local_vars := local_vars self;
     local_var_scope_size := bfVMArray_emplaceN 0 (local_var_scope_size self) 1;
     instructions := instructions self;
     code_to_line := code_to_line self;
     max_local_idx := max_local_idx self;
     current_line_no := current_line_no self |}.

Definition bfFuncBuilder_begin (self : BifrostVMFunctionBuilder) (fn_name : string_range)
    : Res BifrostVMFunctionBuilder :=
  (_ <<- LibC_assert (bool_decide (constants self = None)) ;;
   Ok (bfFuncBuilder_pushScope
         {| name := fn_name;
            constants := Some [];
            local_vars := [];
            local_var_scope_size := [];
            instructions := [];
            code_to_line := [];
            max_local_idx := max_local_idx self;
            current_line_no := current_line_no self |}))%res.

Definition bfFuncBuilder_addConstant (self : BifrostVMFunctionBuilder) (value : bfVMValue)
    : Res (BifrostVMFunctionBuilder * Z) :=
  (pool <<- defined (constants self) ;;
   let index := bfVMArray_find pool value Z.eqb in
   if index =? BIFROST_ARRAY_INVALID_INDEX
   then Ok ({| name := name self;
               constants := Some (bfVMArray_push pool value);
               local_vars := local_vars self;
               local_var_scope_size := local_var_scope_size self;
               instructions := instructions self;
               code_to_line := code_to_line self;
               max_local_idx := max_local_idx self;
               current_line_no := current_line_no self |},
            wrap32 (bfVMArray_size pool))
   else Ok (self, wrap32 index))%res.

Section Builder.
(** [bfFuncBuilder__getVariable] hands the raw source pointer [name] to
    [bfVMString_ccmpn], which reads a [BifrostString] length header in front
    of it; the source text has none there, so what the comparison answers
    is a parameter of the builder. *)
Context (ccmpn_source : string_range -> string_range -> Z -> Z).

(** The loop [for (i = end - 1; i >= 0; --i)], written upwards from
    [i = end - 1 - fuel + 1]: [scan] holds the candidates from index
    [end - 1] down to 0. *)
Fixpoint getVariable_scan (var_name : string_range) (scan : list (Z * string_range)) : Z :=
  match scan with
  | [] => BIFROST_ARRAY_INVALID_INDEX
  | (i, var) :: rest =>
      if (string_range_length var_name =? string_range_length var)
         && (ccmpn_source var_name var (string_range_length var_name) =? 0)
      then i
      else getVariable_scan var_name rest
  end.

Definition indexed {A : Type} (l : list A) : list (Z * A) :=
  imap (fun i x => (Z.of_nat i, x)) l.

Definition bfFuncBuilder__getVariable (self : BifrostVMFunctionBuilder)
    (var_name : string_range) (in_current_scope : bool) : Res Z :=
  (count <<- bfVMArray_back (local_var_scope_size self) ;;
   let end_ := if in_current_scope then count else bfVMArray_size (local_vars self) in
   (* LibC_assert((int)bfVMArray_size(&self->local_vars) > i) for every i visited *)
   _ <<- LibC_assert ((end_ <=? 0) || (end_ <=? bfVMArray_size (local_vars self))) ;;
   Ok (getVariable_scan var_name (rev (take (Z.to_nat end_) (indexed (local_vars self))))))%res.

Definition set_locals (self : BifrostVMFunctionBuilder) (vars : list string_range)
    (scopes : list Z) (max_idx : Z) : BifrostVMFunctionBuilder :=
  {| name := name self;
     constants := constants self;
     local_vars := vars;
     local_var_scope_size := scopes;
     instructions := instructions self;
     code_to_line := code_to_line self;
     max_local_idx := max_idx;
     current_line_no := current_line_no self |}.

(** Returns the builder, the slot, and whether a compile error was
    reported ("already declared"). *)
Definition bfFuncBuilder_declVariable (self : BifrostVMFunctionBuilder) (var_name : string_range)
    : Res (BifrostVMFunctionBuilder * Z * bool) :=
  (prev_decl <<- bfFuncBuilder__getVariable self var_name true ;;
   if negb (prev_decl =? BIFROST_ARRAY_INVALID_INDEX)
   then Ok (self, wrap32 prev_decl, true)
   else
     let var_loc := bfVMArray_size (local_vars self) in
     let vars := bfVMArray_push (local_vars self) var_name in
     count <<- bfVMArray_back (local_var_scope_size self) ;;
     let scopes := removelast (local_var_scope_size self) ++ [count + 1] in
     let max_idx := if max_local_idx self <? var_loc then var_loc else max_local_idx self in
     Ok (set_locals self vars scopes max_idx, wrap32 var_loc, false))%res.

Definition bfFuncBuilder_pushTemp (self : BifrostVMFunctionBuilder) (num_temps : Z)
    : BifrostVMFunctionBuilder * Z :=
  let var_loc := bfVMArray_size (local_vars self) in
  let var_loc_end := var_loc + num_temps in
  let vars := bfVMArray_emplaceN [] (local_vars self) num_temps in
  let max_idx := if max_local_idx self <? var_loc_end then var_loc_end else max_local_idx self in
  (set_locals self vars (local_var_scope_size self) max_idx, uint16 var_loc).

Definition bfFuncBuilder_popTemp (self : BifrostVMFunctionBuilder) (start : Z)
    : BifrostVMFunctionBuilder :=
  set_locals self (bfVMArray_resize [] (local_vars self) start)
             (local_var_scope_size self) (max_local_idx self).

Definition bfFuncBuilder_getVariable (self : BifrostVMFunctionBuilder) (var_name : string_range)
    : Res Z :=
  bfFuncBuilder__getVariable self var_name false.

Definition bfFuncBuilder_popScope (self : BifrostVMFunctionBuilder) : Res BifrostVMFunctionBuilder :=
  (count <<- bfVMArray_back (local_var_scope_size self) ;;
   let num_vars := bfVMArray_size (local_vars self) in
   let new_size := wrap64 (num_vars - count) in
   scopes <<- bfVMArray_pop (local_var_scope_size self) ;;
   Ok (set_locals self (bfVMArray_resize [] (local_vars self) new_size)
                  scopes (max_local_idx self)))%res.

End Builder.

(** [bfFuncBuilder_addInst] followed by the store through the pointer it
    returns. *)
Definition bfFuncBuilder_addInst (self : BifrostVMFunctionBuilder) (inst : bfInstruction)
    : BifrostVMFunctionBuilder :=
  {| name := name self;
     constants := constants self;
     local_vars := local_vars self;
     local_var_scope_size := local_var_scope_size self;
     instructions := bfVMArray_push (instructions self) inst;
     code_to_line := bfVMArray_push (code_to_line self) (uint16 (current_line_no self));
     max_local_idx := max_local_idx self;
     current_line_no := current_line_no self |}.

Definition bfFuncBuilder_addInstABC (self : BifrostVMFunctionBuilder) (op : bfInstructionOp)
    (a b c : Z) : BifrostVMFunctionBuilder :=
  bfFuncBuilder_addInst self (BIFROST_MAKE_INST_OP_ABC (op_code op) a b c).

Definition bfFuncBuilder_addInstABx (self : BifrostVMFunctionBuilder) (op : bfInstructionOp)
    (a bx : Z) : BifrostVMFunctionBuilder :=
  bfFuncBuilder_addInst self (BIFROST_MAKE_INST_OP_ABx (op_code op) a bx).

Definition bfFuncBuilder_addInstAsBx (self : BifrostVMFunctionBuilder) (op : bfInstructionOp)
    (a sbx : Z) : BifrostVMFunctionBuilder :=
  bfFuncBuilder_addInst self (BIFROST_MAKE_INST_OP_AsBx (op_code op) a sbx).

Definition bfFuncBuilder_addInstBreak (self : BifrostVMFunctionBuilder) : BifrostVMFunctionBuilder :=
  bfFuncBuilder_addInst self BIFROST_INST_INVALID.

(** [out] is the function object being filled; its module was set when the
    object was allocated.  A NULL constants array is handed over as it is:
    an array with no elements. *)
Definition bfFuncBuilder_end (self : BifrostVMFunctionBuilder) (out : BifrostObjFn) (arity : Z)
    : Res (BifrostVMFunctionBuilder * BifrostObjFn) :=
  (let self1 := bfFuncBuilder_addInstABx self BIFROST_VM_OP_RETURN 0 0 in
   self2 <<- bfFuncBuilder_popScope self1 ;;
   Ok ({| name := name self2;
          constants := None;
          local_vars := local_vars self2;
          local_var_scope_size := local_var_scope_size self2;
          instructions := instructions self2;
          code_to_line := code_to_line self2;
          max_local_idx := max_local_idx self2;
          current_line_no := current_line_no self2 |},
       {| fn_name := name self2;
          fn_arity := arity;
          fn_code_to_line := code_to_line self2;
          fn_constants := default [] (constants self2);
          fn_instructions := instructions self2;
          fn_needed_stack_space := wrap64 (max_local_idx self2 + arity + 1);
          fn_module := fn_module out |}))%res.

(* ===================================================================== *)
(** ** bifrost_vm_lexer.h / bifrost_vm_lexer.c: tokens and operators *)
(* ===================================================================== *)

(** The enumeration generated by [BIFROST_TOKEN_XTABLE]. *)
Inductive bfTokenType : Type :=
| BIFROST_TOKEN_L_PAREN | BIFROST_TOKEN_R_PAREN
| BIFROST_TOKEN_L_SQR_BOI | BIFROST_TOKEN_R_SQR_BOI
| BIFROST_TOKEN_L_CURLY | BIFROST_TOKEN_R_CURLY
| BIFROST_TOKEN_HASHTAG | BIFROST_TOKEN_COLON | BIFROST_TOKEN_SEMI_COLON
| BIFROST_TOKEN_COMMA | BIFROST_TOKEN_EQUALS
| BIFROST_TOKEN_PLUS | BIFROST_TOKEN_MINUS | BIFROST_TOKEN_MULT | BIFROST_TOKEN_DIV
| BIFROST_TOKEN_PLUS_EQUALS | BIFROST_TOKEN_MINUS_EQUALS
| BIFROST_TOKEN_INC | BIFROST_TOKEN_DEC | BIFROST_TOKEN_DOT
| BIFROST_TOKEN_IDENTIFIER | BIFROST_TOKEN_VAR | BIFROST_TOKEN_IMPORT
| BIFROST_TOKEN_FUNC | BIFROST_TOKEN_CLASS
| BIFROST_TOKEN_CTRL_IF | BIFROST_TOKEN_CTRL_ELSE
| BIFROST_TOKEN_CTRL_EE | BIFROST_TOKEN_CTRL_LT | BIFROST_TOKEN_CTRL_GT
| BIFROST_TOKEN_CTRL_LE | BIFROST_TOKEN_CTRL_GE
| BIFROST_TOKEN_CTRL_OR | BIFROST_TOKEN_CTRL_AND | BIFROST_TOKEN_CTRL_NE
| BIFROST_TOKEN_CTRL_WHILE | BIFROST_TOKEN_CTRL_FOR | BIFROST_TOKEN_RETURN
| BIFROST_TOKEN_BANG
| BIFROST_TOKEN_CONST_STR | BIFROST_TOKEN_CONST_REAL
| BIFROST_TOKEN_CONST_BOOL | BIFROST_TOKEN_CONST_NIL
| BIFROST_TOKEN_CTRL_BREAK | BIFROST_TOKEN_NEW | BIFROST_TOKEN_STATIC
| BIFROST_TOKEN_AS | BIFROST_TOKEN_SUPER | BIFROST_TOKEN_AT_SIGN
| BIFROST_TOKEN_EOP.

#[global] Instance bfTokenType_eq_dec : EqDecision bfTokenType.
Proof. solve_decision. Defined.

Record bfToken : Type := {
  token_type : bfTokenType;
  token_str_range : string_range
}.

(** The character [c] as the lexer compares it. *)
Definition chr (c : Ascii.ascii) : Z := Z.of_N (Ascii.N_of_ascii c).

(** [BIFROST_TOKEN_MAKE_STR(t, s)]. *)
Definition BIFROST_TOKEN_MAKE_STR (t : bfTokenType) (s : list Ascii.ascii) : bfToken :=
  {| token_type := t; token_str_range := map chr s |}.

(** The arms of the switch of [bfLexer_nextToken] that make the binary
    operators, from the character just consumed and the one after it.
    The second component tells whether the lexer advances over
    [next_char] too. *)
Definition bfLexer_operatorToken (current_char next_char : Z) : option (bfToken * bool) :=
  let c := Ascii.ascii_of_N (Z.to_N current_char) in
  let followed_by (n : Ascii.ascii) := next_char =? chr n in
  match c with
  | "<"%char =>
      if followed_by "="%char
      then Some (BIFROST_TOKEN_MAKE_STR BIFROST_TOKEN_CTRL_LE ["<"; "="]%char, true)
      else Some (BIFROST_TOKEN_MAKE_STR BIFROST_TOKEN_CTRL_LT ["<"]%char, false)
  | ">"%char =>
      if followed_by "="%char
      then Some (BIFROST_TOKEN_MAKE_STR BIFROST_TOKEN_CTRL_GE [">"; "="]%char, true)
      else Some (BIFROST_TOKEN_MAKE_STR BIFROST_TOKEN_CTRL_GT [">"]%char, false)
  | "="%char =>
      if followed_by "="%char
      then Some (BIFROST_TOKEN_MAKE_STR BIFROST_TOKEN_CTRL_EE ["="; "="]%char, true)
      else Some (BIFROST_TOKEN_MAKE_STR BIFROST_TOKEN_EQUALS ["="]%char, false)
  | "+"%char =>
      if followed_by "="%char
      then Some (BIFROST_TOKEN_MAKE_STR BIFROST_TOKEN_PLUS_EQUALS ["+"; "="]%char, true)
      else Some (BIFROST_TOKEN_MAKE_STR BIFROST_TOKEN_PLUS ["+"]%char, false)
  | "-"%char =>
      if followed_by "="%char
      then Some (BIFROST_TOKEN_MAKE_STR BIFROST_TOKEN_MINUS_EQUALS ["-"; "="]%char, true)
      else Some (BIFROST_TOKEN_MAKE_STR BIFROST_TOKEN_MINUS ["-"]%char, false)
  | "*"%char => Some (BIFROST_TOKEN_MAKE_STR BIFROST_TOKEN_MULT ["*"]%char, false)
  | "/"%char => Some (BIFROST_TOKEN_MAKE_STR BIFROST_TOKEN_DIV ["/"]%char, false)
  | "!"%char =>
      if followed_by "="%char
      then Some (BIFROST_TOKEN_MAKE_STR BIFROST_TOKEN_CTRL_NE ["!"; "="]%char, true)
      else Some (BIFROST_TOKEN_MAKE_STR BIFROST_TOKEN_BANG ["!"]%char, false)
  | "|"%char =>
      if followed_by "|"%char
      then Some (BIFROST_TOKEN_MAKE_STR BIFROST_TOKEN_CTRL_OR ["|"; "|"]%char, true)
      else Some (BIFROST_TOKEN_MAKE_STR BIFROST_TOKEN_CTRL_OR ["|"]%char, false)
  | "&"%char =>
      if followed_by "&"%char
      then Some (BIFROST_TOKEN_MAKE_STR BIFROST_TOKEN_CTRL_AND ["&"; "&"]%char, true)
      else Some (BIFROST_TOKEN_MAKE_STR BIFROST_TOKEN_CTRL_AND ["&"]%char, false)
  | _ => None
  end.

(* ===================================================================== *)
(** ** bifrost_vm_parser.c: loops, jumps and binary operators *)
(* ===================================================================== *)

Definition BIFROST_VAR_LOCATION_BITS : Z := 15.
Definition BIFROST_VM_INVALID_SLOT : Z := Z.shiftl 1 BIFROST_VAR_LOCATION_BITS - 1.

Inductive VariableKind : Type := V_LOCAL | V_MODULE.

Record VariableInfo : Type := {
  kind : VariableKind;
  location : Z          (* 15 bits *)
}.

Inductive Precedence : Type :=
| PREC_NONE | PREC_ASSIGN | PREC_OR | PREC_AND | PREC_EQUALITY | PREC_TERNARY
| PREC_COMPARISON | PREC_TERM | PREC_FACTOR | PREC_UNARY | PREC_PREFIX
| PREC_POSTFIX | PREC_CALL.

Record ExprInfo : Type := {
  write_loc : Z;
  var : VariableInfo
}.

Definition VariableInfo_temp (temp_loc : Z) : VariableInfo :=
  {| kind := V_LOCAL; location := Z.land temp_loc (Z.ones BIFROST_VAR_LOCATION_BITS) |}.

Definition exprMake (write_loc : Z) (variable : VariableInfo) : ExprInfo :=
  {| write_loc := write_loc; var := variable |}.

Definition exprMakeTemp (temp_loc : Z) : ExprInfo :=
  exprMake temp_loc (VariableInfo_temp BIFROST_VM_INVALID_SLOT).

(** [LoopInfo]: the [parent] pointer is the rest of the loop stack. *)
Record LoopInfo : Type := {
  body_start : Z
}.

Record BifrostParser : Type := {
  fn_builder : BifrostVMFunctionBuilder;   (* the builder on top of the builder stack *)
  loop_stack : list LoopInfo;              (* innermost loop first; [] is NULL *)
  has_error : bool
}.

Definition with_builder (self : BifrostParser) (b : BifrostVMFunctionBuilder) : BifrostParser :=
  {| fn_builder := b; loop_stack := loop_stack self; has_error := has_error self |}.

(** [Parser_EmitError]: the message goes to the VM, the flag stays. *)
Definition Parser_EmitError (self : BifrostParser) : BifrostParser :=
  {| fn_builder := fn_builder self; loop_stack := loop_stack self; has_error := true |}.

Definition loopPush (self : BifrostParser) : BifrostParser :=
  {| fn_builder := fn_builder self;
     loop_stack := {| body_start := bfVMArray_size (instructions (fn_builder self)) |}
                   :: loop_stack self;
     has_error := has_error self |}.

(** The body of the [for] loop of [loopPop], for the instructions from
    index [i] on. *)
Fixpoint loopPop_patch (loop_body_start body_end i : Z) (code : list bfInstruction)
    : list bfInstruction :=
  match code with
  | [] => []
  | inst :: rest =>
      (if (loop_body_start <=? i) && (i <? body_end) && (inst =? BIFROST_INST_INVALID)
       then
         let offset_to_end_of_loop := body_end - i in
         BIFROST_MAKE_INST_OP_AsBx (op_code BIFROST_VM_OP_JUMP) 0 offset_to_end_of_loop
       else inst)
      :: loopPop_patch loop_body_start body_end (i + 1) rest
  end.

Definition set_instructions (b : BifrostVMFunctionBuilder) (code : list bfInstruction)
    : BifrostVMFunctionBuilder :=
  {| name := name b;
     constants := constants b;
     local_vars := local_vars b;
     local_var_scope_size := local_var_scope_size b;
     instructions := code;
     code_to_line := code_to_line b;
     max_local_idx := max_local_idx b;
     current_line_no := current_line_no b |}.

Definition loopPop (self : BifrostParser) : Res BifrostParser :=
  (_ <<- LibC_assert (negb (bool_decide (loop_stack self = []))) ;;
   match loop_stack self with
   | [] => Aborted
   | loop :: parent =>
       let body_end := bfVMArray_size (instructions (fn_builder self)) in
       let code := loopPop_patch (body_start loop) body_end 0 (instructions (fn_builder self)) in
       Ok {| fn_builder := set_instructions (fn_builder self) code;
             loop_stack := parent;
             has_error := has_error self |}
   end)%res.

(** The [BIFROST_TOKEN_CTRL_BREAK] arm of [Parser_parseStatement], up to the
    tokens it then consumes. *)
Definition parseBreak (self : BifrostParser) : BifrostParser :=
  match loop_stack self with
  | _ :: _ => with_builder self (bfFuncBuilder_addInstBreak (fn_builder self))
  | [] => Parser_EmitError self
  end.

Definition parserMakeJump (self : BifrostParser) : BifrostParser * Z :=
  let jump_idx := wrap32 (bfVMArray_size (instructions (fn_builder self))) in
  (with_builder self (bfFuncBuilder_addInstAsBx (fn_builder self) BIFROST_VM_OP_JUMP 0 0),
   jump_idx).

Definition parserMakeJumpRev (self : BifrostParser) : Z :=
  wrap32 (bfVMArray_size (instructions (fn_builder self))).

(** Writing through [instructions + jump_idx] outside the array is
    undefined. *)
Definition parserPatchJumpHelper (self : BifrostParser) (jump_idx cond_var jump_amt : Z)
    (if_not : bool) : Res BifrostParser :=
  let code := instructions (fn_builder self) in
  let inst :=
    if cond_var =? BIFROST_VM_INVALID_SLOT
    then BIFROST_MAKE_INST_OP_AsBx (op_code BIFROST_VM_OP_JUMP) 0 jump_amt
    else BIFROST_MAKE_INST_OP_AsBx
           (op_code (if if_not then BIFROST_VM_OP_JUMP_IF_NOT else BIFROST_VM_OP_JUMP_IF))
           cond_var jump_amt in
  if (0 <=? jump_idx) && (jump_idx <? bfVMArray_size code)
  then Ok (with_builder self
             (set_instructions (fn_builder self) (<[Z.to_nat jump_idx := inst]> code)))
  else Undefined.

Definition parserPatchJump (self : BifrostParser) (jump_idx cond_var : Z) (if_not : bool)
    : Res BifrostParser :=
  let current_loc := wrap32 (bfVMArray_size (instructions (fn_builder self))) in
  parserPatchJumpHelper self jump_idx cond_var (current_loc - jump_idx) if_not.

Definition parserPatchJumpRev (self : BifrostParser) (jump_idx cond_var : Z) (if_not : bool)
    : Res BifrostParser :=
  let current_loc := wrap32 (bfVMArray_size (instructions (fn_builder self))) in
  let self1 := with_builder self
                 (bfFuncBuilder_addInstAsBx (fn_builder self) BIFROST_VM_OP_JUMP 0 0) in
  parserPatchJumpHelper self1 current_loc cond_var (jump_idx - current_loc) if_not.

(** The switch of [Expr_parseBinOp] on the first character of the operator
    token: the opcode, and whether "Invalid Binary Operator" is reported. *)
Definition Expr_parseBinOp_inst (token : bfToken) : bfInstructionOp * bool :=
  let bin_op := Ascii.ascii_of_N (Z.to_N (hd 0 (token_str_range token))) in
  match bin_op with
  | "="%char => (BIFROST_VM_OP_CMP_EE, false)
  | "!"%char => (BIFROST_VM_OP_CMP_NE, false)
  | "+"%char => (BIFROST_VM_OP_MATH_ADD, false)
  | "-"%char => (BIFROST_VM_OP_MATH_SUB, false)
  | "*"%char => (BIFROST_VM_OP_MATH_MUL, false)
  | "/"%char => (BIFROST_VM_OP_MATH_DIV, false)
  | "%"%char => (BIFROST_VM_OP_MATH_MOD, false)
  | "^"%char => (BIFROST_VM_OP_MATH_POW, false)
  | "|"%char => (BIFROST_VM_OP_CMP_OR, false)
  | "&"%char => (BIFROST_VM_OP_CMP_AND, false)
  | "<"%char =>
      (if bool_decide (token_type token = BIFROST_TOKEN_CTRL_LE)
       then BIFROST_VM_OP_CMP_LE else BIFROST_VM_OP_CMP_LT, false)
  | ">"%char =>
      (if bool_decide (token_type token = BIFROST_TOKEN_CTRL_GE)
       then BIFROST_VM_OP_CMP_GE else BIFROST_VM_OP_CMP_GT, false)
  | _ => (BIFROST_VM_OP_CMP_EE, true)
  end.

Section ParseBinOp.
(** [parseExpr], which [Expr_parseBinOp] calls for its right operand and
    which reaches it back through the grammar table. *)
Context (parseExpr : BifrostParser -> ExprInfo -> Precedence -> Res BifrostParser).

Definition Expr_parseBinOp (self : BifrostParser) (expr_info lhs : ExprInfo)
    (token : bfToken) (prec : Precedence) : Res BifrostParser :=
  (let '(inst, invalid) := Expr_parseBinOp_inst token in
   let self0 := if invalid then Parser_EmitError self else self in
   let bin_op := hd 0 (token_str_range token) in
   let '(b1, rhs_loc) := bfFuncBuilder_pushTemp (fn_builder self0) 1 in
   let self1 := with_builder self0 b1 in
   let rhs_expr := exprMake rhs_loc (VariableInfo_temp BIFROST_VM_INVALID_SLOT) in
   let short_circuit := (bin_op =? chr "&") || (bin_op =? chr "|") in
   let '(self2, jmp) :=
     if short_circuit then parserMakeJump self1 else (self1, BIFROST_VM_INVALID_SLOT) in
   self3 <<- parseExpr self2 rhs_expr prec ;;
   let self4 := with_builder self3
                  (bfFuncBuilder_addInstABC (fn_builder self3) inst
                     (write_loc expr_info) (write_loc lhs) rhs_loc) in
   self5 <<- (if negb (jmp =? BIFROST_VM_INVALID_SLOT)
              then parserPatchJump self4 jmp (write_loc expr_info) (bin_op =? chr "&")
              else Ok self4) ;;
   Ok (with_builder self5 (bfFuncBuilder_popTemp (fn_builder self5) rhs_loc)))%res.

End ParseBinOp.

(* ===================================================================== *)
(** ** bifrost_hash_map.c *)
(* ===================================================================== *)

Definition BIFROST_HASH_MAP_BUCKET_SIZE : Z := 128.

(** The buckets, each a chain of nodes from its head. *)
Definition BifrostHashMap (K V : Type) : Type := list (list (K * V)).

Section HashMap.
Context {K V : Type}.
(** [params.hash] and [params.cmp]. *)
Context (hash : K -> Z) (cmp : K -> K -> bool).

Definition bfHashMap_ctor : BifrostHashMap K V :=
  replicate (Z.to_nat BIFROST_HASH_MAP_BUCKET_SIZE) [].

Definition bucket_index (key : K) : nat :=
  Z.to_nat (hash key mod BIFROST_HASH_MAP_BUCKET_SIZE).

(** [bfHashMap_getNode]: the first node of the bucket whose key [cmp]
    accepts. *)
Definition bfHashMap_getNode (self : BifrostHashMap K V) (key : K) (bucket : nat)
    : option (K * V) :=
  List.find (fun node => cmp key (fst node)) (default [] (self !! bucket)).

Fixpoint chain_set (key : K) (value : V) (chain : list (K * V)) : list (K * V) :=
  match chain with
  | [] => []
  | node :: rest =>
      if cmp key (fst node) then (key, value) :: rest
      else node :: chain_set key value rest
  end.

Definition bfHashMap_set (self : BifrostHashMap K V) (key : K) (value : V)
    : BifrostHashMap K V :=
  let bucket := bucket_index key in
  let chain := default [] (self !! bucket) in
  match bfHashMap_getNode self key bucket with
  | Some _ => <[bucket := chain_set key value chain]> self
  | None => <[bucket := (key, value) :: chain]> self
  end.

Definition bfHashMap_get (self : BifrostHashMap K V) (key : K) : option V :=
  snd <$> bfHashMap_getNode self key (bucket_index key).

End HashMap.

(** [bfHashMapFor]: every node, bucket after bucket, each chain from its
    head. *)
Definition bfHashMap_nodes {K V : Type} (self : BifrostHashMap K V) : list (K * V) :=
  concat self.

Definition bfHashMap_clear {K V : Type} (self : BifrostHashMap K V) : BifrostHashMap K V :=
  replicate (length self) [].

(** [strcmp] on NUL-terminated strings: the characters before the first
    NUL decide. *)
Fixpoint c_string (s : bytes) : bytes :=
  match s with
  | [] => []
  | c :: rest => if c =? 0 then [] else c :: c_string rest
  end.

Definition bfHashMap_defaultHash (key : bytes) : Z :=
  bfVMString_hashN (c_string key).

Definition bfHashMap_defaultCmp (lhs rhs : bytes) : bool :=
  bool_decide (c_string lhs = c_string rhs).

(** The module map of the VM: keys are string objects. *)
Definition ModuleMap_hash (key : BifrostObjStr) : Z := str_hash key.

Definition ModuleMap_cmp (lhs rhs : BifrostObjStr) : bool :=
  (str_hash lhs =? str_hash rhs) && (bfVMString_cmp (str_value lhs) (str_value rhs) =? 0).

(* ===================================================================== *)
(** ** The VM state (bifrost_vm.h) *)
(* ===================================================================== *)

Inductive BifrostVMError : Type :=
| BIFROST_VM_ERROR_NONE
| BIFROST_VM_ERROR_OUT_OF_MEMORY
| BIFROST_VM_ERROR_RUNTIME
| BIFROST_VM_ERROR_LEXER
| BIFROST_VM_ERROR_COMPILE
| BIFROST_VM_ERROR_FUNCTION_ARITY_MISMATCH
| BIFROST_VM_ERROR_MODULE_ALREADY_DEFINED
| BIFROST_VM_ERROR_MODULE_NOT_FOUND
| BIFROST_VM_ERROR_INVALID_OP_ON_TYPE
| BIFROST_VM_ERROR_INVALID_ARGUMENT
| BIFROST_VM_ERROR_STACK_TRACE_BEGIN
| BIFROST_VM_ERROR_STACK_TRACE
| BIFROST_VM_ERROR_STACK_TRACE_END.

#[global] Instance BifrostVMError_eq_dec : EqDecision BifrostVMError.
Proof. solve_decision. Defined.

(** The messages that [BF_RUNTIME_ERROR] and the module loader format into
    [last_error], with the arguments that tell them apart. *)
Inductive ErrorMessage : Type :=
| MsgNone
| MsgLoadSymbolNonObject (symbol : Z)
| MsgSymbolNotDefined (symbol : Z)
| MsgLoadSymbolNonInstance (symbol : Z)
| MsgStoreNonObject
| MsgStoreNonInstance
| MsgNewOnNonClass
| MsgCallMustBeFunction
| MsgNoCallFunction
| MsgFunctionArity (num_args arity : Z)
| MsgNativeArity (num_args arity : Z)
| MsgNotCallable
| MsgNotPointer
| MsgAddIncompatible
| MsgSubNonNumber
| MsgInvalidOp (op : Z)
| MsgModuleNotFound (module : bytes)
| MsgNoModuleFunction (module : bytes)
| MsgStackFrame (index line_no : Z).

(** What the VM asks of the host. *)
Inductive HostEvent : Type :=
| EvErrorFn (err : BifrostVMError) (line_no : Z)      (* params.error_fn *)
| EvModuleFn (from module : bytes)                    (* params.module_fn *)
| EvNativeFn (fn : Z) (num_args : Z)                  (* a native function *)
| EvCompile (module : Z)                              (* bfVM_compileIntoModule *)
| EvRunModule (module : Z).                           (* bfVM_runModule *)

(** The C type [float]. *)
Definition float : Type := SpecFloat.spec_float.
Definition FLT_MANT_DIG : Z := 24.
Definition FLT_MAX_EXP : Z := 128.

(** The conversion of a [size_t] to [float]: to the nearest [float], ties
    to the even mantissa. *)
Definition float_of_size_t (n : Z) : float :=
  SpecFloat.binary_normalize FLT_MANT_DIG FLT_MAX_EXP n 0 false.

(** [x * y] on [float]s. *)
Definition float_mul (x y : float) : float :=
  SpecFloat.SFmul FLT_MANT_DIG FLT_MAX_EXP x y.

(** The cast [(size_t)x]: the fractional part is discarded; the behaviour
    is undefined when what remains is not a [size_t]. *)
Definition size_t_of_float (x : float) : Res Z :=
  match x with
  | SpecFloat.S754_zero _ => Ok 0
  | SpecFloat.S754_finite s m e =>
      let magnitude := Z.shiftl (Zpos m) e in
      if s then (if magnitude =? 0 then Ok 0 else Undefined)
      else if magnitude <? 2 ^ 64 then Ok magnitude else Undefined
  | _ => Undefined
  end.

(** The literal [0.5f]. *)
Definition float_half : float := SpecFloat.S754_finite false 8388608 (-24).

(** The heap fields of [BifrostVMParams]; its callbacks are the [has_*]
    flags of the VM and the [Runtime] below. *)
Record BifrostVMParams : Type := {
  min_heap_size : Z;
  heap_size : Z;
  heap_growth_factor : float
}.

Definition bfVMParams_initDefault : BifrostVMParams :=
  {| min_heap_size := 1000000; heap_size := 5242880; heap_growth_factor := float_half |}.

Record BifrostVM : Type := {
  frames : list BifrostVMStackFrame;      (* the call stack, innermost last *)
  frames_capacity : Z;                    (* the capacity of the [frames] array *)
  stack : list bfVMValue;
  stack_top : Z;                          (* stack_top - stack *)
  symbols : list bytes;
  heap : gmap Z BifrostObj;               (* the objects, by address *)
  modules : BifrostHashMap BifrostObjStr Z;
  last_error : ErrorMessage;
  build_in_symbol_call : Z;               (* build_in_symbols[BIFROST_VM_SYMBOL_CALL] *)
  current_native_fn : Z;
  has_error_fn : bool;                    (* params.error_fn != NULL *)
  has_module_fn : bool;                   (* params.module_fn != NULL *)
  params : BifrostVMParams;
  bytes_allocated : Z;
  gc_is_running : bool;
  host_log : list HostEvent               (* the calls made to the host, oldest first *)
}.

Definition set_frames (vm : BifrostVM) (fs : list BifrostVMStackFrame) : BifrostVM :=
  {| frames := fs; stack := stack vm; stack_top := stack_top vm; symbols := symbols vm;
     heap := heap vm; modules := modules vm; last_error := last_error vm;
     build_in_symbol_call := build_in_symbol_call vm;
     current_native_fn := current_native_fn vm; has_error_fn := has_error_fn vm;
     has_module_fn := has_module_fn vm; params := params vm;
     frames_capacity := frames_capacity vm;
     bytes_allocated := bytes_allocated vm; gc_is_running := gc_is_running vm;
     host_log := host_log vm |}.

Definition set_stack (vm : BifrostVM) (s : list bfVMValue) : BifrostVM :=
  {| frames := frames vm; stack := s; stack_top := stack_top vm; symbols := symbols vm;
     heap := heap vm; modules := modules vm; last_error := last_error vm;
     build_in_symbol_call := build_in_symbol_call vm;
     current_native_fn := current_native_fn vm; has_error_fn := has_error_fn vm;
     has_module_fn := has_module_fn vm; params := params vm;
     frames_capacity := frames_capacity vm;
     bytes_allocated := bytes_allocated vm; gc_is_running := gc_is_running vm;
     host_log := host_log vm |}.

Definition set_stack_top (vm : BifrostVM) (top : Z) : BifrostVM :=
  {| frames := frames vm; stack := stack vm; stack_top := top; symbols := symbols vm;
     heap := heap vm; modules := modules vm; last_error := last_error vm;
     build_in_symbol_call := build_in_symbol_call vm;
     current_native_fn := current_native_fn vm; has_error_fn := has_error_fn vm;
     has_module_fn := has_module_fn vm; params := params vm;
     frames_capacity := frames_capacity vm;
     bytes_allocated := bytes_allocated vm; gc_is_running := gc_is_running vm;
     host_log := host_log vm |}.

Definition set_symbols (vm : BifrostVM) (syms : list bytes) : BifrostVM :=
  {| frames := frames vm; stack := stack vm; stack_top := stack_top vm; symbols := syms;
     heap := heap vm; modules := modules vm; last_error := last_error vm;
     build_in_symbol_call := build_in_symbol_call vm;
     current_native_fn := current_native_fn vm; has_error_fn := has_error_fn vm;
     has_module_fn := has_module_fn vm; params := params vm;
     frames_capacity := frames_capacity vm;
     bytes_allocated := bytes_allocated vm; gc_is_running := gc_is_running vm;
     host_log := host_log vm |}.

Definition set_heap (vm : BifrostVM) (h : gmap Z BifrostObj) : BifrostVM :=
  {| frames := frames vm; stack := stack vm; stack_top := stack_top vm; symbols := symbols vm;
     heap := h; modules := modules vm; last_error := last_error vm;
     build_in_symbol_call := build_in_symbol_call vm;
     current_native_fn := current_native_fn vm; has_error_fn := has_error_fn vm;
     has_module_fn := has_module_fn vm; params := params vm;
     frames_capacity := frames_capacity vm;
     bytes_allocated := bytes_allocated vm; gc_is_running := gc_is_running vm;
     host_log := host_log vm |}.

Definition set_modules (vm : BifrostVM) (m : BifrostHashMap BifrostObjStr Z) : BifrostVM :=
  {| frames := frames vm; stack := stack vm; stack_top := stack_top vm; symbols := symbols vm;
     heap := heap vm; modules := m; last_error := last_error vm;
     build_in_symbol_call := build_in_symbol_call vm;
     current_native_fn := current_native_fn vm; has_error_fn := has_error_fn vm;
     has_module_fn := has_module_fn vm; params := params vm;
     frames_capacity := frames_capacity vm;
     bytes_allocated := bytes_allocated vm; gc_is_running := gc_is_running vm;
     host_log := host_log vm |}.

Definition set_last_error (vm : BifrostVM) (msg : ErrorMessage) : BifrostVM :=
  {| frames := frames vm; stack := stack vm; stack_top := stack_top vm; symbols := symbols vm;
     heap := heap vm; modules := modules vm; last_error := msg;
     build_in_symbol_call := build_in_symbol_call vm;
     current_native_fn := current_native_fn vm; has_error_fn := has_error_fn vm;
     has_module_fn := has_module_fn vm; params := params vm;
     frames_capacity := frames_capacity vm;
     bytes_allocated := bytes_allocated vm; gc_is_running := gc_is_running vm;
     host_log := host_log vm |}.

Definition set_current_native_fn (vm : BifrostVM) (fn : Z) : BifrostVM :=
  {| frames := frames vm; stack := stack vm; stack_top := stack_top vm; symbols := symbols vm;
     heap := heap vm; modules := modules vm; last_error := last_error vm;
     build_in_symbol_call := build_in_symbol_call vm;
     current_native_fn := fn; has_error_fn := has_error_fn vm;
     has_module_fn := has_module_fn vm; params := params vm;
     frames_capacity := frames_capacity vm;
     bytes_allocated := bytes_allocated vm; gc_is_running := gc_is_running vm;
     host_log := host_log vm |}.

Definition log_event (vm : BifrostVM) (ev : HostEvent) : BifrostVM :=
  {| frames := frames vm; stack := stack vm; stack_top := stack_top vm; symbols := symbols vm;
     heap := heap vm; modules := modules vm; last_error := last_error vm;
     build_in_symbol_call := build_in_symbol_call vm;
     current_native_fn := current_native_fn vm; has_error_fn := has_error_fn vm;
     has_module_fn := has_module_fn vm; params := params vm;
     frames_capacity := frames_capacity vm;
     bytes_allocated := bytes_allocated vm; gc_is_running := gc_is_running vm;
     host_log := host_log vm ++ [ev] |}.

Definition set_bytes_allocated (vm : BifrostVM) (n : Z) : BifrostVM :=
  {| frames := frames vm; stack := stack vm; stack_top := stack_top vm; symbols := symbols vm;
     heap := heap vm; modules := modules vm; last_error := last_error vm;
     build_in_symbol_call := build_in_symbol_call vm;
     current_native_fn := current_native_fn vm; has_error_fn := has_error_fn vm;
     has_module_fn := has_module_fn vm; params := params vm;
     frames_capacity := frames_capacity vm;
     bytes_allocated := n; gc_is_running := gc_is_running vm;
     host_log := host_log vm |}.

Definition set_gc_is_running (vm : BifrostVM) (b : bool) : BifrostVM :=
  {| frames := frames vm; stack := stack vm; stack_top := stack_top vm; symbols := symbols vm;
     heap := heap vm; modules := modules vm; last_error := last_error vm;
     build_in_symbol_call := build_in_symbol_call vm;
     current_native_fn := current_native_fn vm; has_error_fn := has_error_fn vm;
     has_module_fn := has_module_fn vm; params := params vm;
     frames_capacity := frames_capacity vm;
     bytes_allocated := bytes_allocated vm; gc_is_running := b;
     host_log := host_log vm |}.

(** [self->params.heap_size = n]. *)
Definition set_heap_size (vm : BifrostVM) (n : Z) : BifrostVM :=
  {| frames := frames vm; stack := stack vm; stack_top := stack_top vm; symbols := symbols vm;
     heap := heap vm; modules := modules vm; last_error := last_error vm;
     build_in_symbol_call := build_in_symbol_call vm;
     current_native_fn := current_native_fn vm; has_error_fn := has_error_fn vm;
     has_module_fn := has_module_fn vm;
     params := {| min_heap_size := min_heap_size (params vm); heap_size := n;
                  heap_growth_factor := heap_growth_factor (params vm) |};
     frames_capacity := frames_capacity vm;
     bytes_allocated := bytes_allocated vm; gc_is_running := gc_is_running vm;
     host_log := host_log vm |}.

Definition set_frames_capacity (vm : BifrostVM) (capacity : Z) : BifrostVM :=
  {| frames := frames vm; stack := stack vm; stack_top := stack_top vm; symbols := symbols vm;
     heap := heap vm; modules := modules vm; last_error := last_error vm;
     build_in_symbol_call := build_in_symbol_call vm;
     current_native_fn := current_native_fn vm; has_error_fn := has_error_fn vm;
     has_module_fn := has_module_fn vm; params := params vm;
     frames_capacity := capacity;
     bytes_allocated := bytes_allocated vm; gc_is_running := gc_is_running vm;
     host_log := host_log vm |}.

(* ===================================================================== *)
(** ** Strings objects, symbols and modules (bifrost_vm_obj.c, bifrost_vm.c) *)
(* ===================================================================== *)

(** [bfVMString_newLen]: the [string_length] bytes of the range, then a NUL
    that the list leaves implicit. *)
Definition bfVMString_newLen (initial_data : string_range) : bytes := initial_data.

Definition EscapeConvert (c : Z) : Z :=
  if c =? chr "a" then 7
  else if c =? chr "b" then 8
  else if c =? chr "f" then 12
  else if c =? chr "n" then 10
  else if c =? chr "r" then 13
  else if c =? chr "t" then 9
  else if c =? chr "v" then 11
  else if c =? 92 then 92       (* backslash *)
  else if c =? 39 then 39       (* single quote *)
  else if c =? 34 then 34       (* double quote *)
  else if c =? chr "?" then 63
  else c.

Fixpoint CString_unescape (str : bytes) : bytes :=
  match str with
  | [] => []
  | c :: rest =>
      if c =? 0 then []
      else if c =? 92
      then match rest with
           | [] => []
           | c' :: rest' => if c' =? 0 then [] else EscapeConvert c' :: CString_unescape rest'
           end
      else c :: CString_unescape rest
  end.

(** The string object that [bfObj_NewString] fills in. *)
Definition bfObj_NewString_value (value : string_range) : BifrostObjStr :=
  let unescaped := CString_unescape (bfVMString_newLen value) in
  {| str_value := unescaped; str_hash := bfVMString_hashN unescaped |}.

Definition bfVM_getSymbolHelper (name_range : string_range) (sym : bytes) : bool :=
  let lhs_len := string_range_length name_range in
  let rhs_len := bfVMString_length sym in
  (lhs_len =? rhs_len) && (bfVMString_ccmpn sym name_range lhs_len =? 0).

(** [bfVM_getSymbol] on the symbol table alone. *)
Definition getSymbol (table : list bytes) (name_range : string_range) : list bytes * Z :=
  let idx := bfVMArray_find table name_range bfVM_getSymbolHelper in
  if idx =? BIFROST_ARRAY_INVALID_INDEX
  then (bfVMArray_push table (bfVMString_newLen name_range), wrap32 (bfVMArray_size table))
  else (table, wrap32 idx).

Definition bfVM_getSymbol (self : BifrostVM) (name_range : string_range) : BifrostVM * Z :=
  let '(table, idx) := getSymbol (symbols self) name_range in
  (set_symbols self table, idx).

(** The test made on every key of the module map by [bfVM_findModule]. *)
Definition findModule_matches (module_name : string_range) (key : BifrostObjStr) : bool :=
  let hash := bfVMString_hashN module_name in
  let name_len := string_range_length module_name in
  let key_len := bfVMString_length (str_value key) in
  (str_hash key =? hash) && (key_len =? name_len)
  && (bfVMString_ccmpn (str_value key) module_name name_len =? 0).

(** [bfVM_findModule]: the module pointer, 0 for NULL. *)
Definition bfVM_findModule (self : BifrostVM) (module_name : string_range) : Z :=
  match List.find (fun node => findModule_matches module_name (fst node))
                  (bfHashMap_nodes (modules self)) with
  | Some node => snd node
  | None => 0
  end.

(* ===================================================================== *)
(** ** The host and the parts of the runtime taken as given *)
(* ===================================================================== *)

(** The host's callbacks change the VM through its API as they please; the
    allocator picks addresses and may run a collection; the compiler and
    the value formatter are the whole of the parser and of bifrost_vm_debug.c
    (which prints numbers with "%g").
    The interpreter is stated over any of them. *)
Record Runtime : Type := {
  (* fn->value(self, num_args) *)
  native_call : Z -> BifrostVM -> Z -> Res BifrostVM;
  (* params.module_fn(self, from, name, &look_up): the source found, if any *)
  module_fn : BifrostVM -> bytes -> bytes -> Res (BifrostVM * option bytes);
  (* AllocateVMObjectImpl and the initialisation that follows *)
  allocate : BifrostVM -> BifrostObj -> Res (BifrostVM * Z);
  (* bfVM_compileIntoModule: true when the parser reported an error *)
  compileIntoModule : BifrostVM -> Z -> bytes -> Res (BifrostVM * bool);
  (* the text left in string_buffer by the two bfDbg_ValueToString calls of
     MATH_ADD, for the left and the right operand *)
  concatToString : BifrostVM -> bfVMValue -> bfVMValue -> bytes
}.

(* ===================================================================== *)
(** ** Stack and call frames (bifrost_vm.c) *)
(* ===================================================================== *)

(** [self->stack[i]], undefined outside the array. *)
Definition stack_read (vm : BifrostVM) (i : Z) : Res bfVMValue :=
  if (0 <=? i) && (i <? bfVMArray_size (stack vm))
  then defined (stack vm !! Z.to_nat i)
  else Undefined.

Definition stack_write (vm : BifrostVM) (i : Z) (v : bfVMValue) : Res BifrostVM :=
  if (0 <=? i) && (i <? bfVMArray_size (stack vm))
  then Ok (set_stack vm (<[Z.to_nat i := v]> (stack vm)))
  else Undefined.

(** [BIFROST_AS_OBJ(value)] followed by a read of the object. *)
Definition deref (vm : BifrostVM) (p : Z) : Res BifrostObj :=
  defined (heap vm !! p).

(** The byte offset of [init_fn] in [BifrostObjModule]: a module's top
    level function is part of the module object. *)
Definition module_init_fn_offset : Z := 32.

(** The function a frame runs: a function object, or the [init_fn] of a
    module. *)
Definition deref_fn (vm : BifrostVM) (p : Z) : Res BifrostObjFn :=
  match heap vm !! p with
  | Some (ObjFn fn) => Ok fn
  | Some _ => Undefined
  | None =>
      match heap vm !! (p - module_init_fn_offset) with
      | Some (ObjModule m) => Ok (module_init_fn m)
      | _ => Undefined
      end
  end.

Definition bfVM_assertStackIndex (self : BifrostVM) (idx : Z) : Res unit :=
  LibC_assert (idx <? bfVMArray_size (stack self)).

(** Returns the VM and whether the stack was resized. *)
Definition bfVM_ensureStackspace (self : BifrostVM) (stack_space top : Z) : BifrostVM * bool :=
  let stack_size := bfVMArray_size (stack self) in
  let stack_used := top in
  let requested_size := wrap64 (stack_used + stack_space) in
  if stack_size <? requested_size
  then (set_stack self (bfVMArray_resize 0 (stack self) requested_size), true)
  else (self, false).

(** A pointer into the [frames] array.  [Array_reserve] moves the array
    exactly when it makes its capacity grow, and the capacity never
    shrinks: a pointer taken when the capacity was [ptr_capacity] points
    into the array for as long as that is still the capacity, and dangles
    afterwards. *)
Record FramePtr : Type := {
  ptr_capacity : Z;
  ptr_index : Z
}.

(** [bfVMArray_back(&self->frames)], as a pointer. *)
Definition frames_back (self : BifrostVM) : FramePtr :=
  {| ptr_capacity := frames_capacity self;
     ptr_index := bfVMArray_size (frames self) - 1 |}.

(** [ptr - self->frames]: undefined for a pointer that dangles. *)
Definition frame_index (self : BifrostVM) (ptr : FramePtr) : Res Z :=
  if ptr_capacity ptr =? frames_capacity self then Ok (ptr_index ptr) else Undefined.

(** [fn] is 0 for a native frame; [needed] is [fn->needed_stack_space],
    read when [fn] is not NULL.  [bfVMArray_emplace] reserves room for one
    more frame. *)
Definition bfVM_pushCallFrame (self : BifrostVM) (fn new_start : Z) : Res BifrostVM :=
  (let old_top := stack_top self in
   self1 <<- (if negb (fn =? 0)
              then
                fnobj <<- deref_fn self fn ;;
                let stack_space := wrap64 (new_start + fn_needed_stack_space fnobj) in
                let '(s, resized) := bfVM_ensureStackspace self stack_space (stack_top self) in
                Ok (if resized then set_stack_top s stack_space else s)
              else Ok (set_stack_top self new_start)) ;;
   let new_frame := {| frame_fn := fn;
                       frame_ip := 0;
                       frame_old_stack := old_top;
                       frame_stack := new_start |} in
   let capacity :=
     Array_reserve (frames_capacity self1) (wrap64 (bfVMArray_size (frames self1) + 1)) in
   Ok (set_frames_capacity (set_frames self1 (bfVMArray_push (frames self1) new_frame))
                           capacity))%res.

Definition bfVM_popCallFrame (self : BifrostVM) (frame : BifrostVMStackFrame) : Res BifrostVM :=
  (fs <<- bfVMArray_pop (frames self) ;;
   Ok (set_frames (set_stack_top self (frame_old_stack frame)) fs))%res.

(** The line that the stack trace prints for a frame: -1 for a native
    frame. *)
Definition frame_line_num (self : BifrostVM) (frame : BifrostVMStackFrame) : Z :=
  if frame_fn frame =? 0 then -1
  else match deref_fn self (frame_fn frame) with
       | Ok fn => default 0 (fn_code_to_line fn !! Z.to_nat (frame_ip frame))
       | _ => 0
       end.

(** The frames from [num_frames] up with their indices. *)
Definition frames_from (self : BifrostVM) (num_frames : Z) : list (Z * BifrostVMStackFrame) :=
  drop (Z.to_nat num_frames) (indexed (frames self)).

(** [ref_frame] is a pointer to the reference frame: [ref_frame -
    self->frames] and [ref_frame->old_stack] are undefined once it dangles.
    With an error callback, every frame from it up is formatted into
    [last_error] and reported between the BEGIN and END markers. *)
Definition bfVM_popAllCallFrames (self : BifrostVM) (ref_frame : FramePtr)
    : Res BifrostVM :=
  (num_frames <<- frame_index self ref_frame ;;
   frame <<- (if 0 <=? num_frames then defined (frames self !! Z.to_nat num_frames)
              else Undefined) ;;
   let report (vm : BifrostVM) (entry : Z * BifrostVMStackFrame) : BifrostVM :=
     let line_num := frame_line_num self (snd entry) in
     log_event (set_last_error vm (MsgStackFrame (fst entry) line_num))
               (EvErrorFn BIFROST_VM_ERROR_STACK_TRACE line_num) in
   let self1 :=
     if has_error_fn self
     then
       let vm1 := log_event self (EvErrorFn BIFROST_VM_ERROR_STACK_TRACE_BEGIN (-1)) in
       let vm2 := log_event vm1 (EvErrorFn BIFROST_VM_ERROR_STACK_TRACE (-1)) in
       let vm3 := fold_left report (frames_from self num_frames) vm2 in
       log_event vm3 (EvErrorFn BIFROST_VM_ERROR_STACK_TRACE_END (-1))
     else self in
   Ok (set_frames_capacity
         (set_frames (set_stack_top self1 (frame_old_stack frame))
                     (bfVMArray_resize frame (frames self1) num_frames))
         (Array_reserve (frames_capacity self1) num_frames)))%res.

(* ===================================================================== *)
(** ** Variables of modules, classes and instances (bifrost_vm.c) *)
(* ===================================================================== *)

Section Interpreter.
Context (fp : DoubleOps) (rt : Runtime).

(** [bfVMValue_ee] reads the objects behind two pointers. *)
Definition bfVMValue_ee (vm : BifrostVM) (lhs rhs : bfVMValue) : Res bool :=
  (if bfVMValue_isNumber lhs && bfVMValue_isNumber rhs
   then Ok (double_eq fp (bfVMValue_asNumber lhs) (bfVMValue_asNumber rhs))
   else if bfVMValue_isPointer lhs && bfVMValue_isPointer rhs
   then
     lhs_obj <<- deref vm (bfVMValue_asPointer lhs) ;;
     rhs_obj <<- deref vm (bfVMValue_asPointer rhs) ;;
     match lhs_obj, rhs_obj with
     | ObjStr lhs_string, ObjStr rhs_string =>
         Ok ((str_hash lhs_string =? str_hash rhs_string)
             && (bfVMString_cmp (str_value lhs_string) (str_value rhs_string) =? 0))
     | _, _ => Ok (lhs =? rhs)
     end
   else Ok (lhs =? rhs))%res.

Fixpoint stackFindVariable_scan (variables : list BifrostVMSymbol) (variable : bytes)
    : bfVMValue :=
  match variables with
  | [] => bfVMValue_fromNull
  | v :: rest =>
      match sym_name v with
      | None => stackFindVariable_scan rest variable
      | Some var_name =>
          if (bfVMString_length var_name =? string_range_length variable)
             && (LibC_strncmp variable var_name (length variable) =? 0)
          then sym_value v
          else stackFindVariable_scan rest variable
      end
  end.

Definition bfVM_stackFindVariable (module_obj : BifrostObjModule) (variable : bytes)
    : bfVMValue :=
  stackFindVariable_scan (module_variables module_obj) variable.

Definition null_symbol : BifrostVMSymbol :=
  {| sym_name := None; sym_value := bfVMValue_fromNull |}.

(** [bfVM_xSetVariable]: the variables, the VM (its symbol table may have
    grown) and the 16 low bits of the symbol. *)
Definition bfVM_xSetVariable (variables : list BifrostVMSymbol) (vm : BifrostVM)
    (var_name : string_range) (value : bfVMValue)
    : Res (list BifrostVMSymbol * BifrostVM * Z) :=
  (let '(vm1, idx) := bfVM_getSymbol vm var_name in
   let old_size := bfVMArray_size variables in
   let variables1 :=
     if idx >=? old_size
     then take (Z.to_nat old_size) variables
          ++ replicate (Z.to_nat (idx + 1 - old_size)) null_symbol
     else variables in
   sym_str <<- defined (symbols vm1 !! Z.to_nat idx) ;;
   Ok (<[Z.to_nat idx := {| sym_name := Some sym_str; sym_value := value |}]> variables1,
       vm1, Z.land idx 0xFFFF))%res.

(** [bfVM__stackStoreVariable]: 0, or 1 for a non-object, or 2 for an
    object that has no variables. *)
Definition bfVM__stackStoreVariable (self : BifrostVM) (obj : bfVMValue)
    (field_symbol : string_range) (value : bfVMValue) : Res (BifrostVM * Z) :=
  (if negb (bfVMValue_isPointer obj) then Ok (self, 1)
   else
     let obj_ptr := bfVMValue_asPointer obj in
     let '(self1, symbol) := bfVM_getSymbol self field_symbol in
     sym_str <<- defined (symbols self1 !! Z.to_nat symbol) ;;
     target <<- deref self1 obj_ptr ;;
     match target with
     | ObjInstance inst =>
         let fields := bfHashMap_set bfHashMap_defaultHash bfHashMap_defaultCmp
                         (inst_fields inst) sym_str value in
         Ok (set_heap self1
               (<[obj_ptr := ObjInstance {| inst_clz := inst_clz inst; inst_fields := fields |}]>
                  (heap self1)), 0)
     | ObjClass clz =>
         r <<- bfVM_xSetVariable (clz_symbols clz) self1 field_symbol value ;;
         let '(syms, self2, _) := r in
         Ok (set_heap self2
               (<[obj_ptr := ObjClass {| clz_name := clz_name clz;
                                         clz_base_clz := clz_base_clz clz;
                                         clz_module := clz_module clz;
                                         clz_symbols := syms;
                                         clz_field_initializers := clz_field_initializers clz;
                                         clz_extra_data := clz_extra_data clz |}]>
                  (heap self2)), 0)
     | ObjModule module_obj =>
         r <<- bfVM_xSetVariable (module_variables module_obj) self1 field_symbol value ;;
         let '(vars, self2, _) := r in
         Ok (set_heap self2
               (<[obj_ptr := ObjModule {| module_name := module_name module_obj;
                                          module_variables := vars;
                                          module_init_fn := module_init_fn module_obj |}]>
                  (heap self2)), 0)
     | _ => Ok (self1, 2)
     end)%res.

(** The loop [while (clz)] of LOAD_SYMBOL up the chain of base classes:
    the first value of [symbol] that is not nil.  A chain longer than the
    heap has come back to a class already seen and never ends. *)
Fixpoint class_chain_lookup (fuel : nat) (vm : BifrostVM) (clz_ptr symbol : Z)
    : Res (option bfVMValue) :=
  match fuel with
  | O => OutOfFuel
  | S fuel' =>
      if clz_ptr =? 0 then Ok None
      else
        (obj <<- deref vm clz_ptr ;;
         match obj with
         | ObjClass clz =>
             let here :=
               if symbol <? bfVMArray_size (clz_symbols clz)
               then sym_value <$> (clz_symbols clz !! Z.to_nat symbol)
               else None in
             match here with
             | Some v =>
                 if negb (v =? bfVMValue_fromNull) then Ok (Some v)
                 else class_chain_lookup fuel' vm (clz_base_clz clz) symbol
             | None => class_chain_lookup fuel' vm (clz_base_clz clz) symbol
             end
         | _ => Undefined
         end)%res
  end.

(** [bfObj_NewInstance]: the object it builds before it is linked in. *)
Definition bfObj_NewInstance_value (clz_ptr : Z) (clz : BifrostObjClass)
    : Res BifrostObjInstance :=
  (fields <<-
     fold_left
       (fun acc sym =>
          m <<- acc ;;
          key <<- defined (sym_name sym) ;;
          Ok (bfHashMap_set bfHashMap_defaultHash bfHashMap_defaultCmp m key (sym_value sym)))
       (clz_field_initializers clz)
       (Ok (bfHashMap_ctor : BifrostHashMap bytes bfVMValue)) ;;
   Ok {| inst_clz := clz_ptr; inst_fields := fields |})%res.

(* ===================================================================== *)
(** ** The interpreter: [bfVM_execTopFrame] (bifrost_vm.c) *)
(* ===================================================================== *)

(** How the body of one arm of the switch leaves it. *)
Inductive Flow : Type :=
| FlowBreak (vm : BifrostVM)          (* break: the loop does ++frame->ip *)
| FlowContinue (vm : BifrostVM)       (* continue: the ip is already set *)
| FlowFrameStart (vm : BifrostVM)     (* goto frame_start *)
| FlowHalt (vm : BifrostVM)           (* goto halt *)
| FlowRuntimeError (vm : BifrostVM).  (* BF_RUNTIME_ERROR: goto runtime_error *)

(** [BF_RUNTIME_ERROR(...)]. *)
Definition BF_RUNTIME_ERROR (vm : BifrostVM) (msg : ErrorMessage) : Res Flow :=
  Ok (FlowRuntimeError (set_last_error vm msg)).

(** [frame->ip = ip] for the frame on top of the call stack. *)
Definition set_top_ip (vm : BifrostVM) (ip : Z) : Res BifrostVM :=
  (frame <<- bfVMArray_back (frames vm) ;;
   Ok (set_frames vm
         (removelast (frames vm)
          ++ [{| frame_fn := frame_fn frame; frame_ip := ip;
                 frame_old_stack := frame_old_stack frame;
                 frame_stack := frame_stack frame |}])))%res.

(** The arm of LOAD_SYMBOL. *)
Definition exec_LOAD_SYMBOL (self : BifrostVM) (base ra rb rc : Z) : Res Flow :=
  (obj_value <<- stack_read self (base + rb) ;;
   let symbol := rc in
   symbol_str <<- defined (symbols self !! Z.to_nat symbol) ;;
   if negb (bfVMValue_isPointer obj_value)
   then BF_RUNTIME_ERROR self (MsgLoadSymbolNonObject symbol)
   else
     let obj_ptr := bfVMValue_asPointer obj_value in
     obj <<- deref self obj_ptr ;;
     (* the instance's own fields, then the move to its class *)
     r <<- match obj with
           | ObjInstance inst =>
               match bfHashMap_get bfHashMap_defaultHash bfHashMap_defaultCmp
                       (inst_fields inst) symbol_str with
               | Some value =>
                   self1 <<- stack_write self (base + ra) value ;; Ok (self1, obj_ptr)
               | None => Ok (self, if inst_clz inst =? 0 then obj_ptr else inst_clz inst)
               end
           | ObjReference clz | ObjWeakRef clz =>
               Ok (self, if clz =? 0 then obj_ptr else clz)
           | _ => Ok (self, obj_ptr)
           end ;;
     let '(self1, obj_ptr1) := r in
     obj1 <<- deref self1 obj_ptr1 ;;
     match obj1 with
     | ObjClass _ =>
         found <<- class_chain_lookup (S (size (heap self1))) self1 obj_ptr1 symbol ;;
         match found with
         | Some value =>
             self2 <<- stack_write self1 (base + ra) value ;; Ok (FlowBreak self2)
         | None => BF_RUNTIME_ERROR self1 (MsgSymbolNotDefined symbol)
         end
     | ObjModule module =>
         self2 <<- stack_write self1 (base + ra) (bfVM_stackFindVariable module symbol_str) ;;
         Ok (FlowBreak self2)
     | _ => BF_RUNTIME_ERROR self1 (MsgLoadSymbolNonInstance symbol)
     end)%res.

(** The arm of CALL_FN once the callee [obj_ptr] and the number of
    arguments are settled. *)
Definition exec_CALL_FN_invoke (self : BifrostVM) (frame : BifrostVMStackFrame)
    (obj_ptr new_stack num_args : Z) : Res Flow :=
  (obj <<- deref self obj_ptr ;;
   match obj with
   | ObjFn fn =>
       if (fn_arity fn >=? 0) && negb (num_args =? fn_arity fn)
       then BF_RUNTIME_ERROR self (MsgFunctionArity num_args (fn_arity fn))
       else
         self1 <<- set_top_ip self (frame_ip frame + 1) ;;
         self2 <<- bfVM_pushCallFrame self1 obj_ptr new_stack ;;
         Ok (FlowFrameStart self2)
   | ObjNativeFn fn =>
       if (native_arity fn >=? 0) && negb (num_args =? native_arity fn)
       then BF_RUNTIME_ERROR self (MsgNativeArity num_args (native_arity fn))
       else
         let old_top := stack_top self in
         self1 <<- bfVM_pushCallFrame self 0 new_stack ;;
         native_frame <<- bfVMArray_back (frames self1) ;;
         let self2 := set_current_native_fn self1 obj_ptr in
         self3 <<- native_call rt (native_value fn)
                     (log_event self2 (EvNativeFn (native_value fn) num_args)) num_args ;;
         let self4 := set_current_native_fn self3 0 in
         self5 <<- bfVM_popCallFrame self4 native_frame ;;
         Ok (FlowBreak self5)
   | _ => BF_RUNTIME_ERROR self MsgNotCallable
   end)%res.

(** The arm of CALL_FN. *)
Definition exec_CALL_FN (self : BifrostVM) (frame : BifrostVMStackFrame) (ra rb rc : Z)
    : Res Flow :=
  (let base := frame_stack frame in
   value <<- stack_read self (base + rb) ;;
   let new_stack := base + ra in
   let num_args := rc in
   if bfVMValue_isPointer value
   then
     let obj_ptr := bfVMValue_asPointer value in
     let instance := obj_ptr in
     obj <<- deref self obj_ptr ;;
     let obj_ptr1 :=
       match obj with
       | ObjInstance _ | ObjReference _ | ObjWeakRef _ =>
           if obj_clz obj =? 0 then obj_ptr else obj_clz obj
       | _ => obj_ptr
       end in
     obj1 <<- deref self obj_ptr1 ;;
     match obj1 with
     | ObjClass clz =>
         let call_sym := build_in_symbol_call self in
         if call_sym <? bfVMArray_size (clz_symbols clz)
         then
           call_symbol <<- defined (clz_symbols clz !! Z.to_nat call_sym) ;;
           let call_value := sym_value call_symbol in
           if bfVMValue_isPointer call_value
           then
             let call_ptr := bfVMValue_asPointer call_value in
             call_obj <<- deref self call_ptr ;;
             match call_obj with
             | ObjFn _ | ObjNativeFn _ =>
                 let '(self1, _) := bfVM_ensureStackspace self (num_args + 1) new_stack in
                 let s := stack self1 in
                 let new_top := Z.to_nat new_stack in
                 let n := Z.to_nat num_args in
                 if (0 <=? new_stack) && (new_stack + num_args + 1 <=? bfVMArray_size s)
                 then
                   let moved :=
                     take new_top s
                     ++ [bfVMValue_fromPointer instance]
                     ++ take n (drop new_top s)
                     ++ drop (new_top + n + 1) s in
                   exec_CALL_FN_invoke (set_stack self1 moved) frame call_ptr new_stack
                                       (wrap32 (num_args + 1))
                 else Undefined
             | _ => BF_RUNTIME_ERROR self MsgCallMustBeFunction
             end
           else BF_RUNTIME_ERROR self MsgCallMustBeFunction
         else BF_RUNTIME_ERROR self MsgNoCallFunction
     | _ => exec_CALL_FN_invoke self frame obj_ptr1 new_stack num_args
     end
   else BF_RUNTIME_ERROR self MsgNotPointer)%res.

(** The arm of MATH_ADD. *)
Definition exec_MATH_ADD (self : BifrostVM) (base ra rb rc : Z) : Res Flow :=
  (lhs <<- stack_read self (base + rb) ;;
   rhs <<- stack_read self (base + rc) ;;
   let is_string (v : bfVMValue) : Res bool :=
     if bfVMValue_isPointer v
     then obj <<- deref self (bfVMValue_asPointer v) ;;
          Ok (bool_decide (obj_type obj = BIFROST_VM_OBJ_STRING))
     else Ok false in
   if bfVMValue_isNumber lhs && bfVMValue_isNumber rhs
   then
     self1 <<- stack_write self (base + ra)
                 (bfVMValue_fromNumber
                    (double_add fp (bfVMValue_asNumber lhs) (bfVMValue_asNumber rhs))) ;;
     Ok (FlowBreak self1)
   else
     lhs_is_string <<- is_string lhs ;;
     rhs_is_string <<- (if lhs_is_string then Ok true else is_string rhs) ;;
     if rhs_is_string
     then
       let text := c_string (concatToString rt self lhs rhs) in
       r <<- allocate rt self (ObjStr (bfObj_NewString_value text)) ;;
       let '(self1, str_obj) := r in
       self2 <<- stack_write self1 (base + ra) (bfVMValue_fromPointer str_obj) ;;
       Ok (FlowBreak self2)
     else BF_RUNTIME_ERROR self MsgAddIncompatible)%res.

(** The arm of NEW_CLZ. *)
Definition exec_NEW_CLZ (self : BifrostVM) (base ra rbx : Z) : Res Flow :=
  (value <<- stack_read self (base + rbx) ;;
   if bfVMValue_isPointer value
   then
     let clz_ptr := bfVMValue_asPointer value in
     obj <<- deref self clz_ptr ;;
     match obj with
     | ObjClass clz =>
         inst <<- bfObj_NewInstance_value clz_ptr clz ;;
         r <<- allocate rt self (ObjInstance inst) ;;
         let '(self1, inst_ptr) := r in
         self2 <<- stack_write self1 (base + ra) (bfVMValue_fromPointer inst_ptr) ;;
         Ok (FlowBreak self2)
     | _ => BF_RUNTIME_ERROR self MsgNewOnNonClass
     end
   else BF_RUNTIME_ERROR self MsgNewOnNonClass)%res.

(** [locals[ra] = f(locals[rb], locals[rc])]. *)
Definition exec_binary (self : BifrostVM) (base ra rb rc : Z)
    (f : bfVMValue -> bfVMValue -> Res bfVMValue) : Res Flow :=
  (lhs <<- stack_read self (base + rb) ;;
   rhs <<- stack_read self (base + rc) ;;
   v <<- f lhs rhs ;;
   self1 <<- stack_write self (base + ra) v ;;
   Ok (FlowBreak self1))%res.

(** The switch of [bfVM_execTopFrame] on the instruction [inst] at the ip
    of [frame], the frame on top of the call stack, which runs [fn]. *)
Definition exec_switch (self : BifrostVM) (frame : BifrostVMStackFrame) (fn : BifrostObjFn)
    (inst : bfInstruction) : Res Flow :=
  (let op := bfInst_decodeOp inst in
   let ra := bfInst_decodeRa inst in
   let rb := bfInst_decodeRb inst in
   let rc := bfInst_decodeRc inst in
   let rbx := bfInst_decodeRBx inst in
   let rsbx := bfInst_decodeRsBx inst in
   let base := frame_stack frame in
   let current_module := fn_module fn in
   match op_of_code (Z.land op BIFROST_INST_OP_MASK) with
   | Some BIFROST_VM_OP_RETURN =>
       v <<- stack_read self (base + rbx) ;;
       self1 <<- stack_write self (base + 0) v ;;
       Ok (FlowHalt self1)
   | Some BIFROST_VM_OP_LOAD_SYMBOL => exec_LOAD_SYMBOL self base ra rb rc
   | Some BIFROST_VM_OP_STORE_SYMBOL =>
       sym_str <<- defined (symbols self !! Z.to_nat rb) ;;
       target <<- stack_read self (base + ra) ;;
       value <<- stack_read self (base + rc) ;;
       r <<- bfVM__stackStoreVariable self target sym_str value ;;
       let '(self1, err_store) := r in
       if err_store =? 1 then BF_RUNTIME_ERROR self1 MsgStoreNonObject
       else if err_store =? 2 then BF_RUNTIME_ERROR self1 MsgStoreNonInstance
       else Ok (FlowBreak self1)
   | Some BIFROST_VM_OP_LOAD_BASIC =>
       let action := rbx in
       v <<- (if action <? BIFROST_VM_OP_LOAD_BASIC_CURRENT_MODULE
              then defined ([k_VMValueTrue; k_VMValueFalse; k_VMValueNull] !! Z.to_nat action)
              else if action =? BIFROST_VM_OP_LOAD_BASIC_CURRENT_MODULE
              then Ok (bfVMValue_fromPointer current_module)
              else defined (fn_constants fn
                              !! Z.to_nat (rbx - BIFROST_VM_OP_LOAD_BASIC_CONSTANT))) ;;
       self1 <<- stack_write self (base + ra) v ;;
       Ok (FlowBreak self1)
   | Some BIFROST_VM_OP_NEW_CLZ => exec_NEW_CLZ self base ra rbx
   | Some BIFROST_VM_OP_NOT =>
       v <<- stack_read self (base + rbx) ;;
       self1 <<- stack_write self (base + ra) (bfVMValue_fromBool (bfVMValue_isThuthy v)) ;;
       Ok (FlowBreak self1)
   | Some BIFROST_VM_OP_STORE_MOVE =>
       v <<- stack_read self (base + rbx) ;;
       self1 <<- stack_write self (base + ra) v ;;
       Ok (FlowBreak self1)
   | Some BIFROST_VM_OP_CALL_FN => exec_CALL_FN self frame ra rb rc
   | Some BIFROST_VM_OP_MATH_ADD => exec_MATH_ADD self base ra rb rc
   | Some BIFROST_VM_OP_MATH_SUB =>
       lhs <<- stack_read self (base + rb) ;;
       rhs <<- stack_read self (base + rc) ;;
       if negb (bfVMValue_isNumber lhs) || negb (bfVMValue_isNumber rhs)
       then BF_RUNTIME_ERROR self MsgSubNonNumber
       else
         self1 <<- stack_write self (base + ra) (bfVMValue_sub fp lhs rhs) ;;
         Ok (FlowBreak self1)
   | Some BIFROST_VM_OP_MATH_MUL =>
       exec_binary self base ra rb rc (fun lhs rhs => Ok (bfVMValue_mul fp lhs rhs))
   | Some BIFROST_VM_OP_MATH_DIV =>
       exec_binary self base ra rb rc (fun lhs rhs => Ok (bfVMValue_div fp lhs rhs))
   | Some BIFROST_VM_OP_CMP_EE =>
       exec_binary self base ra rb rc
         (fun lhs rhs => b <<- bfVMValue_ee self lhs rhs ;; Ok (bfVMValue_fromBool b))
   | Some BIFROST_VM_OP_CMP_NE =>
       exec_binary self base ra rb rc
         (fun lhs rhs => b <<- bfVMValue_ee self lhs rhs ;; Ok (bfVMValue_fromBool (negb b)))
   | Some BIFROST_VM_OP_CMP_LT =>
       exec_binary self base ra rb rc
         (fun lhs rhs => Ok (bfVMValue_fromBool (bfVMValue_lt fp lhs rhs)))
   | Some BIFROST_VM_OP_CMP_GT =>
       exec_binary self base ra rb rc
         (fun lhs rhs => Ok (bfVMValue_fromBool (bfVMValue_gt fp lhs rhs)))
   | Some BIFROST_VM_OP_CMP_GE =>
       exec_binary self base ra rb rc
         (fun lhs rhs => Ok (bfVMValue_fromBool (bfVMValue_ge fp lhs rhs)))
   | Some BIFROST_VM_OP_CMP_AND =>
       exec_binary self base ra rb rc
         (fun lhs rhs =>
            Ok (bfVMValue_fromBool (bfVMValue_isThuthy lhs && bfVMValue_isThuthy rhs)))
   | Some BIFROST_VM_OP_CMP_OR =>
       exec_binary self base ra rb rc
         (fun lhs rhs =>
            Ok (bfVMValue_fromBool (bfVMValue_isThuthy lhs || bfVMValue_isThuthy rhs)))
   | Some BIFROST_VM_OP_JUMP =>
       self1 <<- set_top_ip self (frame_ip frame + rsbx) ;;
       Ok (FlowContinue self1)
   | Some BIFROST_VM_OP_JUMP_IF =>
       v <<- stack_read self (base + ra) ;;
       if bfVMValue_isThuthy v
       then self1 <<- set_top_ip self (frame_ip frame + rsbx) ;; Ok (FlowContinue self1)
       else Ok (FlowBreak self)
   | Some BIFROST_VM_OP_JUMP_IF_NOT =>
       v <<- stack_read self (base + ra) ;;
       if negb (bfVMValue_isThuthy v)
       then self1 <<- set_top_ip self (frame_ip frame + rsbx) ;; Ok (FlowContinue self1)
       else Ok (FlowBreak self)
   | _ =>
       (* default: *)
       BF_RUNTIME_ERROR self (MsgInvalidOp op)
   end)%res.

(** One turn of the [while (true)] loop: the instruction at the ip of the
    top frame, then what the loop or the labels after it do.  The result is
    the VM to go on with, or the error code that [bfVM_execTopFrame]
    returns.  [reference_frame] is the pointer to the frame that
    [bfVM_execTopFrame] pushed, taken once when the run started; [frame] is
    a pointer too, taken at [frame_start], so that [++frame->ip] is undefined
    when the instruction has made the [frames] array move. *)
Definition exec_step (self : BifrostVM) (reference_frame : FramePtr)
    : Res (BifrostVM + BifrostVMError * BifrostVM) :=
  (frame <<- bfVMArray_back (frames self) ;;
   fn <<- deref_fn self (frame_fn frame) ;;
   inst <<- (if 0 <=? frame_ip frame
             then defined (fn_instructions fn !! Z.to_nat (frame_ip frame))
             else Undefined) ;;
   flow <<- exec_switch self frame fn inst ;;
   match flow with
   | FlowBreak vm =>
       _ <<- frame_index vm (frames_back self) ;;
       top <<- bfVMArray_back (frames vm) ;;
       vm1 <<- set_top_ip vm (frame_ip top + 1) ;;
       Ok (inl vm1)
   | FlowContinue vm => Ok (inl vm)
   | FlowFrameStart vm => Ok (inl vm)
   | FlowHalt vm =>
       (* halt: *)
       let frame_ptr := frames_back vm in
       top <<- bfVMArray_back (frames vm) ;;
       vm1 <<- bfVM_popCallFrame vm top ;;
       (* reference_frame < frame: two pointers into the array *)
       reference_index <<- frame_index vm1 reference_frame ;;
       if reference_index <? ptr_index frame_ptr
       then Ok (inl vm1)
       else Ok (inr (BIFROST_VM_ERROR_NONE, vm1))
   | FlowRuntimeError vm =>
       (* runtime_error: *)
       vm1 <<- bfVM_popAllCallFrames vm reference_frame ;;
       Ok (inr (BIFROST_VM_ERROR_RUNTIME, vm1))
   end)%res.

Fixpoint exec_loop (fuel : nat) (self : BifrostVM) (reference_frame : FramePtr)
    : Res (BifrostVMError * BifrostVM) :=
  match fuel with
  | O => OutOfFuel
  | S fuel' =>
      (r <<- exec_step self reference_frame ;;
       match r with
       | inl vm => exec_loop fuel' vm reference_frame
       | inr done => Ok done
       end)%res
  end.

Definition bfVM_execTopFrame (fuel : nat) (self : BifrostVM) (fn_to_run new_start : Z)
    : Res (BifrostVMError * BifrostVM) :=
  (self1 <<- bfVM_pushCallFrame self fn_to_run new_start ;;
   let reference_frame := frames_back self1 in
   exec_loop fuel self1 reference_frame)%res.

(** [bfVM_call]. *)
Definition bfVM_call (fuel : nat) (self : BifrostVM) (idx args_start num_args : Z)
    : Res (BifrostVMError * BifrostVM) :=
  (_ <<- bfVM_assertStackIndex self idx ;;
   value <<- stack_read self (stack_top self + idx) ;;
   _ <<- LibC_assert (bfVMValue_isPointer value) ;;
   let obj_ptr := bfVMValue_asPointer value in
   obj <<- deref self obj_ptr ;;
   let base_stack := stack_top self in
   let new_stack_top := base_stack + args_start in
   match obj with
   | ObjFn fn =>
       if (fn_arity fn <? 0) || (fn_arity fn =? num_args)
       then bfVM_execTopFrame fuel self obj_ptr new_stack_top
       else Ok (BIFROST_VM_ERROR_FUNCTION_ARITY_MISMATCH, self)
   | ObjNativeFn native_fn =>
       if (native_arity native_fn <? 0) || (native_arity native_fn =? num_args)
       then
         self1 <<- bfVM_pushCallFrame self 0 new_stack_top ;;
         frame <<- bfVMArray_back (frames self1) ;;
         self2 <<- native_call rt (native_value native_fn)
                     (log_event self1 (EvNativeFn (native_value native_fn) num_args))
                     num_args ;;
         self3 <<- bfVM_popCallFrame self2 frame ;;
         Ok (BIFROST_VM_ERROR_NONE, self3)
       else Ok (BIFROST_VM_ERROR_FUNCTION_ARITY_MISMATCH, self)
   | _ => Aborted
   end)%res.

End Interpreter.

(* ===================================================================== *)
(** ** Importing a module: [bfVM_importModule] (bifrost_vm.c) *)
(* ===================================================================== *)

Section ImportModule.
Context (fp : DoubleOps) (rt : Runtime).

(** [bfObj_NewModule]: the module object points to itself through its
    [init_fn]. *)
Definition bfObj_NewModule (self : BifrostVM) (module_name_range : string_range)
    : Res (BifrostVM * Z) :=
  (let blank (m : Z) : BifrostObj :=
     ObjModule {| module_name := bfVMString_newLen module_name_range;
                  module_variables := [];
                  module_init_fn := {| fn_name := []; fn_arity := 0; fn_code_to_line := [];
                                       fn_constants := []; fn_instructions := [];
                                       fn_needed_stack_space := 0; fn_module := m |} |} in
   r <<- allocate rt self (blank 0) ;;
   let '(self1, m) := r in
   Ok (set_heap self1 (<[m := blank m]> (heap self1)), m))%res.

Definition bfVM_runModule (fuel : nat) (self : BifrostVM) (module : Z)
    : Res (BifrostVMError * BifrostVM) :=
  let old_top := stack_top self in
  bfVM_execTopFrame fp rt fuel (log_event self (EvRunModule module))
                    (module + module_init_fn_offset) old_top.

(** [bfVM_importModule]: the module pointer (0 for NULL) and the VM.  The
    temporary GC roots it pushes and pops are not part of this state. *)
Definition bfVM_importModule (fuel : nat) (self : BifrostVM) (from module_name : string_range)
    : Res (Z * BifrostVM) :=
  (let m := bfVM_findModule self module_name in
   if m =? 0
   then
     if has_module_fn self
     then
       r <<- allocate rt self (ObjStr (bfObj_NewString_value module_name)) ;;
       let '(self1, module_name_ptr) := r in
       let key := bfObj_NewString_value module_name in
       look_up <<- module_fn rt (log_event self1 (EvModuleFn from (str_value key)))
                     from (str_value key) ;;
       let '(self2, source) := look_up in
       match source with
       | Some (c :: text) =>
           created <<- bfObj_NewModule self2 module_name ;;
           let '(self3, m1) := created in
           compiled <<- compileIntoModule rt (log_event self3 (EvCompile m1)) m1 (c :: text) ;;
           let '(self4, compile_error) := compiled in
           ran <<- (if compile_error then Ok (true, self4)
                    else
                      r <<- bfVM_runModule fuel self4 m1 ;;
                      let '(err, self5) := r in
                      Ok (negb (bool_decide (err = BIFROST_VM_ERROR_NONE)), self5)) ;;
           let '(has_error, self6) := ran in
           if negb has_error
           then Ok (m1, set_modules self6
                          (bfHashMap_set ModuleMap_hash ModuleMap_cmp (modules self6) key m1))
           else Ok (m1, self6)
       | _ => Ok (0, set_last_error self2 (MsgModuleNotFound module_name))
       end
     else Ok (0, set_last_error self (MsgNoModuleFunction module_name))
   else Ok (m, self))%res.

End ImportModule.

(* ===================================================================== *)
(** ** The collector (bifrost_vm_gc.c) *)
(* ===================================================================== *)

(** The first two statements of [bfGC_AllocMemory]: [old_size] bytes leave
    the count of the VM and [new_size] bytes join it. *)
Definition count_memory (self : BifrostVM) (old_size new_size : Z) : BifrostVM :=
  set_bytes_allocated self (wrap64 (wrap64 (bytes_allocated self - old_size) + new_size)).

(** The objects whose [gc_mark] is [GC_MARK_UNREACHABLE] once the mark
    phase has run, in the order of the list they are on. *)
Record Marks : Type := {
  unreachable_finalized : list Z;     (* of self->finalized *)
  unreachable_objects : list Z        (* of self->gc_object_list *)
}.

(** What a collection takes from the rest of the runtime: the marks, which
    are not part of the heap of this model; the sizes of the allocations,
    which depend on [sizeof] and on the capacities of strings and arrays;
    and the code of the host and of the script that it runs. *)
Record Collector : Type := {
  (* bfGCMarkObjects: what the walk from the roots leaves unmarked *)
  bfGCMarkObjects : BifrostVM -> Marks;
  (* bfGCMarkObj(obj, GC_MARK_FINALIZE) in the sweep, when the objects
     [marked] have that mark: the objects that have it afterwards, which
     are those of [marked], the object and what is reachable from it *)
  bfGCMarkObj : BifrostVM -> list Z -> Z -> list Z;
  (* bfObj_AllocationSize(obj), a size_t *)
  bfObj_AllocationSize : Z -> Z;
  (* the sizes of the strings, arrays and hash nodes of obj, which
     bfObj_Destruct frees one by one *)
  destructed_blocks : Z -> list Z;
  (* the bytes that bfVM_getSymbol allocates for a name that is new *)
  symbol_bytes : string_range -> Z;
  (* clz->finalizer(self, &extra_data) where the class has one *)
  clz_finalizer : BifrostVM -> Z -> Res BifrostVM;
  (* bfGCFinalize: the script-level dtor of every object queued in
     self->finalized *)
  bfGCFinalize : BifrostVM -> Res BifrostVM
}.

Definition bfObj_IsFunction (obj : BifrostObj) : bool :=
  match obj with
  | ObjFn _ | ObjNativeFn _ => true
  | _ => false
  end.

Section Collect.

Variable gc : Collector.

(** [bfObj_Delete]: every block goes back through [bfGC_AllocMemory] with
    a new size of 0, which takes its bytes off [bytes_allocated]; the size
    of the object is returned as well. *)
Definition bfObj_Delete (self : BifrostVM) (obj : Z) : Z * BifrostVM :=
  let obj_size := bfObj_AllocationSize gc obj in
  let self1 :=
    fold_left (fun vm block => count_memory vm block 0) (destructed_blocks gc obj) self in
  let self2 := count_memory self1 obj_size 0 in
  (obj_size, set_heap self2 (delete obj (heap self2))).

Definition bfGCFinalizePostMark (marks : Marks) (self : BifrostVM) : Z * BifrostVM :=
  fold_left (fun state garbage =>
               let '(obj_size, self1) := bfObj_Delete (snd state) garbage in
               (wrap64 (fst state + obj_size), self1))
            (unreachable_finalized marks) (0, self).

(** [inst->clz] of an instance or of a reference; [None] for the other
    types of object. *)
Definition clz_of (self : BifrostVM) (obj : Z) : option Z :=
  match heap self !! obj with
  | Some (ObjInstance inst) => Some (inst_clz inst)
  | Some (ObjReference clz) => Some clz
  | _ => None
  end.

(** The test of [bfGCSweep] for a script-level destructor:
    [clz && dtor_symbol < size(clz->symbols)] and the value under that
    symbol is a function. *)
Definition has_dtor (self : BifrostVM) (dtor_symbol clz : Z) : Res bool :=
  (if clz =? 0 then Ok false
   else
     match heap self !! clz with
     | Some (ObjClass c) =>
         if dtor_symbol <? bfVMArray_size (clz_symbols c)
         then
           symbol <<- defined (clz_symbols c !! Z.to_nat dtor_symbol) ;;
           let value := sym_value symbol in
           if bfVMValue_isPointer value
           then
             match heap self !! bfVMValue_asPointer value with
             | Some obj => Ok (bfObj_IsFunction obj)
             | None =>
                 match heap self !! (bfVMValue_asPointer value - module_init_fn_offset) with
                 | Some (ObjModule _) => Ok true
                 | _ => Undefined
                 end
             end
           else Ok false
         else Ok false
     | _ => Undefined
     end)%res.

(** [bfObj_Finalize]: the finalizer that the host gave the class. *)
Definition bfObj_Finalize (self : BifrostVM) (obj : Z) : Res BifrostVM :=
  match clz_of self obj with
  | Some clz => if clz =? 0 then Undefined else clz_finalizer gc self obj
  | None => Ok self
  end.

Definition dtor : string_range := map chr ["d"; "t"; "o"; "r"]%char.

(** [g_cursor->gc_mark == GC_MARK_FINALIZE], for an object of the garbage
    list and the objects [finalize] that have been given that mark. *)
Definition marked_finalize (finalize : list Z) (g_cursor : Z) : bool :=
  existsb (Z.eqb g_cursor) finalize.

(** The first walk of [bfGCSweep] over the garbage list: an instance whose
    class has a destructor is marked [GC_MARK_FINALIZE], with what is
    reachable from it, and its size leaves the count; every instance is
    finalized; an instance without that mark is taken off the list and
    deleted.  The list that is left is returned with the marks. *)
Fixpoint sweep_instances (dtor_symbol : Z) (garbage_list : list Z) (collected_bytes : Z)
    (finalize : list Z) (self : BifrostVM) : Res (list Z * Z * list Z * BifrostVM) :=
  match garbage_list with
  | [] => Ok ([], collected_bytes, finalize, self)
  | g_cursor :: next =>
      match clz_of self g_cursor with
      | Some clz =>
          (found <<- has_dtor self dtor_symbol clz ;;
           let finalize :=
             if found : bool then bfGCMarkObj gc self finalize g_cursor else finalize in
           let collected_bytes :=
             if found : bool
             then wrap64 (collected_bytes - bfObj_AllocationSize gc g_cursor)
             else collected_bytes in
           self1 <<- bfObj_Finalize self g_cursor ;;
           if marked_finalize finalize g_cursor
           then
             r <<- sweep_instances dtor_symbol next collected_bytes finalize self1 ;;
             let '(garbage_list, collected_bytes, finalize, self2) := r in
             Ok (g_cursor :: garbage_list, collected_bytes, finalize, self2)
           else
             sweep_instances dtor_symbol next collected_bytes finalize
                             (snd (bfObj_Delete self1 g_cursor)))%res
      | None =>
          (r <<- sweep_instances dtor_symbol next collected_bytes finalize self ;;
           let '(garbage_list, collected_bytes, finalize, self1) := r in
           Ok (g_cursor :: garbage_list, collected_bytes, finalize, self1))%res
      end
  end.

(** [bfGCSweep]: the garbage list is built by pushing at its head.  Its
    second walk deletes the objects that are still unmarked; those marked
    [GC_MARK_FINALIZE] are queued in [self->finalized], which this state
    does not hold. *)
Definition bfGCSweep (marks : Marks) (self : BifrostVM) : Res (Z * BifrostVM) :=
  (let garbage_list := rev (unreachable_objects marks) in
   let collected_bytes :=
     fold_left (fun bytes garbage => wrap64 (bytes + bfObj_AllocationSize gc garbage))
               (unreachable_objects marks) 0 in
   let is_new :=
     bfVMArray_find (symbols self) dtor bfVM_getSymbolHelper =? BIFROST_ARRAY_INVALID_INDEX in
   let '(self1, dtor_symbol) := bfVM_getSymbol self dtor in
   let self1 := if is_new then count_memory self1 0 (symbol_bytes gc dtor) else self1 in
   r <<- sweep_instances dtor_symbol garbage_list collected_bytes [] self1 ;;
   let '(garbage_list, collected_bytes, finalize, self2) := r in
   Ok (collected_bytes,
       fold_left (fun vm g_cursor =>
                    if marked_finalize finalize g_cursor then vm
                    else snd (bfObj_Delete vm g_cursor))
                 garbage_list self2))%res.

(** [self->bytes_allocated + (size_t)(self->bytes_allocated *
    self->params.heap_growth_factor)]: the product is a [float]. *)
Definition new_heap_size (self : BifrostVM) : Res Z :=
  (grown <<- size_t_of_float
               (float_mul (float_of_size_t (bytes_allocated self))
                          (heap_growth_factor (params self))) ;;
   Ok (wrap64 (bytes_allocated self + grown)))%res.

Definition bfGC_Collect (self : BifrostVM) : Res BifrostVM :=
  (if gc_is_running self
   then Ok self
   else
     let self := set_gc_is_running self true in
     let marks := bfGCMarkObjects gc self in
     let '(collected_bytes, self) := bfGCFinalizePostMark marks self in
     swept <<- bfGCSweep marks self ;;
     let '(swept_bytes, self) := swept in
     let collected_bytes := wrap64 (collected_bytes + swept_bytes) in
     let self := set_bytes_allocated self (wrap64 (bytes_allocated self - collected_bytes)) in
     new_heap_size <<- new_heap_size self ;;
     let min_heap_size := min_heap_size (params self) in
     let self :=
       set_heap_size self
         (if min_heap_size <? new_heap_size then new_heap_size else min_heap_size) in
     self <<- bfGCFinalize gc self ;;
     Ok (set_gc_is_running self false))%res.

(** [bfGC_AllocMemory], but for the call of the allocator of the host. *)
Definition bfGC_AllocMemory (self : BifrostVM) (old_size new_size : Z) : Res BifrostVM :=
  let self := count_memory self old_size new_size in
  if (0 <? new_size) && (heap_size (params self) <=? bytes_allocated self)
  then bfGC_Collect self
  else Ok self.

End Collect.

(** A collector that finds the objects [garbage] of the object list
    unmarked, [size] bytes each, on a platform where the string "dtor"
    takes 21 bytes; no code of the host or of a script runs. *)
Definition sweep_only (garbage : list Z) (size : Z) : Collector :=
  {| bfGCMarkObjects := fun _ => {| unreachable_finalized := []; unreachable_objects := garbage |};
     bfGCMarkObj := fun _ marked obj => obj :: marked;
     bfObj_AllocationSize := fun _ => size;
     destructed_blocks := fun _ => [];
     symbol_bytes := fun _ => 21;
     clz_finalizer := fun self _ => Ok self;
     bfGCFinalize := fun self => Ok self |}.

(* ===================================================================== *)
(** ** Sample states *)
(* ===================================================================== *)

(** A platform whose double arithmetic is not looked at, and a host that
    does nothing: enough to run code that uses neither. *)
Definition idle_fp : DoubleOps :=
  {| double_add := fun _ _ => 0; double_sub := fun _ _ => 0;
     double_mul := fun _ _ => 0; double_div := fun _ _ => 0;
     double_eq := Z.eqb; double_lt := Z.ltb; double_gt := Z.gtb; double_ge := Z.geb |}.

Definition idle_rt : Runtime :=
  {| native_call := fun _ vm _ => Ok vm;
     module_fn := fun vm _ _ => Ok (vm, None);
     allocate := fun _ _ => Undefined;
     compileIntoModule := fun vm _ _ => Ok (vm, true);
     concatToString := fun _ _ _ => [] |}.

Definition empty_fn : BifrostObjFn :=
  {| fn_name := []; fn_arity := 0; fn_code_to_line := []; fn_constants := [];
     fn_instructions := []; fn_needed_stack_space := 0; fn_module := 0 |}.

(** A function object at address 4096 with the code [code] and the arity
    [arity], a stack of eight nil slots, and the function in slot 0. *)
Definition demo_fn (arity : Z) (code : list bfInstruction) : BifrostObjFn :=
  {| fn_name := map chr ["f"]%char; fn_arity := arity; fn_code_to_line := map (fun _ => 1) code;
     fn_constants := []; fn_instructions := code; fn_needed_stack_space := 4;
     fn_module := 0 |}.

Definition demo_vm (arity : Z) (code : list bfInstruction) (slots : list bfVMValue) : BifrostVM :=
  {| frames := [];
     frames_capacity := 12;
     stack := slots;
     stack_top := 0;
     symbols := [];
     heap := {[ 4096 := ObjFn (demo_fn arity code) ]};
     modules := bfHashMap_ctor;
     last_error := MsgNone;
     build_in_symbol_call := 2;
     current_native_fn := 0;
     has_error_fn := false;
     has_module_fn := false;
     params := bfVMParams_initDefault;
     bytes_allocated := 0;
     gc_is_running := false;
     host_log := [] |}.

(** The same VM once [bfVM_execTopFrame] has pushed the frame of the
    function, its locals at the bottom of the stack. *)
Definition demo_running (arity : Z) (code : list bfInstruction) (slots : list bfVMValue)
    : BifrostVM :=
  set_frames (demo_vm arity code slots)
    [{| frame_fn := 4096; frame_ip := 0; frame_old_stack := 0; frame_stack := 0 |}].

(* ===================================================================== *)
(** ** Vocabulary of the statements *)
(* ===================================================================== *)

(** The frame on top of the call stack with its ip set to [ip]. *)
Definition frame_at (frame : BifrostVMStackFrame) (ip : Z) : BifrostVMStackFrame :=
  {| frame_fn := frame_fn frame; frame_ip := ip;
     frame_old_stack := frame_old_stack frame; frame_stack := frame_stack frame |}.

(** The VM whose top frame has moved to [ip]. *)
Definition goto_ip (vm : BifrostVM) (frame : BifrostVMStackFrame) (ip : Z) : BifrostVM :=
  set_frames vm (removelast (frames vm) ++ [frame_at frame ip]).

(** The top frame runs [fn] and its ip is on [inst]. *)
Definition at_instruction (vm : BifrostVM) (frame : BifrostVMStackFrame) (fn : BifrostObjFn)
    (inst : bfInstruction) : Prop :=
  bfVMArray_back (frames vm) = Ok frame
  /\ deref_fn vm (frame_fn frame) = Ok fn
  /\ 0 <= frame_ip frame
  /\ fn_instructions fn !! Z.to_nat (frame_ip frame) = Some inst.

(** What the host sees of a run: the error code, the operand stack and
    [last_error]. *)
Definition run_summary (r : Res (BifrostVMError * BifrostVM))
    : Res (BifrostVMError * list bfVMValue * ErrorMessage) :=
  res_bind r (fun done => Ok (fst done, stack (snd done), last_error (snd done))).

(** The test that both call paths make on a scripted function:
    [fn->arity >= 0 && num_args != fn->arity]. *)
Definition arity_mismatch (arity num_args : Z) : bool :=
  (arity >=? 0) && negb (num_args =? arity).

(** Two instructions: [op 0,1,2] then [RETURN 0]. *)
Definition binary_then_return (op : bfInstructionOp) : list bfInstruction :=
  [ BIFROST_MAKE_INST_OP_ABC (op_code op) 0 1 2;
    BIFROST_MAKE_INST_OP_ABx (op_code BIFROST_VM_OP_RETURN) 0 0 ].

(** The switch has no arm for these four opcodes of the enumeration. *)
Definition without_arm (op : bfInstructionOp) : bool :=
  match op with
  | BIFROST_VM_OP_MATH_MOD | BIFROST_VM_OP_MATH_POW
  | BIFROST_VM_OP_MATH_INV | BIFROST_VM_OP_CMP_LE => true
  | _ => false
  end.

(** A loop body of 131074 instructions that starts with a [break]: the
    sentinel, then 131073 times [LOAD_BASIC 0, nil]. *)
Definition long_body_filler : list bfInstruction :=
  replicate (Z.to_nat 131073)
    (BIFROST_MAKE_INST_OP_ABx (op_code BIFROST_VM_OP_LOAD_BASIC) 0 BIFROST_VM_OP_LOAD_BASIC_NULL).

Definition long_loop : BifrostParser :=
  {| fn_builder :=
       set_instructions (bfFuncBuilder_pushScope (bfFuncBuilder_ctor 1))
         (BIFROST_INST_INVALID :: long_body_filler);
     loop_stack := [{| body_start := 0 |}];
     has_error := false |}.

(** A loop body of three instructions with a [break] in the middle. *)
Definition short_loop : BifrostParser :=
  {| fn_builder :=
       set_instructions (bfFuncBuilder_pushScope (bfFuncBuilder_ctor 1))
         [ BIFROST_MAKE_INST_OP_ABx (op_code BIFROST_VM_OP_LOAD_BASIC) 0 0;
           BIFROST_INST_INVALID;
           BIFROST_MAKE_INST_OP_AsBx (op_code BIFROST_VM_OP_JUMP) 0 (-2) ];
     loop_stack := [{| body_start := 0 |}];
     has_error := false |}.

(** The frame of [demo_running]. *)
Definition demo_frame : BifrostVMStackFrame :=
  {| frame_fn := 4096; frame_ip := 0; frame_old_stack := 0; frame_stack := 0 |}.

(** [JUMP_IF 0, +2] over a RETURN. *)
Definition jump_code : list bfInstruction :=
  [ BIFROST_MAKE_INST_OP_AsBx (op_code BIFROST_VM_OP_JUMP_IF) 0 2;
    BIFROST_MAKE_INST_OP_ABx (op_code BIFROST_VM_OP_RETURN) 0 0;
    BIFROST_MAKE_INST_OP_ABx (op_code BIFROST_VM_OP_RETURN) 0 1 ].

(** [CALL_FN 0,1,2]: call locals[1] with the two arguments from locals[0]. *)
Definition call_code : list bfInstruction :=
  [ BIFROST_MAKE_INST_OP_ABC (op_code BIFROST_VM_OP_CALL_FN) 0 1 2;
    BIFROST_MAKE_INST_OP_ABx (op_code BIFROST_VM_OP_RETURN) 0 0 ].

(** A function of one parameter that calls itself with two arguments. *)
Definition demo_call_vm : BifrostVM :=
  demo_running 1 call_code
    [bfVMValue_fromPointer 4096; bfVMValue_fromPointer 4096; 0; 0].

(** The same function in slot 0 of the stack of a VM in which no script
    runs: the state in which the host calls [bfVM_call]. *)
Definition demo_host_vm : BifrostVM :=
  demo_vm 1 call_code [bfVMValue_fromPointer 4096; 0; 0; 0].

(** The symbol table as [bfVM_ctor] leaves it. *)
Definition demo_symbols_vm : BifrostVM :=
  set_symbols (demo_vm 0 [] [])
    [map chr ["c"; "t"; "o"; "r"]%char; map chr ["d"; "t"; "o"; "r"]%char;
     map chr ["c"; "a"; "l"; "l"]%char].

Definition std_io : string_range := map chr ["s"; "t"; "d"; ":"; "i"; "o"]%char.

(** A VM in which the module at address 8192 is registered as "std:io". *)
Definition demo_modules_vm : BifrostVM :=
  set_modules (demo_vm 0 [] [])
    (bfHashMap_set ModuleMap_hash ModuleMap_cmp bfHashMap_ctor
       (bfObj_NewString_value std_io) 8192).

(** The number a finite [float] stands for. *)
Definition float_value (x : float) : Q :=
  match x with
  | SpecFloat.S754_finite s m e =>
      ((if s then - inject_Z (Zpos m) else inject_Z (Zpos m)) * Qpower 2 e)%Q
  | _ => 0%Q
  end.

(** The threshold in the words of the specification,
    max(min_heap_size, bytes_allocated x (1 + growth_factor)), in exact
    arithmetic and rounded down to a number of bytes. *)
Definition spec_heap_size (min_heap_size bytes_allocated : Z) (growth_factor : Q) : Z :=
  Z.max min_heap_size (Qfloor (inject_Z bytes_allocated * (1 + growth_factor))).

(** A VM with the default parameters, the symbols of [bfVM_ctor] and [n]
    bytes allocated. *)
Definition demo_heap_vm (n : Z) : BifrostVM :=
  set_bytes_allocated demo_symbols_vm n.

(** The same VM with a string at address 8192 that nothing refers to. *)
Definition demo_garbage_vm (n : Z) : BifrostVM :=
  set_heap (demo_heap_vm n)
           (<[8192 := ObjStr (bfObj_NewString_value std_io)]> (heap (demo_heap_vm n))).

(* ===================================================================== *)
(** ** bifrost_hash_map.c: membership and removal *)
(* ===================================================================== *)

Section HashMapRemove.
Context {K V : Type}.
Context (hash : K -> Z) (cmp : K -> K -> bool).

Definition bfHashMap_has (self : BifrostHashMap K V) (key : K) : bool :=
  match bfHashMap_getNode cmp self key (bucket_index hash key) with
  | Some _ => true
  | None => false
  end.

(** The loop of [bfHashMap_removeCmp] on one chain: the chain without the
    first node that [cmp'] accepts, if there is one. *)
Fixpoint chain_remove (cmp' : K -> K -> bool) (key : K) (chain : list (K * V))
    : option (list (K * V)) :=
  match chain with
  | [] => None
  | node :: rest =>
      if cmp' key (fst node) then Some rest
      else cons node <$> chain_remove cmp' key rest
  end.

(** [bfHashMap_removeCmp]: the map and 1 when a node was unlinked, 0
    otherwise. *)
Definition bfHashMap_removeCmp (self : BifrostHashMap K V) (key : K) (cmp' : K -> K -> bool)
    : BifrostHashMap K V * Z :=
  let bucket := bucket_index hash key in
  match chain_remove cmp' key (default [] (self !! bucket)) with
  | Some chain => (<[bucket := chain]> self, 1)
  | None => (self, 0)
  end.

Definition bfHashMap_remove (self : BifrostHashMap K V) (key : K) : BifrostHashMap K V * Z :=
  bfHashMap_removeCmp self key cmp.

(** [params.cmp] is an equivalence on keys and [params.hash] respects it,
    as [strcmp(...) == 0] with the string hash and [ModuleMap_cmp] with
    [ModuleMap_hash] do. *)
Definition key_equivalence : Prop :=
  (forall a, cmp a a = true)
  /\ (forall a b, cmp a b = true -> cmp b a = true)
  /\ (forall a b c, cmp a b = true -> cmp b c = true -> cmp a c = true)
  /\ (forall a b, cmp a b = true -> bucket_index hash a = bucket_index hash b).

(** No two nodes of a chain have keys that [cmp] takes for the same. *)
Fixpoint chain_distinct (chain : list (K * V)) : Prop :=
  match chain with
  | [] => True
  | node :: rest =>
      Forall (fun other => cmp (fst node) (fst other) = false) rest /\ chain_distinct rest
  end.

(** The shape of a map that [bfHashMap_ctor] made and that only
    [bfHashMap_set] and [bfHashMap_remove] changed: all the buckets are
    there, every node hangs in the bucket of its key, and no key is stored
    twice. *)
Definition bfHashMap_wf (self : BifrostHashMap K V) : Prop :=
  length self = Z.to_nat BIFROST_HASH_MAP_BUCKET_SIZE
  /\ Forall chain_distinct self
  /\ forall (bucket : nat) (chain : list (K * V)),
       self !! bucket = Some chain ->
       Forall (fun node => bucket_index hash (fst node) = bucket) chain.

End HashMapRemove.

(** A run of [var] declarations in the scope on top, whether or not each
    one is reported as a duplicate. *)
Fixpoint declare_variables (ccmpn_source : string_range -> string_range -> Z -> Z)
    (self : BifrostVMFunctionBuilder) (names : list string_range)
    : Res BifrostVMFunctionBuilder :=
  match names with
  | [] => Ok self
  | var_name :: rest =>
      (declared <<- bfFuncBuilder_declVariable ccmpn_source self var_name ;;
       declare_variables ccmpn_source (fst (fst declared)) rest)%res
  end.

(** Every instruction has its line. *)
Definition lines_cover_code (self : BifrostVMFunctionBuilder) : Prop :=
  length (code_to_line self) = length (instructions self).

(* ===================================================================== *)
(** ** The stack API of the host (bifrost_vm.c) *)
(* ===================================================================== *)

Inductive BifrostVMType : Type :=
| BIFROST_VM_STRING
| BIFROST_VM_NUMBER
| BIFROST_VM_BOOL
| BIFROST_VM_NIL
| BIFROST_VM_OBJECT
| BIFROST_VM_FUNCTION
| BIFROST_VM_MODULE.

Definition bfVM_stackSize (self : BifrostVM) : Z :=
  wrap64 (bfVMArray_size (stack self) - stack_top self).

(** [bfVM_stackResize]: it always returns BIFROST_VM_ERROR_NONE. *)
Definition bfVM_stackResize (self : BifrostVM) (size : Z) : BifrostVMError * BifrostVM :=
  let stack_size := bfVMArray_size (stack self) in
  let stack_used := stack_top self in
  let requested_size := wrap64 (stack_used + size) in
  (BIFROST_VM_ERROR_NONE,
   if stack_size <? requested_size
   then set_stack_top (set_stack self (bfVMArray_resize 0 (stack self) requested_size))
                      stack_used
   else self).

Definition bfVM_stackSetNumber (self : BifrostVM) (idx value : Z) : Res BifrostVM :=
  (_ <<- bfVM_assertStackIndex self idx ;;
   stack_write self (stack_top self + idx) (bfVMValue_fromNumber value))%res.

Definition bfVM_stackSetBool (self : BifrostVM) (idx : Z) (value : bool) : Res BifrostVM :=
  (_ <<- bfVM_assertStackIndex self idx ;;
   stack_write self (stack_top self + idx) (bfVMValue_fromBool value))%res.

Definition bfVM_stackSetNil (self : BifrostVM) (idx : Z) : Res BifrostVM :=
  (_ <<- bfVM_assertStackIndex self idx ;;
   stack_write self (stack_top self + idx) bfVMValue_fromNull)%res.

Definition bfVM_stackReadNumber (self : BifrostVM) (idx : Z) : Res Z :=
  (_ <<- bfVM_assertStackIndex self idx ;;
   value <<- stack_read self (stack_top self + idx) ;;
   _ <<- LibC_assert (bfVMValue_isNumber value) ;;
   Ok (bfVMValue_asNumber value))%res.

Definition bfVM_stackReadBool (self : BifrostVM) (idx : Z) : Res bool :=
  (_ <<- bfVM_assertStackIndex self idx ;;
   value <<- stack_read self (stack_top self + idx) ;;
   _ <<- LibC_assert (bfVMValue_isBool value) ;;
   Ok (bfVMValue_isThuthy value))%res.

Definition bfVMGetArity (self : BifrostVM) (value : bfVMValue) : Res Z :=
  (_ <<- LibC_assert (bfVMValue_isPointer value) ;;
   obj <<- deref self (bfVMValue_asPointer value) ;;
   match obj with
   | ObjFn fn => Ok (fn_arity fn)
   | ObjNativeFn fn => Ok (native_arity fn)
   | _ => Aborted
   end)%res.

Definition bfVMGetType (self : BifrostVM) (value : bfVMValue) : Res BifrostVMType :=
  (if bfVMValue_isBool value then Ok BIFROST_VM_BOOL
   else if bfVMValue_isNumber value then Ok BIFROST_VM_NUMBER
   else if bfVMValue_isPointer value
   then
     obj <<- deref self (bfVMValue_asPointer value) ;;
     match obj_type obj with
     | BIFROST_VM_OBJ_STRING => Ok BIFROST_VM_STRING
     | BIFROST_VM_OBJ_INSTANCE | BIFROST_VM_OBJ_REFERENCE | BIFROST_VM_OBJ_WEAK_REF =>
         Ok BIFROST_VM_OBJECT
     | BIFROST_VM_OBJ_FUNCTION | BIFROST_VM_OBJ_NATIVE_FN => Ok BIFROST_VM_FUNCTION
     | BIFROST_VM_OBJ_MODULE => Ok BIFROST_VM_MODULE
     | BIFROST_VM_OBJ_CLASS => Ok BIFROST_VM_NIL
     end
   else Ok BIFROST_VM_NIL)%res.

Definition bfVM_stackGetType (self : BifrostVM) (idx : Z) : Res BifrostVMType :=
  (_ <<- bfVM_assertStackIndex self idx ;;
   value <<- stack_read self (stack_top self + idx) ;;
   bfVMGetType self value)%res.

Definition bfVM_stackGetArity (self : BifrostVM) (idx : Z) : Res Z :=
  (_ <<- bfVM_assertStackIndex self idx ;;
   value <<- stack_read self (stack_top self + idx) ;;
   bfVMGetArity self value)%res.

(** [bfVM_moduleLoad]. *)
Definition bfVM_moduleLoad (self : BifrostVM) (idx : Z) (module : string_range)
    : Res (BifrostVMError * BifrostVM) :=
  (_ <<- bfVM_assertStackIndex self idx ;;
   let module_obj := bfVM_findModule self module in
   if negb (module_obj =? 0)
   then
     self1 <<- stack_write self (stack_top self + idx) (bfVMValue_fromPointer module_obj) ;;
     Ok (BIFROST_VM_ERROR_NONE, self1)
   else Ok (BIFROST_VM_ERROR_MODULE_NOT_FOUND, self))%res.

Section ModuleMake.
Context (rt : Runtime).

Definition ANON_MODULE_NAME : bytes :=
  map chr ["_"; "_"; "a"; "n"; "o"; "n"; "_"; "m"; "o"; "d"; "u"; "l"; "e"; "_"; "_"]%char.

(** [bfVM__moduleMake]: [module] is [None] for a NULL name; the name is a
    C string, read up to its NUL.  The result is the error code, the module
    left in [*out] and the VM.  The temporary GC root pushed around the
    allocation of the name is not part of this state. *)
Definition bfVM__moduleMake (self : BifrostVM) (module : option bytes)
    : Res (BifrostVMError * Z * BifrostVM) :=
  (let is_anon := bool_decide (module = None) in
   let name_range := c_string (default ANON_MODULE_NAME module) in
   let out := if is_anon then 0 else bfVM_findModule self name_range in
   if negb is_anon && negb (out =? 0)
   then Ok (BIFROST_VM_ERROR_MODULE_ALREADY_DEFINED, out, self)
   else
     created <<- bfObj_NewModule rt self name_range ;;
     let '(self1, out1) := created in
     if is_anon then Ok (BIFROST_VM_ERROR_NONE, out1, self1)
     else
       r <<- allocate rt self1 (ObjStr (bfObj_NewString_value name_range)) ;;
       let '(self2, _) := r in
       Ok (BIFROST_VM_ERROR_NONE, out1,
           set_modules self2
             (bfHashMap_set ModuleMap_hash ModuleMap_cmp (modules self2)
                (bfObj_NewString_value name_range) out1)))%res.

Definition bfVM_moduleMake (self : BifrostVM) (idx : Z) (module : option bytes)
    : Res (BifrostVMError * BifrostVM) :=
  (_ <<- bfVM_assertStackIndex self idx ;;
   made <<- bfVM__moduleMake self module ;;
   let '(err, temp, self1) := made in
   self2 <<- stack_write self1 (stack_top self1 + idx) (bfVMValue_fromPointer temp) ;;
   Ok (err, self2))%res.

End ModuleMake.

(** An allocator that always succeeds, never returns NULL and leaves the
    stack and the module map as they are. *)
Definition allocator_succeeds (rt : Runtime) : Prop :=
  forall (vm : BifrostVM) (obj : BifrostObj),
    exists (vm' : BifrostVM) (p : Z),
      allocate rt vm obj = Ok (vm', p)
      /\ p <> 0
      /\ modules vm' = modules vm
      /\ stack vm' = stack vm
      /\ stack_top vm' = stack_top vm.

(** A host whose allocator hands out the addresses 4096, 8192, ... in
    turn. *)
Definition bump_rt : Runtime :=
  {| native_call := fun _ vm _ => Ok vm;
     module_fn := fun vm _ _ => Ok (vm, None);
     allocate := fun vm obj =>
       let addr := 4096 * (Z.of_nat (size (heap vm)) + 1) in
       Ok (set_heap vm (<[addr := obj]> (heap vm)), addr);
     compileIntoModule := fun vm _ _ => Ok (vm, true);
     concatToString := fun _ _ _ => [] |}.

(** A VM whose slot 0 holds the native function of one parameter at
    address 8192. *)
Definition demo_native_fn : BifrostObjNativeFn :=
  {| native_value := 1; native_arity := 1; native_statics := [] |}.

Definition demo_native_vm : BifrostVM :=
  set_heap (demo_vm 0 [] [bfVMValue_fromPointer 8192; 0])
           (<[8192 := ObjNativeFn demo_native_fn]> (heap (demo_vm 0 [] []))).

(** [bfVM_moduleUnloadAll]: the module objects are left to the collector. *)
Definition bfVM_moduleUnloadAll (self : BifrostVM) : BifrostVM :=
  set_modules self (bfHashMap_clear (modules self)).

(** A class with two initializers for the field "x". *)
Definition demo_clz : BifrostObjClass :=
  {| clz_name := map chr ["C"]%char;
     clz_base_clz := 0;
     clz_module := 0;
     clz_symbols := [];
     clz_field_initializers :=
       [ {| sym_name := Some (map chr ["x"]%char); sym_value := 1 |};
         {| sym_name := Some (map chr ["x"]%char); sym_value := 2 |} ];
     clz_extra_data := 0 |}.

(** A host that has a source text for whatever module it is asked for;
    its compiler gives the module the top-level code "return local 0". *)
Definition import_rt : Runtime :=
  {| native_call := fun _ vm _ => Ok vm;
     module_fn := fun vm _ _ => Ok (vm, Some (map chr ["v"; "a"; "r"; " "; "x"; ";"]%char));
     allocate := allocate bump_rt;
     compileIntoModule := fun vm m _ =>
       match heap vm !! m with
       | Some (ObjModule module) =>
           let init_fn :=
             {| fn_name := []; fn_arity := 0; fn_code_to_line := [1]; fn_constants := [];
                fn_instructions := [BIFROST_MAKE_INST_OP_ABx (op_code BIFROST_VM_OP_RETURN) 0 0];
                fn_needed_stack_space := 1; fn_module := m |} in
           Ok (set_heap vm (<[m := ObjModule {| module_name := module_name module;
                                                 module_variables := module_variables module;
                                                 module_init_fn := init_fn |}]> (heap vm)),
               false)
       | _ => Undefined
       end;
     concatToString := fun _ _ _ => [] |}.

(** A VM whose embedder gave it a module-load callback. *)
Definition demo_import_vm : BifrostVM :=
  {| frames := [];
     frames_capacity := 12;
     stack := [];
     stack_top := 0;
     symbols := [];
     heap := ∅;
     modules := bfHashMap_ctor;
     last_error := MsgNone;
     build_in_symbol_call := 2;
     current_native_fn := 0;
     has_error_fn := false;
     has_module_fn := true;
     params := bfVMParams_initDefault;
     bytes_allocated := 0;
     gc_is_running := false;
     host_log := [] |}.

(** The four characters between the quotes of [import "a\nb"]: the lexer
    leaves the escape sequence as it is written. *)
Definition escaped_name : string_range := map chr ["a"; "\"; "n"; "b"]%char.

(** The bytes of the objects [objs] themselves, and of the blocks that
    they own. *)
Definition garbage_bytes (gc : Collector) (objs : list Z) : Z :=
  fold_right (fun obj total => bfObj_AllocationSize gc obj + total) 0 objs.

Definition owned_bytes (gc : Collector) (objs : list Z) : Z :=
  fold_right (fun obj total => fold_right Z.add 0 (destructed_blocks gc obj) + total) 0 objs.

(* ===================================================================== *)
(** * Properties *)
(* ===================================================================== *)

(** ** Bits *)

Lemma pointer_mask_complement :
  Z.lxor UINT64_MAX k_VMValuePointerMask = Z.ones 50.
Proof. reflexivity. Qed.

Lemma pointer_mask_shift : k_VMValuePointerMask = Z.shiftl (Z.ones 14) 50.
Proof. reflexivity. Qed.

Lemma asPointer_fromPointer (addr : Z) :
  0 < addr < 2 ^ 50 -> bfVMValue_asPointer (bfVMValue_fromPointer addr) = addr.
Proof.
  intros Haddr. unfold bfVMValue_asPointer, bfVMValue_fromPointer.
  destruct (Z.eqb_spec addr 0) as [->|_]; [lia|].
  rewrite pointer_mask_complement, pointer_mask_shift.
  rewrite <- (Z.mod_small addr (2 ^ 50)) at 2 by lia.
  Z.bitblast.
Qed.

Lemma isPointer_fromPointer (addr : Z) :
  addr <> 0 -> bfVMValue_isPointer (bfVMValue_fromPointer addr) = true.
Proof.
  intros Haddr. unfold bfVMValue_isPointer, bfVMValue_fromPointer.
  destruct (Z.eqb_spec addr 0) as [->|_]; [lia|].
  apply Z.eqb_eq. generalize k_VMValuePointerMask. intros m. Z.bitblast.
Qed.

Lemma fromPointer_not_nil (addr : Z) :
  addr <> 0 -> bfVMValue_fromPointer addr <> k_VMValueNull.
Proof.
  intros Haddr Heq.
  pose proof (isPointer_fromPointer addr Haddr) as Hp.
  rewrite Heq in Hp. discriminate Hp.
Qed.

(** ** Truthiness *)

Lemma isThuthy_false_iff (v : bfVMValue) :
  bfVMValue_isThuthy v = false <->
  bfVMValue_isNull v = true \/ bfVMValue_isFalse v = true
  \/ (bfVMValue_isPointer v = true /\ bfVMValue_asPointer v = 0).
Proof.
  unfold bfVMValue_isThuthy.
  destruct (bfVMValue_isNull v), (bfVMValue_isFalse v), (bfVMValue_isPointer v);
    cbn; try (split; [auto | reflexivity]); try tauto.
  - destruct (Z.eqb_spec (bfVMValue_asPointer v) 0) as [H0|H0]; cbn.
    + split; auto.
    + split; [discriminate|]. intros [?|[?|[_ ?]]]; congruence.
  - split; [discriminate|]. intros [?|[?|[? _]]]; congruence.
Qed.

Lemma isThuthy_fromPointer (addr : Z) :
  0 < addr < 2 ^ 50 -> bfVMValue_isThuthy (bfVMValue_fromPointer addr) = true.
Proof.
  intros Haddr.
  destruct (bfVMValue_isThuthy (bfVMValue_fromPointer addr)) eqn:Ht; [reflexivity|].
  apply isThuthy_false_iff in Ht.
  assert (Hnil : bfVMValue_fromPointer addr <> k_VMValueNull) by (apply fromPointer_not_nil; lia).
  destruct Ht as [Ht|[Ht|[_ Ht]]].
  - apply Z.eqb_eq in Ht. contradiction.
  - apply Z.eqb_eq in Ht. contradiction.
  - rewrite asPointer_fromPointer in Ht by lia. lia.
Qed.

(** ** One turn of the interpreter *)

Lemma set_top_ip_eq vm frame ip :
  bfVMArray_back (frames vm) = Ok frame ->
  set_top_ip vm ip = Ok (goto_ip vm frame ip).
Proof. intros Hback. unfold set_top_ip. rewrite Hback. reflexivity. Qed.

(** The frame pointer of [frame_start] is good after an instruction that
    has left the capacity of the [frames] array alone. *)
Lemma frame_index_kept (vm vm1 : BifrostVM) :
  frames_capacity vm1 = frames_capacity vm ->
  frame_index vm1 (frames_back vm) = Ok (bfVMArray_size (frames vm) - 1).
Proof.
  intros Hcap. unfold frame_index, frames_back. cbn [ptr_capacity ptr_index].
  rewrite Hcap, Z.eqb_refl. reflexivity.
Qed.

Section StepFacts.
Context (fp : DoubleOps) (rt : Runtime).

Lemma exec_step_eq vm reference_frame frame fn inst :
  at_instruction vm frame fn inst ->
  exec_step fp rt vm reference_frame =
  res_bind (exec_switch fp rt vm frame fn inst)
    (fun flow =>
       match flow with
       | FlowBreak vm1 =>
           res_bind (frame_index vm1 (frames_back vm))
             (fun _ =>
                res_bind (bfVMArray_back (frames vm1))
                  (fun top =>
                     res_bind (set_top_ip vm1 (frame_ip top + 1)) (fun vm2 => Ok (inl vm2))))
       | FlowContinue vm1 => Ok (inl vm1)
       | FlowFrameStart vm1 => Ok (inl vm1)
       | FlowHalt vm1 =>
           res_bind (bfVMArray_back (frames vm1))
             (fun top =>
                res_bind (bfVM_popCallFrame vm1 top)
                  (fun vm2 =>
                     res_bind (frame_index vm2 reference_frame)
                       (fun reference_index =>
                          if reference_index <? bfVMArray_size (frames vm1) - 1
                          then Ok (inl vm2)
                          else Ok (inr (BIFROST_VM_ERROR_NONE, vm2)))))
       | FlowRuntimeError vm1 =>
           res_bind (bfVM_popAllCallFrames vm1 reference_frame)
             (fun vm2 => Ok (inr (BIFROST_VM_ERROR_RUNTIME, vm2)))
       end).
Proof.
  intros (Hback & Hfn & Hip & Hinst).
  unfold exec_step. rewrite Hback. cbn [res_bind]. rewrite Hfn. cbn [res_bind].
  apply Z.leb_le in Hip. rewrite Hip, Hinst. reflexivity.
Qed.

(** The switch on an instruction whose opcode field holds [op]. *)
Lemma switch_op (inst : bfInstruction) (op : bfInstructionOp) :
  bfInst_decodeOp inst = op_code op ->
  op_of_code (Z.land (bfInst_decodeOp inst) BIFROST_INST_OP_MASK) = Some op.
Proof. intros ->. destruct op; reflexivity. Qed.

Lemma exec_switch_JUMP_IF vm frame fn inst v (if_not : bool) :
  bfVMArray_back (frames vm) = Ok frame ->
  bfInst_decodeOp inst =
    op_code (if if_not then BIFROST_VM_OP_JUMP_IF_NOT else BIFROST_VM_OP_JUMP_IF) ->
  stack_read vm (frame_stack frame + bfInst_decodeRa inst) = Ok v ->
  exec_switch fp rt vm frame fn inst =
  if xorb if_not (bfVMValue_isThuthy v)
  then Ok (FlowContinue (goto_ip vm frame (frame_ip frame + bfInst_decodeRsBx inst)))
  else Ok (FlowBreak vm).
Proof.
  intros Hback Hop Hread. unfold exec_switch.
  rewrite (switch_op _ _ Hop).
  destruct if_not; cbn [res_bind]; rewrite Hread; cbn [res_bind];
    destruct (bfVMValue_isThuthy v); cbn [negb xorb];
    rewrite ?(set_top_ip_eq _ _ _ Hback); reflexivity.
Qed.

End StepFacts.

(** ** C2: the false constant *)

(** C2 (the code at the failing input).  The constant for false is built
    from the null tag, so it is the constant for nil: the value that
    [bfVMValue_fromBool false] and [bfVMValue_fromNull] both return
    satisfies [bfVMValue_isFalse] and [bfVMValue_isNull] at once, and the
    pattern that carries the false tag satisfies none of the five
    predicates. *)
Theorem C2_false_constant_is_nil :
  k_VMValueFalse = k_VMValueNull
  /\ bfVMValue_fromBool false = bfVMValue_fromNull
  /\ bfVMValue_isFalse k_VMValueNull = true
  /\ bfVMValue_isNull k_VMValueNull = true
  /\ (let v := Z.lor k_QuietNan k_VMValueTagFalse in
      bfVMValue_isNumber v = false /\ bfVMValue_isTrue v = false
      /\ bfVMValue_isFalse v = false /\ bfVMValue_isNull v = false
      /\ bfVMValue_isPointer v = false).
Proof. repeat split; reflexivity. Qed.

(** ** C4: truthiness and the conditional jumps *)

(** C4.  [bfVMValue_isThuthy] answers false exactly for nil, for false and
    for a pointer value whose payload is null; the number 0.0 and every
    pointer to an object (an empty string among them) are truthy; and a
    JUMP_IF (JUMP_IF_NOT) on [locals[A] = v] moves the ip by sBx exactly
    when [v] is truthy (not truthy), and to the next instruction
    otherwise. *)
Theorem C4_truthiness_drives_jumps (fp : DoubleOps) (rt : Runtime)
    (vm : BifrostVM) (reference_frame : FramePtr) (frame : BifrostVMStackFrame)
    (fn : BifrostObjFn) (inst : bfInstruction) (v : bfVMValue) (if_not : bool) :
  at_instruction vm frame fn inst ->
  bfInst_decodeOp inst =
    op_code (if if_not then BIFROST_VM_OP_JUMP_IF_NOT else BIFROST_VM_OP_JUMP_IF) ->
  stack_read vm (frame_stack frame + bfInst_decodeRa inst) = Ok v ->
  (forall w : bfVMValue,
      bfVMValue_isThuthy w = false <->
      bfVMValue_isNull w = true \/ bfVMValue_isFalse w = true
      \/ (bfVMValue_isPointer w = true /\ bfVMValue_asPointer w = 0))
  /\ bfVMValue_isThuthy (bfVMValue_fromNumber 0) = true
  /\ (forall addr : Z, 0 < addr < 2 ^ 48 ->
        bfVMValue_isThuthy (bfVMValue_fromPointer addr) = true)
  /\ exec_step fp rt vm reference_frame =
     Ok (inl (goto_ip vm frame
                (if xorb if_not (bfVMValue_isThuthy v)
                 then frame_ip frame + bfInst_decodeRsBx inst
                 else frame_ip frame + 1))).
Proof.
  intros Hat Hop Hread.
  split; [exact isThuthy_false_iff|].
  split; [reflexivity|].
  split; [intros addr Haddr; apply isThuthy_fromPointer; lia|].
  rewrite (exec_step_eq fp rt _ _ _ _ _ Hat).
  destruct Hat as (Hback & _).
  rewrite (exec_switch_JUMP_IF fp rt _ _ _ _ _ _ Hback Hop Hread).
  destruct (xorb if_not (bfVMValue_isThuthy v)); cbn [res_bind].
  - reflexivity.
  - rewrite (frame_index_kept vm vm eq_refl), Hback. cbn [res_bind].
    rewrite (set_top_ip_eq _ _ _ Hback). reflexivity.
Qed.

(** ** Instruction words *)

Lemma decodeOp_ABC (op a b c : Z) :
  bfInst_decodeOp (BIFROST_MAKE_INST_OP_ABC op a b c) = Z.land op (Z.ones 5).
Proof.
  unfold bfInst_decodeOp, BIFROST_MAKE_INST_OP_ABC, BIFROST_MAKE_INST_OP,
    BIFROST_MAKE_INST_RC, wrap32.
  unfold BIFROST_INST_RA_OFFSET, BIFROST_INST_RB_OFFSET, BIFROST_INST_RC_OFFSET.
  change BIFROST_INST_OP_MASK with (Z.ones 5).
  change BIFROST_INST_RA_MASK with (Z.ones 9).
  change BIFROST_INST_RB_MASK with (Z.ones 9).
  change BIFROST_INST_RC_MASK with (Z.ones 9).
  Z.bitblast.
Qed.

Lemma decodeOp_ABx (op a bx : Z) :
  bfInst_decodeOp (BIFROST_MAKE_INST_OP_ABx op a bx) = Z.land op (Z.ones 5).
Proof.
  unfold bfInst_decodeOp, BIFROST_MAKE_INST_OP_ABx, BIFROST_MAKE_INST_OP, wrap32.
  unfold BIFROST_INST_RA_OFFSET, BIFROST_INST_RBx_OFFSET.
  change BIFROST_INST_OP_MASK with (Z.ones 5).
  change BIFROST_INST_RA_MASK with (Z.ones 9).
  change BIFROST_INST_RBx_MASK with (Z.ones 18).
  Z.bitblast.
Qed.

Lemma decodeOp_AsBx (op a bx : Z) :
  bfInst_decodeOp (BIFROST_MAKE_INST_OP_AsBx op a bx) = Z.land op (Z.ones 5).
Proof.
  unfold bfInst_decodeOp, BIFROST_MAKE_INST_OP_AsBx, BIFROST_MAKE_INST_OP, wrap32.
  unfold BIFROST_INST_RA_OFFSET, BIFROST_INST_RsBx_OFFSET.
  change BIFROST_INST_OP_MASK with (Z.ones 5).
  change BIFROST_INST_RA_MASK with (Z.ones 9).
  change BIFROST_INST_RsBx_MASK with (Z.ones 18).
  Z.bitblast.
Qed.

Lemma decodeRBx_AsBx (op a bx : Z) :
  bfInst_decodeRBx (BIFROST_MAKE_INST_OP_AsBx op a bx)
  = Z.land (bx + BIFROST_INST_RsBx_MAX) (Z.ones 18).
Proof.
  unfold bfInst_decodeRBx, BIFROST_MAKE_INST_OP_AsBx, BIFROST_MAKE_INST_OP, wrap32.
  unfold BIFROST_INST_RA_OFFSET, BIFROST_INST_RsBx_OFFSET, BIFROST_INST_RBx_OFFSET.
  change BIFROST_INST_OP_MASK with (Z.ones 5).
  change BIFROST_INST_RA_MASK with (Z.ones 9).
  change BIFROST_INST_RsBx_MASK with (Z.ones 18).
  change BIFROST_INST_RBx_MASK with (Z.ones 18).
  Z.bitblast.
Qed.

Lemma decodeRBx_ABx (op a bx : Z) :
  bfInst_decodeRBx (BIFROST_MAKE_INST_OP_ABx op a bx) = Z.land bx (Z.ones 18).
Proof.
  unfold bfInst_decodeRBx, BIFROST_MAKE_INST_OP_ABx, BIFROST_MAKE_INST_OP, wrap32.
  unfold BIFROST_INST_RA_OFFSET, BIFROST_INST_RBx_OFFSET.
  change BIFROST_INST_OP_MASK with (Z.ones 5).
  change BIFROST_INST_RA_MASK with (Z.ones 9).
  change BIFROST_INST_RBx_MASK with (Z.ones 18).
  Z.bitblast.
Qed.

Lemma decodeRa_ABx (op a bx : Z) :
  bfInst_decodeRa (BIFROST_MAKE_INST_OP_ABx op a bx) = Z.land a (Z.ones 9).
Proof.
  unfold bfInst_decodeRa, BIFROST_MAKE_INST_OP_ABx, BIFROST_MAKE_INST_OP, wrap32.
  unfold BIFROST_INST_RA_OFFSET, BIFROST_INST_RBx_OFFSET.
  change BIFROST_INST_OP_MASK with (Z.ones 5).
  change BIFROST_INST_RA_MASK with (Z.ones 9).
  change BIFROST_INST_RBx_MASK with (Z.ones 18).
  Z.bitblast.
Qed.

Lemma op_code_fits (op : bfInstructionOp) : Z.land (op_code op) (Z.ones 5) = op_code op.
Proof. destruct op; reflexivity. Qed.

(** ** C1: the opcodes without an arm *)

Section Dispatch.
Context (fp : DoubleOps) (rt : Runtime).

Lemma exec_switch_default vm frame fn inst op :
  without_arm op = true ->
  bfInst_decodeOp inst = op_code op ->
  exec_switch fp rt vm frame fn inst = BF_RUNTIME_ERROR vm (MsgInvalidOp (op_code op)).
Proof.
  intros Hno Hop. unfold exec_switch.
  rewrite (switch_op _ _ Hop), Hop.
  destruct op; try discriminate Hno; reflexivity.
Qed.

End Dispatch.

(** C1 (the code at the failing input).  The switch of
    [bfVM_execTopFrame] has no arm for CMP_LE: whatever its operands, a
    CMP_LE instruction takes the default arm, which reports
    "Invalid OP: 15" as a runtime error; nothing is stored in locals[A] and
    the call returns BIFROST_VM_ERROR_RUNTIME.  (MATH_MOD, MATH_POW and
    MATH_INV take the same arm.)  The lexer does make the token
    BIFROST_TOKEN_CTRL_LE for the two characters of the operator, and
    [Expr_parseBinOp] does choose CMP_LE for it, while CMP_LT, the sibling
    opcode, is executed. *)
Theorem C1_CMP_LE_has_no_arm :
  (forall fp rt vm frame fn a b c,
      exec_switch fp rt vm frame fn
        (BIFROST_MAKE_INST_OP_ABC (op_code BIFROST_VM_OP_CMP_LE) a b c)
      = BF_RUNTIME_ERROR vm (MsgInvalidOp 15))
  /\ (forall fp rt,
         run_summary
           (bfVM_execTopFrame fp rt 10
              (demo_vm 0 (binary_then_return BIFROST_VM_OP_CMP_LE) [0; 0; 0; 0]) 4096 0)
         = Ok (BIFROST_VM_ERROR_RUNTIME, [0; 0; 0; 0], MsgInvalidOp 15))
  /\ run_summary
       (bfVM_execTopFrame idle_fp idle_rt 10
          (demo_vm 0 (binary_then_return BIFROST_VM_OP_CMP_LT) [0; 0; 1; 0]) 4096 0)
     = Ok (BIFROST_VM_ERROR_NONE, [k_VMValueTrue; 0; 1; 0], MsgNone)
  /\ bfLexer_operatorToken (chr "<") (chr "=")
     = Some (BIFROST_TOKEN_MAKE_STR BIFROST_TOKEN_CTRL_LE ["<"; "="]%char, true)
  /\ Expr_parseBinOp_inst (BIFROST_TOKEN_MAKE_STR BIFROST_TOKEN_CTRL_LE ["<"; "="]%char)
     = (BIFROST_VM_OP_CMP_LE, false)
  /\ Forall (fun op => without_arm op = true)
       [BIFROST_VM_OP_MATH_MOD; BIFROST_VM_OP_MATH_POW;
        BIFROST_VM_OP_MATH_INV; BIFROST_VM_OP_CMP_LE].
Proof.
  split.
  { intros. apply (exec_switch_default fp rt _ _ _ _ BIFROST_VM_OP_CMP_LE).
    - reflexivity.
    - rewrite decodeOp_ABC. apply op_code_fits. }
  split; [intros; vm_compute; reflexivity|].
  split; [vm_compute; reflexivity|].
  split; [reflexivity|].
  split; [reflexivity|].
  repeat constructor.
Qed.

(** ** C3: arithmetic on values that are not numbers *)

Section Arithmetic.
Context (fp : DoubleOps) (rt : Runtime).

Lemma mul_div_not_numbers (lhs rhs : bfVMValue) :
  bfVMValue_isNumber lhs && bfVMValue_isNumber rhs = false ->
  bfVMValue_mul fp lhs rhs = bfVMValue_fromNull
  /\ bfVMValue_div fp lhs rhs = bfVMValue_fromNull
  /\ bfVMValue_sub fp lhs rhs = bfVMValue_fromNull.
Proof.
  intros H. unfold bfVMValue_mul, bfVMValue_div, bfVMValue_sub. rewrite H. auto.
Qed.

(** MATH_MUL and MATH_DIV store nil and go on to the next instruction. *)
Lemma exec_switch_MUL_DIV vm frame fn inst op lhs rhs :
  op = BIFROST_VM_OP_MATH_MUL \/ op = BIFROST_VM_OP_MATH_DIV ->
  bfInst_decodeOp inst = op_code op ->
  stack_read vm (frame_stack frame + bfInst_decodeRb inst) = Ok lhs ->
  stack_read vm (frame_stack frame + bfInst_decodeRc inst) = Ok rhs ->
  bfVMValue_isNumber lhs && bfVMValue_isNumber rhs = false ->
  exec_switch fp rt vm frame fn inst =
  res_bind (stack_write vm (frame_stack frame + bfInst_decodeRa inst) bfVMValue_fromNull)
           (fun vm1 => Ok (FlowBreak vm1)).
Proof.
  intros Hmd Hop Hl Hr Hnum. unfold exec_switch.
  rewrite (switch_op _ _ Hop).
  destruct (mul_div_not_numbers lhs rhs Hnum) as (Hmul & Hdiv & _).
  destruct Hmd as [-> | ->]; unfold exec_binary; rewrite Hl, Hr; cbn [res_bind];
    rewrite ?Hmul, ?Hdiv; reflexivity.
Qed.

(** MATH_SUB checks its operands first. *)
Lemma exec_switch_SUB vm frame fn inst lhs rhs :
  bfInst_decodeOp inst = op_code BIFROST_VM_OP_MATH_SUB ->
  stack_read vm (frame_stack frame + bfInst_decodeRb inst) = Ok lhs ->
  stack_read vm (frame_stack frame + bfInst_decodeRc inst) = Ok rhs ->
  bfVMValue_isNumber lhs && bfVMValue_isNumber rhs = false ->
  exec_switch fp rt vm frame fn inst = BF_RUNTIME_ERROR vm MsgSubNonNumber.
Proof.
  intros Hop Hl Hr Hnum. unfold exec_switch.
  rewrite (switch_op _ _ Hop). cbn [res_bind]. rewrite Hl, Hr. cbn [res_bind].
  apply andb_false_iff in Hnum. destruct Hnum as [-> | ->]; cbn.
  - reflexivity.
  - rewrite orb_true_r. reflexivity.
Qed.

End Arithmetic.

(** C3 (the code at the failing input).  With nil in locals[1] and the
    number 0.0 in locals[2], MATH_SUB 0,1,2 signals the runtime error
    "Subtraction is not allowed on non number values", but MATH_MUL 0,1,2
    and MATH_DIV 0,1,2 signal nothing: they store nil in locals[0], the next
    instruction runs and the call returns BIFROST_VM_ERROR_NONE.  The same
    holds for every pair of operands that are not both numbers. *)
Theorem C3_MUL_DIV_store_nil :
  (forall fp rt op,
      op = BIFROST_VM_OP_MATH_MUL \/ op = BIFROST_VM_OP_MATH_DIV ->
      run_summary
        (bfVM_execTopFrame fp rt 10
           (demo_vm 0 (binary_then_return op) [0; k_VMValueNull; 0; 0]) 4096 0)
      = Ok (BIFROST_VM_ERROR_NONE, [k_VMValueNull; k_VMValueNull; 0; 0], MsgNone))
  /\ (forall fp rt,
         run_summary
           (bfVM_execTopFrame fp rt 10
              (demo_vm 0 (binary_then_return BIFROST_VM_OP_MATH_SUB) [0; k_VMValueNull; 0; 0])
              4096 0)
         = Ok (BIFROST_VM_ERROR_RUNTIME, [0; k_VMValueNull; 0; 0], MsgSubNonNumber))
  /\ (forall fp rt vm frame fn inst op lhs rhs,
         op = BIFROST_VM_OP_MATH_MUL \/ op = BIFROST_VM_OP_MATH_DIV ->
         bfInst_decodeOp inst = op_code op ->
         stack_read vm (frame_stack frame + bfInst_decodeRb inst) = Ok lhs ->
         stack_read vm (frame_stack frame + bfInst_decodeRc inst) = Ok rhs ->
         bfVMValue_isNumber lhs && bfVMValue_isNumber rhs = false ->
         exec_switch fp rt vm frame fn inst =
         res_bind (stack_write vm (frame_stack frame + bfInst_decodeRa inst) bfVMValue_fromNull)
                  (fun vm1 => Ok (FlowBreak vm1))).
Proof.
  split; [intros fp rt op [-> | ->]; vm_compute; reflexivity|].
  split; [intros; vm_compute; reflexivity|].
  intros. eapply exec_switch_MUL_DIV; eauto.
Qed.

(** The step of C3 at a concrete state: nil times 0.0. *)
Lemma C3_MUL_DIV_store_nil_witness :
  exec_switch idle_fp idle_rt
    (demo_running 0 (binary_then_return BIFROST_VM_OP_MATH_MUL) [0; k_VMValueNull; 0; 0])
    {| frame_fn := 4096; frame_ip := 0; frame_old_stack := 0; frame_stack := 0 |}
    (demo_fn 0 (binary_then_return BIFROST_VM_OP_MATH_MUL))
    (BIFROST_MAKE_INST_OP_ABC (op_code BIFROST_VM_OP_MATH_MUL) 0 1 2)
  = Ok (FlowBreak
          (demo_running 0 (binary_then_return BIFROST_VM_OP_MATH_MUL)
             [k_VMValueNull; k_VMValueNull; 0; 0])).
Proof.
  destruct C3_MUL_DIV_store_nil as (_ & _ & Hstep).
  rewrite (Hstep idle_fp idle_rt _ _ _ _ BIFROST_VM_OP_MATH_MUL k_VMValueNull 0);
    try reflexivity.
  left. reflexivity.
Defined.

(** ** C7: the arity check of scripted functions *)

Lemma arity_mismatch_variadic (num_args : Z) : arity_mismatch (-1) num_args = false.
Proof. reflexivity. Qed.

Lemma arity_mismatch_fixed (arity num_args : Z) :
  0 <= arity -> (arity_mismatch arity num_args = true <-> num_args <> arity).
Proof.
  intros Harity. unfold arity_mismatch.
  destruct (Z.geb_spec arity 0); [|lia].
  destruct (Z.eqb_spec num_args arity); cbn; split; intros; congruence || lia.
Qed.

Section Calls.
Context (fp : DoubleOps) (rt : Runtime).

Lemma deref_fn_function vm callee fn :
  heap vm !! callee = Some (ObjFn fn) -> deref_fn vm callee = Ok fn.
Proof. intros H. unfold deref_fn. rewrite H. reflexivity. Qed.

(** The frame that a call of the function at [callee] pushes. *)
Lemma pushCallFrame_function vm callee fn new_start :
  heap vm !! callee = Some (ObjFn fn) -> callee <> 0 ->
  exists vm',
    bfVM_pushCallFrame vm callee new_start = Ok vm'
    /\ frames vm' = frames vm ++ [{| frame_fn := callee; frame_ip := 0;
                                     frame_old_stack := stack_top vm;
                                     frame_stack := new_start |}]
    /\ heap vm' = heap vm.
Proof.
  intros Hfn Hnz. unfold bfVM_pushCallFrame.
  destruct (Z.eqb_spec callee 0) as [|_]; [contradiction|]. cbn [negb].
  rewrite (deref_fn_function _ _ _ Hfn). cbn [res_bind].
  destruct (bfVM_ensureStackspace vm _ _) as [s resized] eqn:Hens.
  assert (Hs : frames s = frames vm /\ heap s = heap vm).
  { unfold bfVM_ensureStackspace in Hens.
    destruct (_ <? _) in Hens; inversion Hens; subst; auto. }
  destruct Hs as [Hfs Hhs].
  cbn [res_bind]. eexists. split; [reflexivity|].
  destruct resized; cbn; rewrite Hfs, ?Hhs; auto.
Qed.

(** The end of the CALL_FN arm, shared by a direct call and by the call of
    the [call] method of a class. *)
Lemma exec_CALL_FN_invoke_function vm frame callee fn new_stack num_args :
  bfVMArray_back (frames vm) = Ok frame ->
  heap vm !! callee = Some (ObjFn fn) ->
  exec_CALL_FN_invoke rt vm frame callee new_stack num_args =
  if arity_mismatch (fn_arity fn) num_args
  then BF_RUNTIME_ERROR vm (MsgFunctionArity num_args (fn_arity fn))
  else res_bind (bfVM_pushCallFrame (goto_ip vm frame (frame_ip frame + 1)) callee new_stack)
                (fun vm2 => Ok (FlowFrameStart vm2)).
Proof.
  intros Hback Hfn.
  unfold exec_CALL_FN_invoke, deref. rewrite Hfn. cbn [defined res_bind].
  fold (arity_mismatch (fn_arity fn) num_args).
  destruct (arity_mismatch (fn_arity fn) num_args); [reflexivity|].
  rewrite (set_top_ip_eq _ _ _ Hback). reflexivity.
Qed.

(** CALL_FN on a value that points to a scripted function. *)
Lemma exec_CALL_FN_function vm frame inst_ra inst_rb inst_rc callee fn :
  bfVMArray_back (frames vm) = Ok frame ->
  heap vm !! callee = Some (ObjFn fn) -> 0 < callee < 2 ^ 50 ->
  stack_read vm (frame_stack frame + inst_rb) = Ok (bfVMValue_fromPointer callee) ->
  exec_CALL_FN rt vm frame inst_ra inst_rb inst_rc =
  if arity_mismatch (fn_arity fn) inst_rc
  then BF_RUNTIME_ERROR vm (MsgFunctionArity inst_rc (fn_arity fn))
  else res_bind (bfVM_pushCallFrame (goto_ip vm frame (frame_ip frame + 1)) callee
                                    (frame_stack frame + inst_ra))
                (fun vm2 => Ok (FlowFrameStart vm2)).
Proof.
  intros Hback Hfn Hcallee Hread. unfold exec_CALL_FN.
  rewrite Hread. cbn [res_bind].
  rewrite isPointer_fromPointer by lia.
  rewrite asPointer_fromPointer by lia.
  unfold deref. rewrite Hfn. cbn [defined res_bind obj_clz].
  rewrite Hfn. cbn [defined res_bind].
  apply exec_CALL_FN_invoke_function; assumption.
Qed.

(** The loop returns BIFROST_VM_ERROR_NONE or BIFROST_VM_ERROR_RUNTIME and
    nothing else. *)
Lemma exec_step_codes vm reference_frame err vm' :
  exec_step fp rt vm reference_frame = Ok (inr (err, vm')) ->
  err = BIFROST_VM_ERROR_NONE \/ err = BIFROST_VM_ERROR_RUNTIME.
Proof.
  unfold exec_step.
  destruct (bfVMArray_back (frames vm)) as [frame| | |]; cbn [res_bind]; try discriminate.
  destruct (deref_fn vm (frame_fn frame)) as [fn| | |]; cbn [res_bind]; try discriminate.
  destruct (if 0 <=? frame_ip frame then _ else _) as [inst| | |];
    cbn [res_bind]; try discriminate.
  destruct (exec_switch fp rt vm frame fn inst) as [flow| | |];
    cbn [res_bind]; try discriminate.
  destruct flow as [vm1|vm1|vm1|vm1|vm1].
  - destruct (frame_index vm1 _); cbn [res_bind]; try discriminate.
    destruct (bfVMArray_back (frames vm1)); cbn [res_bind]; try discriminate.
    destruct (set_top_ip vm1 _); cbn [res_bind]; discriminate.
  - discriminate.
  - discriminate.
  - destruct (bfVMArray_back (frames vm1)); cbn [res_bind]; try discriminate.
    destruct (bfVM_popCallFrame vm1 _) as [vm2| | |]; cbn [res_bind]; try discriminate.
    destruct (frame_index vm2 _); cbn [res_bind]; try discriminate.
    destruct (_ <? _); [discriminate|].
    intros H. inversion H. auto.
  - destruct (bfVM_popAllCallFrames vm1 _); cbn [res_bind]; try discriminate.
    intros H. inversion H. auto.
Qed.

Lemma exec_loop_codes fuel vm reference_frame err vm' :
  exec_loop fp rt fuel vm reference_frame = Ok (err, vm') ->
  err = BIFROST_VM_ERROR_NONE \/ err = BIFROST_VM_ERROR_RUNTIME.
Proof.
  revert vm. induction fuel as [|fuel IH]; intros vm; cbn [exec_loop]; [discriminate|].
  destruct (exec_step fp rt vm reference_frame) as [[vm1|[err1 vm1]]| | |] eqn:Hstep;
    cbn [res_bind]; try discriminate.
  - apply IH.
  - intros H. inversion H. subst. eapply exec_step_codes. exact Hstep.
Qed.

Lemma execTopFrame_codes fuel vm fn_to_run new_start err vm' :
  bfVM_execTopFrame fp rt fuel vm fn_to_run new_start = Ok (err, vm') ->
  err = BIFROST_VM_ERROR_NONE \/ err = BIFROST_VM_ERROR_RUNTIME.
Proof.
  unfold bfVM_execTopFrame.
  destruct (bfVM_pushCallFrame vm fn_to_run new_start); cbn [res_bind]; try discriminate.
  apply exec_loop_codes.
Qed.

(** [bfVM_call] on a slot that holds a scripted function. *)
Lemma bfVM_call_function fuel vm idx args_start num_args callee fn :
  heap vm !! callee = Some (ObjFn fn) -> 0 < callee < 2 ^ 50 ->
  idx < bfVMArray_size (stack vm) ->
  stack_read vm (stack_top vm + idx) = Ok (bfVMValue_fromPointer callee) ->
  bfVM_call fp rt fuel vm idx args_start num_args =
  if arity_mismatch (fn_arity fn) num_args
  then Ok (BIFROST_VM_ERROR_FUNCTION_ARITY_MISMATCH, vm)
  else bfVM_execTopFrame fp rt fuel vm callee (stack_top vm + args_start).
Proof.
  intros Hfn Hcallee Hidx Hread. unfold bfVM_call, bfVM_assertStackIndex.
  apply Z.ltb_lt in Hidx. rewrite Hidx. cbn [LibC_assert res_bind].
  rewrite Hread. cbn [res_bind].
  rewrite isPointer_fromPointer by lia. cbn [LibC_assert res_bind].
  rewrite asPointer_fromPointer by lia.
  unfold deref. rewrite Hfn. cbn [defined res_bind].
  unfold arity_mismatch.
  destruct (Z.geb_spec (fn_arity fn) 0), (Z.ltb_spec (fn_arity fn) 0); try lia; cbn.
  - destruct (Z.eqb_spec (fn_arity fn) num_args), (Z.eqb_spec num_args (fn_arity fn));
      try congruence; reflexivity.
  - reflexivity.
Qed.

End Calls.

(** Unwinding to the reference frame, through a pointer that is still
    good, keeps the frames below it and nothing else of the call stack. *)
Lemma popAllCallFrames_frames vm reference_frame entry :
  ptr_capacity reference_frame = frames_capacity vm ->
  0 <= ptr_index reference_frame ->
  frames vm !! Z.to_nat (ptr_index reference_frame) = Some entry ->
  exists vm1,
    bfVM_popAllCallFrames vm reference_frame = Ok vm1
    /\ frames vm1 = take (Z.to_nat (ptr_index reference_frame)) (frames vm)
    /\ stack_top vm1 = frame_old_stack entry
    /\ stack vm1 = stack vm
    /\ heap vm1 = heap vm.
Proof.
  intros Hgood Hpos Hentry. unfold bfVM_popAllCallFrames, frame_index.
  rewrite Hgood, Z.eqb_refl. cbn [res_bind].
  destruct (Z.leb_spec 0 (ptr_index reference_frame)) as [_|]; [|lia].
  rewrite Hentry. cbn [defined res_bind].
  eexists. split; [reflexivity|].
  set (report := fun (v : BifrostVM) (e : Z * BifrostVMStackFrame) => _).
  assert (Hfold : forall l v, frames (fold_left report l v) = frames v
                              /\ stack (fold_left report l v) = stack v
                              /\ heap (fold_left report l v) = heap v).
  { induction l as [|e l IH]; intros v; cbn [fold_left]; [auto|].
    destruct (IH (report v e)) as (-> & -> & ->). auto. }
  apply lookup_lt_Some in Hentry.
  assert (Hrep : forall fs : list BifrostVMStackFrame, fs = frames vm ->
            bfVMArray_resize entry fs (ptr_index reference_frame)
            = take (Z.to_nat (ptr_index reference_frame)) fs).
  { intros fs ->. unfold bfVMArray_resize.
    replace (Z.to_nat (ptr_index reference_frame) - length (frames vm))%nat with 0%nat by lia.
    apply app_nil_r. }
  destruct (has_error_fn vm); cbn.
  - destruct (Hfold (frames_from vm (ptr_index reference_frame))
                (log_event
                   (log_event vm (EvErrorFn BIFROST_VM_ERROR_STACK_TRACE_BEGIN (-1)))
                   (EvErrorFn BIFROST_VM_ERROR_STACK_TRACE (-1)))) as (Hf & Hs & Hh).
    cbn in Hf, Hs, Hh. rewrite Hf, Hs, Hh. rewrite (Hrep _ eq_refl). auto.
  - rewrite (Hrep _ eq_refl). auto.
Qed.

(** C7.  For the scripted function [fn]: an arity of -1 accepts every
    argument count; an arity of 0 or more is mismatched exactly by the
    counts that differ from it.
    In a running function, on a mismatch CALL_FN A,B,C signals the
    runtime error for the arity without pushing a frame for the function,
    and that turn of the interpreter never goes on to another instruction;
    when the pointer to the reference frame is still good the run ends
    there with BIFROST_VM_ERROR_RUNTIME, unwound to the reference frame.
    Without a mismatch CALL_FN pushes the frame of the function, at its
    first instruction and with its locals at locals[A] of the caller.
    From the host, whatever the call stack is (empty when no script runs),
    [bfVM_call] on a mismatch returns
    BIFROST_VM_ERROR_FUNCTION_ARITY_MISMATCH and leaves the VM as it was;
    without a mismatch it runs the function and never returns that code.
    When CALL_FN reaches the function as the [call] method of a class, the
    same test is made on the count that includes the instance. *)
Theorem C7_arity_is_checked_before_the_call (fp : DoubleOps) (rt : Runtime) (fuel : nat)
    (vm : BifrostVM) (callee : Z) (fn : BifrostObjFn) :
  heap vm !! callee = Some (ObjFn fn) ->
  0 < callee < 2 ^ 48 ->
  (fn_arity fn = -1 -> forall n, arity_mismatch (fn_arity fn) n = false)
  /\ (0 <= fn_arity fn ->
      forall n, arity_mismatch (fn_arity fn) n = true <-> n <> fn_arity fn)
  /\ (forall (frame : BifrostVMStackFrame) (caller : BifrostObjFn) (inst : bfInstruction)
             (reference_frame : FramePtr),
         at_instruction vm frame caller inst ->
         bfInst_decodeOp inst = op_code BIFROST_VM_OP_CALL_FN ->
         stack_read vm (frame_stack frame + bfInst_decodeRb inst)
         = Ok (bfVMValue_fromPointer callee) ->
         (arity_mismatch (fn_arity fn) (bfInst_decodeRc inst) = true ->
          exec_switch fp rt vm frame caller inst
          = BF_RUNTIME_ERROR vm (MsgFunctionArity (bfInst_decodeRc inst) (fn_arity fn))
          /\ (forall vm1, exec_step fp rt vm reference_frame <> Ok (inl vm1))
          /\ (forall entry,
                 ptr_capacity reference_frame = frames_capacity vm ->
                 0 <= ptr_index reference_frame ->
                 frames vm !! Z.to_nat (ptr_index reference_frame) = Some entry ->
                 exists vm1,
                   exec_loop fp rt (S fuel) vm reference_frame
                   = Ok (BIFROST_VM_ERROR_RUNTIME, vm1)
                   /\ frames vm1 = take (Z.to_nat (ptr_index reference_frame)) (frames vm)
                   /\ stack vm1 = stack vm))
         /\ (arity_mismatch (fn_arity fn) (bfInst_decodeRc inst) = false ->
             exists vm1,
               exec_step fp rt vm reference_frame = Ok (inl vm1)
               /\ frames vm1 =
                  removelast (frames vm)
                  ++ [frame_at frame (frame_ip frame + 1);
                      {| frame_fn := callee; frame_ip := 0;
                         frame_old_stack := stack_top vm;
                         frame_stack := frame_stack frame + bfInst_decodeRa inst |}]))
  /\ (forall idx args_start num_args : Z,
         idx < bfVMArray_size (stack vm) ->
         stack_read vm (stack_top vm + idx) = Ok (bfVMValue_fromPointer callee) ->
         (arity_mismatch (fn_arity fn) num_args = true ->
          bfVM_call fp rt fuel vm idx args_start num_args
          = Ok (BIFROST_VM_ERROR_FUNCTION_ARITY_MISMATCH, vm))
         /\ (arity_mismatch (fn_arity fn) num_args = false ->
             bfVM_call fp rt fuel vm idx args_start num_args
             = bfVM_execTopFrame fp rt fuel vm callee (stack_top vm + args_start)
             /\ forall vm1,
                  bfVM_call fp rt fuel vm idx args_start num_args
                  <> Ok (BIFROST_VM_ERROR_FUNCTION_ARITY_MISMATCH, vm1)))
  /\ (forall vm' frame new_stack n,
         bfVMArray_back (frames vm') = Ok frame ->
         heap vm' !! callee = Some (ObjFn fn) ->
         exec_CALL_FN_invoke rt vm' frame callee new_stack n
         = if arity_mismatch (fn_arity fn) n
           then BF_RUNTIME_ERROR vm' (MsgFunctionArity n (fn_arity fn))
           else res_bind (bfVM_pushCallFrame (goto_ip vm' frame (frame_ip frame + 1))
                                             callee new_stack)
                         (fun vm2 => Ok (FlowFrameStart vm2))).
Proof.
  intros Hfn Hcallee.
  assert (Hcallee' : 0 < callee < 2 ^ 50) by lia.
  split; [intros -> n; apply arity_mismatch_variadic|].
  split; [intros Hfixed n; apply arity_mismatch_fixed; exact Hfixed|].
  split.
  { intros frame caller inst reference_frame Hat Hop Hread.
    pose proof Hat as (Hback & _).
    assert (Hswitch :
              exec_switch fp rt vm frame caller inst =
              exec_CALL_FN rt vm frame (bfInst_decodeRa inst) (bfInst_decodeRb inst)
                           (bfInst_decodeRc inst)).
    { unfold exec_switch. rewrite (switch_op _ _ Hop). reflexivity. }
    rewrite (exec_CALL_FN_function rt _ _ _ _ _ _ _ Hback Hfn Hcallee' Hread) in Hswitch.
    split.
    - intros Hmis. rewrite Hmis in Hswitch. split; [exact Hswitch|]. split.
      + intros vm1. rewrite (exec_step_eq fp rt _ _ _ _ _ Hat), Hswitch.
        unfold BF_RUNTIME_ERROR. cbn [res_bind].
        destruct (bfVM_popAllCallFrames _ reference_frame); cbn [res_bind]; discriminate.
      + intros entry Hgood Href Hentry.
        destruct (popAllCallFrames_frames
                    (set_last_error vm (MsgFunctionArity (bfInst_decodeRc inst) (fn_arity fn)))
                    reference_frame entry Hgood Href Hentry)
          as (vm1 & Hpop & Hfs & _ & Hst & _).
        exists vm1. split; [|split; assumption].
        cbn [exec_loop]. rewrite (exec_step_eq fp rt _ _ _ _ _ Hat), Hswitch.
        unfold BF_RUNTIME_ERROR. cbn [res_bind]. rewrite Hpop. reflexivity.
    - intros Hok. rewrite Hok in Hswitch.
      assert (Hfn' : heap (goto_ip vm frame (frame_ip frame + 1)) !! callee = Some (ObjFn fn))
        by exact Hfn.
      destruct (pushCallFrame_function _ _ _ (frame_stack frame + bfInst_decodeRa inst) Hfn'
                  ltac:(lia)) as (vm1 & Hpush & Hfs & _).
      exists vm1. split.
      + rewrite (exec_step_eq fp rt _ _ _ _ _ Hat), Hswitch, Hpush. reflexivity.
      + rewrite Hfs. cbn. rewrite <- app_assoc. reflexivity. }
  split.
  { intros idx args_start num_args Hidx Hslot.
    rewrite (bfVM_call_function fp rt fuel _ _ args_start num_args _ _ Hfn Hcallee' Hidx Hslot).
    split.
    - intros ->. reflexivity.
    - intros ->. split; [reflexivity|].
      intros vm1 Hcall. apply execTopFrame_codes in Hcall. destruct Hcall; discriminate. }
  intros vm' frame new_stack n Hback' Hfn'. apply exec_CALL_FN_invoke_function; assumption.
Qed.

(** ** Comparing a string with itself *)

Lemma LibC_strncmp_refl (s : bytes) (n : nat) : LibC_strncmp s s n = 0.
Proof.
  revert s. induction n as [|n IH]; intros s; cbn [LibC_strncmp]; [reflexivity|].
  rewrite Z.eqb_refl. destruct (hd 0 s =? 0); [reflexivity|apply IH].
Qed.

Lemma bfVMString_ccmpn_refl (s : bytes) : bfVMString_ccmpn s s (bfVMString_length s) = 0.
Proof.
  unfold bfVMString_ccmpn.
  destruct (Z.gtb_spec (bfVMString_length s) (bfVMString_length s)); [lia|].
  apply LibC_strncmp_refl.
Qed.

(** ** C8: symbol ids *)

Lemma LibC_strncmp_zero_iff (s t : bytes) :
  length s = length t ->
  LibC_strncmp s t (length s) = 0 <-> c_string s = c_string t.
Proof.
  revert t. induction s as [|x s IH]; intros [|y t] Hlen; try discriminate Hlen.
  - split; reflexivity.
  - cbn [length LibC_strncmp hd tl c_string].
    destruct (Z.eqb_spec x y) as [->|Hxy].
    + destruct (Z.eqb_spec y 0) as [_|Hy]; [split; reflexivity|].
      rewrite IH by (cbn in Hlen; lia).
      split; [intros ->; reflexivity|intros H; inversion H; reflexivity].
    + split; [lia|].
      destruct (Z.eqb_spec x 0) as [->|Hx], (Z.eqb_spec y 0) as [->|Hy];
        try discriminate; try congruence;
        intros H; inversion H; contradiction.
Qed.

Lemma c_string_no_NUL (s : bytes) : Forall (fun c => c <> 0) s -> c_string s = s.
Proof.
  induction 1 as [|c s Hc _ IH]; [reflexivity|].
  cbn. destruct (Z.eqb_spec c 0); [contradiction|]. rewrite IH. reflexivity.
Qed.

Lemma INVALID_INDEX_value : BIFROST_ARRAY_INVALID_INDEX = 2 ^ 64 - 1.
Proof. reflexivity. Qed.

(** The linear search, read as the first position that matches. *)
Lemma bfVMArray_find_from_spec {A K : Type} (compare : K -> A -> bool) (key : K)
    (self : list A) (i : Z) :
  bfVMArray_find_from compare key self i =
  match list_find (fun x => compare key x = true) self with
  | Some (k, _) => i + Z.of_nat k
  | None => BIFROST_ARRAY_INVALID_INDEX
  end.
Proof.
  revert i. induction self as [|x rest IH]; intros i; cbn [bfVMArray_find_from list_find].
  - reflexivity.
  - destruct (compare key x) eqn:Hcmp.
    + rewrite decide_True by reflexivity. cbn. lia.
    + rewrite decide_False by discriminate.
      rewrite IH. destruct (list_find _ rest) as [[k y]|]; cbn; [lia|reflexivity].
Qed.

Lemma bfVM_getSymbolHelper_refl (s : string_range) : bfVM_getSymbolHelper s s = true.
Proof.
  unfold bfVM_getSymbolHelper, string_range_length.
  fold (bfVMString_length s). rewrite Z.eqb_refl, bfVMString_ccmpn_refl. reflexivity.
Qed.

Section SymbolTable.
Implicit Types (table : list bytes) (s : string_range).

(** The position and the id of a name that the table holds. *)
Lemma getSymbol_found table s k x :
  list_find (fun sym => bfVM_getSymbolHelper s sym = true) table = Some (k, x) ->
  bfVMArray_size table < 2 ^ 64 ->
  getSymbol table s = (table, wrap32 (Z.of_nat k)).
Proof.
  intros Hfind Hsize. unfold getSymbol, bfVMArray_find.
  rewrite bfVMArray_find_from_spec, Hfind.
  apply list_find_Some in Hfind. destruct Hfind as (Hk & _).
  apply lookup_lt_Some in Hk. unfold bfVMArray_size in Hsize.
  destruct (Z.eqb_spec (0 + Z.of_nat k) BIFROST_ARRAY_INVALID_INDEX) as [Heq|_].
  - rewrite INVALID_INDEX_value in Heq. lia.
  - reflexivity.
Qed.

(** A name that the table does not hold goes to its end. *)
Lemma getSymbol_new table s :
  list_find (fun sym => bfVM_getSymbolHelper s sym = true) table = None ->
  getSymbol table s = (table ++ [s], wrap32 (bfVMArray_size table)).
Proof.
  intros Hfind. unfold getSymbol, bfVMArray_find.
  rewrite bfVMArray_find_from_spec, Hfind. reflexivity.
Qed.

(** After a call the name is in the table, at the position of its id. *)
Lemma getSymbol_interns table s :
  bfVMArray_size table < 2 ^ 64 ->
  exists k x,
    list_find (fun sym => bfVM_getSymbolHelper s sym = true) (fst (getSymbol table s))
    = Some (k, x)
    /\ snd (getSymbol table s) = wrap32 (Z.of_nat k).
Proof.
  intros Hsize.
  destruct (list_find (fun sym => bfVM_getSymbolHelper s sym = true) table)
    as [[k x]|] eqn:Hfind.
  - rewrite (getSymbol_found _ _ _ _ Hfind Hsize). eauto.
  - rewrite (getSymbol_new _ _ Hfind). cbn [fst snd].
    exists (length table), s. split; [|reflexivity].
    rewrite list_find_app_r by exact Hfind. cbn [list_find].
    rewrite decide_True by apply bfVM_getSymbolHelper_refl.
    cbn. reflexivity.
Qed.

Lemma getSymbol_appends table s :
  exists added, fst (getSymbol table s) = table ++ added /\ (length added <= 1)%nat.
Proof.
  unfold getSymbol. destruct (_ =? _); cbn [fst].
  - exists [s]. split; [reflexivity|cbn; lia].
  - exists []. split; [symmetry; apply app_nil_r|cbn; lia].
Qed.

Lemma getSymbols_append table (others : list string_range) :
  exists added,
    fold_left (fun t n => fst (getSymbol t n)) others table = table ++ added
    /\ (length added <= length others)%nat.
Proof.
  revert table. induction others as [|n others IH]; intros table; cbn [fold_left].
  - exists []. split; [symmetry; apply app_nil_r|cbn; lia].
  - destruct (getSymbol_appends table n) as (a1 & -> & Hlen1).
    destruct (IH (table ++ a1)) as (a2 & -> & Hlen2).
    exists (a1 ++ a2). split; [symmetry; apply app_assoc|].
    rewrite length_app. cbn. lia.
Qed.

(** A name keeps the id of its first position however the table grows. *)
Lemma getSymbol_stable table s k x (added : list bytes) :
  list_find (fun sym => bfVM_getSymbolHelper s sym = true) table = Some (k, x) ->
  bfVMArray_size (table ++ added) < 2 ^ 64 ->
  getSymbol (table ++ added) s = (table ++ added, wrap32 (Z.of_nat k)).
Proof.
  intros Hfind Hsize. eapply getSymbol_found; [|exact Hsize].
  apply list_find_app_l. exact Hfind.
Qed.

End SymbolTable.

(** The symbol table after a series of [bfVM_getSymbol] calls. *)
Lemma symbols_after_calls (vm : BifrostVM) (others : list string_range) :
  symbols (fold_left (fun v n => fst (bfVM_getSymbol v n)) others vm)
  = fold_left (fun t n => fst (getSymbol t n)) others (symbols vm).
Proof.
  revert vm. induction others as [|n others IH]; intros vm; cbn [fold_left]; [reflexivity|].
  rewrite IH. unfold bfVM_getSymbol. destruct (getSymbol (symbols vm) n). reflexivity.
Qed.

Lemma bfVM_getSymbol_id (vm : BifrostVM) (s : string_range) :
  snd (bfVM_getSymbol vm s) = snd (getSymbol (symbols vm) s)
  /\ symbols (fst (bfVM_getSymbol vm s)) = fst (getSymbol (symbols vm) s).
Proof. unfold bfVM_getSymbol. destruct (getSymbol (symbols vm) s). auto. Qed.

(** On names without a NUL, the test that [bfVMArray_find] makes on the
    table is equality with the name. *)
Lemma bfVM_getSymbolHelper_eq (s : string_range) (sym : bytes) :
  Forall (fun c => c <> 0) s -> Forall (fun c => c <> 0) sym ->
  bfVM_getSymbolHelper s sym = true <-> sym = s.
Proof.
  intros Hs Hsym. split; [|intros ->; apply bfVM_getSymbolHelper_refl].
  unfold bfVM_getSymbolHelper, bfVMString_ccmpn, string_range_length, bfVMString_length.
  intros Hhelper. apply andb_true_iff in Hhelper as [Hlen Hcmp].
  apply Z.eqb_eq, Nat2Z.inj in Hlen. rewrite Hlen in Hcmp.
  destruct (Z.gtb_spec (Z.of_nat (length sym)) (Z.of_nat (length sym))); [lia|].
  rewrite Nat2Z.id in Hcmp. apply Z.eqb_eq in Hcmp.
  apply (LibC_strncmp_zero_iff sym s (eq_sym Hlen)) in Hcmp.
  rewrite (c_string_no_NUL _ Hs), (c_string_no_NUL _ Hsym) in Hcmp. exact Hcmp.
Qed.

(** The lookup in a table of names without a NUL: nothing is found for a
    name that is not in the table, and a name of the table is found at its
    first position. *)
Lemma symbol_lookup (table : list bytes) (s : string_range) :
  Forall (Forall (fun c => c <> 0)) table ->
  Forall (fun c => c <> 0) s ->
  (~ In s table ->
   list_find (fun sym => bfVM_getSymbolHelper s sym = true) table = None)
  /\ (forall k : nat,
         table !! k = Some s ->
         (forall j : nat, (j < k)%nat -> table !! j <> Some s) ->
         list_find (fun sym => bfVM_getSymbolHelper s sym = true) table = Some (k, s)).
Proof.
  intros Htable Hs. split.
  - intros Hnew. apply list_find_None. apply Forall_forall. intros sym Hin Hhelper.
    apply bfVM_getSymbolHelper_eq in Hhelper;
      [|exact Hs|exact (proj1 (Forall_forall _ _) Htable sym Hin)].
    subst sym. apply Hnew, list_elem_of_In. exact Hin.
  - intros k Hk Hfirst. apply list_find_Some.
    split; [exact Hk|]. split; [apply bfVM_getSymbolHelper_refl|].
    intros j sym Hj Hlt Hhelper.
    apply bfVM_getSymbolHelper_eq in Hhelper;
      [|exact Hs|exact (Forall_lookup_1 _ _ _ _ Htable Hj)].
    subst sym. exact (Hfirst j Hlt Hj).
Qed.


(** ** C6: the end of a build *)

Lemma wrap16_le (z : Z) : 0 <= z -> uint16 z <= z.
Proof. intros Hz. unfold uint16. apply Z.mod_le; lia. Qed.

Lemma wrap32_le (z : Z) : 0 <= z -> wrap32 z <= z.
Proof. intros Hz. unfold wrap32. apply Z.mod_le; lia. Qed.

Lemma return_0_decodes :
  let w := BIFROST_MAKE_INST_OP_ABx (op_code BIFROST_VM_OP_RETURN) 0 0 in
  bfInst_decodeOp w = op_code BIFROST_VM_OP_RETURN
  /\ bfInst_decodeRa w = 0 /\ bfInst_decodeRBx w = 0.
Proof. repeat split; reflexivity. Qed.

Lemma bfFuncBuilder_end_eq (self : BifrostVMFunctionBuilder) (out : BifrostObjFn) (arity : Z) :
  local_var_scope_size self <> [] ->
  exists self' fn,
    bfFuncBuilder_end self out arity = Ok (self', fn)
    /\ fn_instructions fn
       = instructions self ++ [BIFROST_MAKE_INST_OP_ABx (op_code BIFROST_VM_OP_RETURN) 0 0]
    /\ fn_arity fn = arity
    /\ fn_needed_stack_space fn = wrap64 (max_local_idx self + arity + 1)
    /\ constants self' = None.
Proof.
  intros Hscope. unfold bfFuncBuilder_end, bfFuncBuilder_popScope.
  cbn [local_var_scope_size bfFuncBuilder_addInstABx bfFuncBuilder_addInst].
  destruct (local_var_scope_size self) as [|c scopes] eqn:Hs using rev_ind;
    [contradiction|].
  unfold bfVMArray_back. rewrite last_snoc. cbn [defined res_bind].
  unfold bfVMArray_pop, bfVMArray_size. rewrite length_app. cbn [length].
  destruct (Z.eqb_spec (Z.of_nat (length scopes + 1)) 0) as [Hz|_]; [lia|].
  cbn [negb LibC_assert res_bind].
  eexists _, _. split; [reflexivity|]. cbn. auto.
Qed.

(** C6 (amended).  Ending a build (with a scope open, as [begin] leaves
    it) appends RETURN 0 as the last instruction and records
    needed_stack_space = max_local_idx + arity + 1 in [size_t] arithmetic,
    where max_local_idx is the counter of the builder.  The counter is a
    bound on the slots handed out, not the largest of them: [pushTemp]
    raises it to one past its last temporary, so every temporary lies
    strictly below it, and a new local raises it to the slot of that
    local. *)
Theorem C6_end_of_build (self : BifrostVMFunctionBuilder) (out : BifrostObjFn) (arity : Z) :
  local_var_scope_size self <> [] ->
  (exists self' fn,
      bfFuncBuilder_end self out arity = Ok (self', fn)
      /\ fn_instructions fn
         = instructions self ++ [BIFROST_MAKE_INST_OP_ABx (op_code BIFROST_VM_OP_RETURN) 0 0]
      /\ (exists w, last (fn_instructions fn) = Some w
                    /\ bfInst_decodeOp w = op_code BIFROST_VM_OP_RETURN
                    /\ bfInst_decodeRBx w = 0)
      /\ fn_arity fn = arity
      /\ fn_needed_stack_space fn = wrap64 (max_local_idx self + arity + 1)
      /\ (0 <= max_local_idx self + arity + 1 < 2 ^ 64 ->
          fn_needed_stack_space fn = max_local_idx self + arity + 1))
  /\ (forall num_temps i,
         0 <= i < num_temps ->
         let pushed := bfFuncBuilder_pushTemp self num_temps in
         max_local_idx (fst pushed)
         = Z.max (max_local_idx self) (bfVMArray_size (local_vars self) + num_temps)
         /\ snd pushed + i < max_local_idx (fst pushed))
  /\ (forall ccmpn_source var_name self1 slot,
         bfFuncBuilder_declVariable ccmpn_source self var_name = Ok (self1, slot, false) ->
         max_local_idx self1 = Z.max (max_local_idx self) (bfVMArray_size (local_vars self))
         /\ slot <= max_local_idx self1).
Proof.
  intros Hscope. split; [|split].
  - destruct (bfFuncBuilder_end_eq self out arity Hscope)
      as (self' & fn & Hend & Hcode & Harity & Hneeded & _).
    exists self', fn. split; [exact Hend|]. split; [exact Hcode|]. split.
    { eexists. rewrite Hcode, last_snoc. split; [reflexivity|].
      split; reflexivity. }
    split; [exact Harity|]. split; [exact Hneeded|].
    intros Hrange. rewrite Hneeded. unfold wrap64. apply Z.mod_small. exact Hrange.
  - intros num_temps i Hi pushed. subst pushed. unfold bfFuncBuilder_pushTemp.
    cbn [fst snd set_locals max_local_idx].
    pose proof (wrap16_le (bfVMArray_size (local_vars self))) as Hle.
    unfold bfVMArray_size in *.
    destruct (Z.ltb_spec (max_local_idx self) (Z.of_nat (length (local_vars self)) + num_temps));
      lia.
  - intros ccmpn_source var_name self1 slot Hdecl.
    unfold bfFuncBuilder_declVariable in Hdecl.
    destruct (bfFuncBuilder__getVariable ccmpn_source self var_name true)
      as [prev_decl| | |]; cbn [res_bind] in Hdecl; try discriminate.
    destruct (negb (prev_decl =? BIFROST_ARRAY_INVALID_INDEX)); [inversion Hdecl|].
    destruct (bfVMArray_back (local_var_scope_size self)); cbn [res_bind] in Hdecl;
      try discriminate.
    inversion Hdecl; subst; clear Hdecl. cbn [max_local_idx set_locals].
    pose proof (wrap32_le (bfVMArray_size (local_vars self))) as Hle.
    unfold bfVMArray_size in *.
    destruct (Z.ltb_spec (max_local_idx self) (Z.of_nat (length (local_vars self)))); lia.
Qed.

(** The claim of C6 as stated fails on the smallest build that uses a
    temporary: one temporary, in slot 0, is the only slot of the build and
    the arity is 0, yet needed_stack_space is 2 and not 0 + 0 + 1. *)
Lemma C6_counterexample :
  exists b0 b1 slot b2 fn,
    bfFuncBuilder_begin (bfFuncBuilder_ctor 1) (map chr ["f"]%char) = Ok b0
    /\ bfFuncBuilder_pushTemp b0 1 = (b1, slot)
    /\ slot = 0
    /\ bfFuncBuilder_end b1 empty_fn 0 = Ok (b2, fn)
    /\ fn_needed_stack_space fn = 2
    /\ fn_needed_stack_space fn <> slot + 0 + 1.
Proof.
  eexists _, _, _, _, _.
  split; [reflexivity|]. split; [reflexivity|]. split; [reflexivity|].
  split; [reflexivity|]. split; [reflexivity|]. vm_compute. discriminate.
Qed.

(** [C6_end_of_build] at the build of the counterexample. *)
Lemma C6_end_of_build_witness :
  exists self' fn,
    bfFuncBuilder_end
      (fst (bfFuncBuilder_pushTemp
              (bfFuncBuilder_pushScope (bfFuncBuilder_ctor 1)) 1)) empty_fn 0
    = Ok (self', fn)
    /\ fn_needed_stack_space fn = 2.
Proof.
  destruct (C6_end_of_build
              (fst (bfFuncBuilder_pushTemp (bfFuncBuilder_pushScope (bfFuncBuilder_ctor 1)) 1))
              empty_fn 0) as ((self' & fn & Hend & _ & _ & _ & Hneeded & _) & _).
  - vm_compute. discriminate.
  - exists self', fn. split; [exact Hend|]. rewrite Hneeded. reflexivity.
Defined.

(** ** C5: patching the breaks of a loop *)

Lemma loopPop_patch_length (s e i : Z) (code : list bfInstruction) :
  length (loopPop_patch s e i code) = length code.
Proof.
  revert i. induction code as [|inst rest IH]; intros i; cbn [loopPop_patch length];
    [reflexivity|]. rewrite IH. reflexivity.
Qed.

Lemma loopPop_patch_lookup (s e i : Z) (code : list bfInstruction) (k : nat)
    (inst : bfInstruction) :
  code !! k = Some inst ->
  loopPop_patch s e i code !! k =
  Some (if (s <=? i + Z.of_nat k) && (i + Z.of_nat k <? e) && (inst =? BIFROST_INST_INVALID)
        then BIFROST_MAKE_INST_OP_AsBx (op_code BIFROST_VM_OP_JUMP) 0 (e - (i + Z.of_nat k))
        else inst).
Proof.
  revert i k. induction code as [|x rest IH]; intros i k Hk; [discriminate|].
  destruct k as [|k]; cbn [loopPop_patch].
  - cbn in Hk. inversion Hk; subst. cbn [lookup list_lookup].
    replace (i + Z.of_nat 0) with i by lia. reflexivity.
  - cbn in Hk. cbn [lookup list_lookup].
    change ((loopPop_patch s e (i + 1) rest) !! k = Some
              (if (s <=? i + Z.of_nat (S k)) && (i + Z.of_nat (S k) <? e)
                  && (inst =? BIFROST_INST_INVALID)
               then BIFROST_MAKE_INST_OP_AsBx (op_code BIFROST_VM_OP_JUMP) 0
                      (e - (i + Z.of_nat (S k)))
               else inst)).
    rewrite (IH (i + 1) k Hk).
    replace (i + 1 + Z.of_nat k) with (i + Z.of_nat (S k)) by lia. reflexivity.
Qed.

(** A patched word is a JUMP, never the sentinel. *)
Lemma patched_word_is_jump (offset : Z) :
  let w := BIFROST_MAKE_INST_OP_AsBx (op_code BIFROST_VM_OP_JUMP) 0 offset in
  bfInst_decodeOp w = op_code BIFROST_VM_OP_JUMP /\ w <> BIFROST_INST_INVALID.
Proof.
  cbn zeta.
  assert (Hop : bfInst_decodeOp
                  (BIFROST_MAKE_INST_OP_AsBx (op_code BIFROST_VM_OP_JUMP) 0 offset)
                = op_code BIFROST_VM_OP_JUMP).
  { rewrite decodeOp_AsBx. apply op_code_fits. }
  split; [exact Hop|].
  intros Heq. rewrite Heq in Hop. vm_compute in Hop. discriminate.
Qed.

(** Within the range of the sBx field the offset is read back as written. *)
Lemma patched_word_offset (offset : Z) :
  - BIFROST_INST_RsBx_MAX <= offset <= BIFROST_INST_RsBx_MAX + 1 ->
  bfInst_decodeRsBx (BIFROST_MAKE_INST_OP_AsBx (op_code BIFROST_VM_OP_JUMP) 0 offset) = offset.
Proof.
  intros Hrange. unfold bfInst_decodeRsBx. rewrite decodeRBx_AsBx.
  rewrite Z.land_ones by lia.
  change BIFROST_INST_RsBx_MAX with 131071 in *.
  rewrite Z.mod_small; [lia|]. change (2 ^ 18) with 262144. lia.
Qed.

(** C5 (amended).  Closing a loop rewrites every sentinel word from the
    start of the loop body to the current end of the code into an
    unconditional JUMP, leaves every other word as it is, and so leaves no
    sentinel in the loop body.  When the sentinel lies within 131072
    instructions of the end of the code (the range of the 18-bit sBx field)
    the jump is forward and lands on the first instruction after the loop;
    beyond that range the offset does not fit the field. *)
Theorem C5_loop_breaks_are_patched (self : BifrostParser) (loop : LoopInfo)
    (parent : list LoopInfo) :
  loop_stack self = loop :: parent ->
  let code := instructions (fn_builder self) in
  let body_end := bfVMArray_size code in
  exists self',
    loopPop self = Ok self'
    /\ loop_stack self' = parent
    /\ length (instructions (fn_builder self')) = length code
    /\ forall (i : nat) (inst : bfInstruction),
         code !! i = Some inst ->
         exists inst',
           instructions (fn_builder self') !! i = Some inst'
           /\ (body_start loop <= Z.of_nat i -> inst' <> BIFROST_INST_INVALID)
           /\ (body_start loop <= Z.of_nat i -> inst = BIFROST_INST_INVALID ->
               bfInst_decodeOp inst' = op_code BIFROST_VM_OP_JUMP
               /\ (body_end - Z.of_nat i <= 131072 ->
                   0 < bfInst_decodeRsBx inst'
                   /\ Z.of_nat i + bfInst_decodeRsBx inst' = body_end))
           /\ (inst <> BIFROST_INST_INVALID \/ Z.of_nat i < body_start loop -> inst' = inst).
Proof.
  intros Hstack code body_end.
  unfold loopPop. rewrite Hstack.
  rewrite bool_decide_false by discriminate. cbn [negb LibC_assert res_bind].
  eexists. split; [reflexivity|]. cbn [loop_stack fn_builder instructions set_instructions].
  split; [reflexivity|]. split; [apply loopPop_patch_length|].
  intros i inst Hi.
  rewrite (loopPop_patch_lookup _ _ 0 _ _ _ Hi).
  eexists. split; [reflexivity|].
  pose proof (lookup_lt_Some _ _ _ Hi) as Hlt.
  fold code. fold body_end.
  assert (Hend : 0 + Z.of_nat i < body_end) by (unfold body_end, bfVMArray_size; lia).
  apply Z.ltb_lt in Hend. rewrite Hend, andb_true_r.
  replace (0 + Z.of_nat i) with (Z.of_nat i) by lia.
  split; [|split].
  - intros Hstart. apply Z.leb_le in Hstart. rewrite Hstart. cbn [andb].
    destruct (Z.eqb_spec inst BIFROST_INST_INVALID) as [_|Hne]; [|exact Hne].
    apply patched_word_is_jump.
  - intros Hstart ->. apply Z.leb_le in Hstart. rewrite Hstart, Z.eqb_refl. cbn [andb].
    split; [apply patched_word_is_jump|].
    intros Hrange.
    rewrite patched_word_offset.
    + apply Z.ltb_lt in Hend. lia.
    + apply Z.ltb_lt in Hend. change BIFROST_INST_RsBx_MAX with 131071. lia.
  - intros [Hne | Hbefore].
    + destruct (Z.eqb_spec inst BIFROST_INST_INVALID); [contradiction|].
      rewrite andb_false_r. reflexivity.
    + destruct (Z.leb_spec (body_start loop) (Z.of_nat i)); [lia|]. reflexivity.
Qed.

Lemma long_body_size :
  bfVMArray_size (instructions (fn_builder long_loop)) = 131074.
Proof.
  unfold long_loop, bfVMArray_size. cbn [fn_builder set_instructions instructions length].
  unfold long_body_filler. rewrite length_replicate. lia.
Qed.

(** The claim of C5 as stated fails on a long loop: the [break] at the
    start of a body of 131074 instructions is rewritten to a JUMP whose
    offset reads back as -131070, a backward jump that does not land on the
    first instruction after the loop. *)
Lemma C5_counterexample :
  exists self' inst',
    loopPop long_loop = Ok self'
    /\ instructions (fn_builder long_loop) !! 0%nat = Some BIFROST_INST_INVALID
    /\ instructions (fn_builder self') !! 0%nat = Some inst'
    /\ bfInst_decodeOp inst' = op_code BIFROST_VM_OP_JUMP
    /\ bfInst_decodeRsBx inst' = -131070
    /\ 0 + bfInst_decodeRsBx inst'
       <> bfVMArray_size (instructions (fn_builder long_loop)).
Proof.
  eexists _, _.
  split; [reflexivity|].
  split; [reflexivity|].
  split.
  { cbn [fn_builder set_instructions instructions].
    apply (loopPop_patch_lookup _ _ 0 _ 0%nat BIFROST_INST_INVALID). reflexivity. }
  rewrite long_body_size.
  split; [reflexivity|].
  split; [reflexivity|].
  vm_compute. discriminate.
Qed.

(** [C5_loop_breaks_are_patched] at a loop of three instructions. *)
Lemma C5_loop_breaks_are_patched_witness :
  exists self',
    loopPop short_loop = Ok self'
    /\ instructions (fn_builder self')
       = [ BIFROST_MAKE_INST_OP_ABx (op_code BIFROST_VM_OP_LOAD_BASIC) 0 0;
           BIFROST_MAKE_INST_OP_AsBx (op_code BIFROST_VM_OP_JUMP) 0 2;
           BIFROST_MAKE_INST_OP_AsBx (op_code BIFROST_VM_OP_JUMP) 0 (-2) ].
Proof.
  destruct (C5_loop_breaks_are_patched short_loop {| body_start := 0 |} [] eq_refl)
    as (self' & Hpop & _).
  exists self'. split; [exact Hpop|].
  vm_compute in Hpop. inversion Hpop. reflexivity.
Defined.

(** ** The theorems at concrete states *)

(** [C4_truthiness_drives_jumps]: JUMP_IF 0,+2 on the number 0.0 jumps. *)
Lemma C4_truthiness_drives_jumps_witness :
  exec_step idle_fp idle_rt (demo_running 0 jump_code [0; 0; 0; 0])
            (frames_back (demo_running 0 jump_code [0; 0; 0; 0]))
  = Ok (inl (goto_ip (demo_running 0 jump_code [0; 0; 0; 0]) demo_frame 2)).
Proof.
  destruct (C4_truthiness_drives_jumps idle_fp idle_rt
              (demo_running 0 jump_code [0; 0; 0; 0])
              (frames_back (demo_running 0 jump_code [0; 0; 0; 0]))
              demo_frame (demo_fn 0 jump_code)
              (BIFROST_MAKE_INST_OP_AsBx (op_code BIFROST_VM_OP_JUMP_IF) 0 2) 0 false)
    as (_ & _ & _ & Hstep).
  - repeat split; first [reflexivity | cbn; lia].
  - reflexivity.
  - reflexivity.
  - rewrite Hstep. reflexivity.
Defined.

(** [C7_arity_is_checked_before_the_call]: two arguments for a function of
    one parameter, from the host with no script running, and from the
    CALL_FN of a running function. *)
Lemma C7_arity_is_checked_before_the_call_witness :
  bfVM_call idle_fp idle_rt 10 demo_host_vm 0 1 2
  = Ok (BIFROST_VM_ERROR_FUNCTION_ARITY_MISMATCH, demo_host_vm)
  /\ frames demo_host_vm = []
  /\ exec_switch idle_fp idle_rt demo_call_vm demo_frame (demo_fn 1 call_code)
       (BIFROST_MAKE_INST_OP_ABC (op_code BIFROST_VM_OP_CALL_FN) 0 1 2)
     = BF_RUNTIME_ERROR demo_call_vm (MsgFunctionArity 2 1)
  /\ exists unwound,
       exec_loop idle_fp idle_rt 1 demo_call_vm (frames_back demo_call_vm)
       = Ok (BIFROST_VM_ERROR_RUNTIME, unwound)
       /\ frames unwound = [].
Proof.
  destruct (C7_arity_is_checked_before_the_call idle_fp idle_rt 10 demo_host_vm
              4096 (demo_fn 1 call_code))
    as (_ & _ & _ & Hhost & _); [reflexivity|lia|].
  destruct (Hhost 0 1 2) as [Hmismatch _]; [vm_compute; reflexivity|reflexivity|].
  destruct (C7_arity_is_checked_before_the_call idle_fp idle_rt 0 demo_call_vm
              4096 (demo_fn 1 call_code))
    as (_ & _ & Hcall & _); [reflexivity|lia|].
  destruct (Hcall demo_frame (demo_fn 1 call_code)
              (BIFROST_MAKE_INST_OP_ABC (op_code BIFROST_VM_OP_CALL_FN) 0 1 2)
              (frames_back demo_call_vm)) as [Herror _].
  - repeat split; first [reflexivity | cbn; lia].
  - reflexivity.
  - reflexivity.
  - destruct Herror as (Hswitch & _ & Hunwind); [reflexivity|].
    destruct (Hunwind demo_frame) as (unwound & Hrun & Hframes & _);
      [reflexivity|vm_compute; discriminate|reflexivity|].
    split; [apply Hmismatch; reflexivity|].
    split; [reflexivity|]. split; [exact Hswitch|].
    exists unwound. split; [exact Hrun|exact Hframes].
Defined.


(** ** C9: the heap threshold *)

Lemma digits2_pos_iter_xO (p k : positive) :
  SpecFloat.digits2_pos (Pos.iter xO p k) = (SpecFloat.digits2_pos p + k)%positive.
Proof.
  induction k as [|k IH] using Pos.peano_ind.
  - cbn. lia.
  - rewrite Pos.iter_succ. cbn [SpecFloat.digits2_pos]. rewrite IH. lia.
Qed.

Lemma Zpos_iter_xO (p k : positive) :
  Zpos (Pos.iter xO p k) = Zpos p * 2 ^ Zpos k.
Proof.
  induction k as [|k IH] using Pos.peano_ind.
  - cbn. lia.
  - rewrite Pos.iter_succ, Pos2Z.inj_xO, IH, Pos2Z.inj_succ, Z.pow_succ_r by lia. lia.
Qed.

Lemma digits2_pos_bounds (p : positive) :
  2 ^ (Zpos (SpecFloat.digits2_pos p) - 1) <= Zpos p < 2 ^ Zpos (SpecFloat.digits2_pos p).
Proof.
  induction p as [p IH|p IH|]; cbn [SpecFloat.digits2_pos].
  - rewrite Pos2Z.inj_succ, Z.pow_succ_r by lia.
    replace (Z.succ (Zpos (SpecFloat.digits2_pos p)) - 1)
      with (Z.succ (Zpos (SpecFloat.digits2_pos p) - 1)) by lia.
    rewrite Z.pow_succ_r by lia. lia.
  - rewrite Pos2Z.inj_succ, Z.pow_succ_r by lia.
    replace (Z.succ (Zpos (SpecFloat.digits2_pos p)) - 1)
      with (Z.succ (Zpos (SpecFloat.digits2_pos p) - 1)) by lia.
    rewrite Z.pow_succ_r by lia. lia.
  - cbn. lia.
Qed.

Lemma binary_round_aux_canonical (s : bool) (m : positive) (e : Z) :
  SpecFloat.digits2_pos m = 24%positive ->
  -149 <= e <= 104 ->
  SpecFloat.binary_round_aux FLT_MANT_DIG FLT_MAX_EXP s (Zpos m) e SpecFloat.loc_Exact
  = SpecFloat.S754_finite s m e.
Proof.
  intros Hd He.
  unfold SpecFloat.binary_round_aux, SpecFloat.shr_fexp, SpecFloat.fexp, SpecFloat.emin,
    FLT_MANT_DIG, FLT_MAX_EXP.
  cbn [SpecFloat.Zdigits2 SpecFloat.shr_record_of_loc]. rewrite Hd.
  replace (Z.max (24 + e - 24) (3 - 128 - 24) - e) with 0 by lia.
  cbn [SpecFloat.shr SpecFloat.shr_m SpecFloat.loc_of_shr_record SpecFloat.round_nearest_even
       SpecFloat.Zdigits2 SpecFloat.shr_record_of_loc].
  rewrite Hd.
  replace (Z.max (24 + e - 24) (3 - 128 - 24) - e) with 0 by lia.
  cbn [SpecFloat.shr SpecFloat.shr_m].
  destruct (Z.leb_spec e (128 - 24)); [reflexivity|lia].
Qed.

Lemma float_of_size_t_small (p : positive) :
  Zpos p < 2 ^ 24 ->
  exists m e,
    float_of_size_t (Zpos p) = SpecFloat.S754_finite false m e
    /\ SpecFloat.digits2_pos m = 24%positive
    /\ -23 <= e <= 0
    /\ Zpos m = Zpos p * 2 ^ (- e).
Proof.
  intros Hp.
  pose proof (digits2_pos_bounds p) as [Hlo _].
  assert (Hd : Zpos (SpecFloat.digits2_pos p) <= 24).
  { destruct (Z.le_gt_cases (Zpos (SpecFloat.digits2_pos p)) 24) as [|Hgt]; [assumption|].
    assert (2 ^ 24 <= 2 ^ (Zpos (SpecFloat.digits2_pos p) - 1))
      by (apply Z.pow_le_mono_r; lia).
    lia. }
  unfold float_of_size_t, SpecFloat.binary_normalize, SpecFloat.binary_round,
    SpecFloat.shl_align, SpecFloat.fexp, SpecFloat.emin, FLT_MANT_DIG, FLT_MAX_EXP.
  destruct (Z.max (Zpos (SpecFloat.digits2_pos p) + 0 - 24) (3 - 128 - 24) - 0) as [|k|k] eqn:Hk.
  - exists p, 0. cbv beta iota zeta.
    split; [apply binary_round_aux_canonical; lia|]. repeat split; lia.
  - lia.
  - exists (Pos.iter xO p k), (Z.max (Zpos (SpecFloat.digits2_pos p) + 0 - 24) (3 - 128 - 24)).
    assert (Hdk : SpecFloat.digits2_pos (Pos.iter xO p k) = 24%positive)
      by (rewrite digits2_pos_iter_xO; lia).
    cbv beta iota zeta.
    split; [apply binary_round_aux_canonical; [assumption|lia]|].
    repeat split; try lia; try assumption.
    rewrite Zpos_iter_xO. f_equal. f_equal. lia.
Qed.

Lemma float_mul_half (m : positive) (e : Z) :
  SpecFloat.digits2_pos m = 24%positive ->
  -125 <= e <= 104 ->
  float_mul (SpecFloat.S754_finite false m e) float_half
  = SpecFloat.S754_finite false m (e - 1).
Proof.
  intros Hd He.
  unfold float_mul, float_half, SpecFloat.SFmul.
  change (m * 8388608)%positive with (m * Pos.iter xO 1 23)%positive.
  rewrite Pos.mul_comm. 
  change (Pos.iter xO 1 23 * m)%positive with (Pos.iter xO m 23). cbn [xorb].
  unfold SpecFloat.binary_round_aux, SpecFloat.shr_fexp, SpecFloat.fexp, SpecFloat.emin,
    FLT_MANT_DIG, FLT_MAX_EXP.
  cbn [SpecFloat.Zdigits2 SpecFloat.shr_record_of_loc].
  rewrite digits2_pos_iter_xO, Hd.
  change (24 + 23)%positive with 47%positive.
  replace (Z.max (47 + (e + -24) - 24) (3 - 128 - 24) - (e + -24)) with 23 by lia.
  change (SpecFloat.shr {| SpecFloat.shr_m := Z.pos (Pos.iter xO m 23);
                           SpecFloat.shr_r := false; SpecFloat.shr_s := false |}
                        (e + -24) 23)
    with ({| SpecFloat.shr_m := Z.pos m; SpecFloat.shr_r := false; SpecFloat.shr_s := false |},
          e + -24 + 23).
  cbn [SpecFloat.shr_m SpecFloat.loc_of_shr_record SpecFloat.round_nearest_even
       SpecFloat.Zdigits2].
  rewrite Hd.
  replace (Z.max (24 + (e + -24 + 23) - 24) (3 - 128 - 24) - (e + -24 + 23)) with 0 by lia.
  cbn [SpecFloat.shr SpecFloat.shr_m].
  destruct (Z.leb_spec (e + -24 + 23) (128 - 24)); [|lia].
  f_equal. lia.
Qed.

(** With the default growth factor the product is exact below 2^24 bytes. *)
Lemma grown_by_half (b : Z) :
  0 <= b < 2 ^ 24 ->
  size_t_of_float (float_mul (float_of_size_t b) float_half) = Ok (b / 2).
Proof.
  intros Hb. destruct b as [|p|p]; [reflexivity| |lia].
  destruct (float_of_size_t_small p) as (m & e & Hfloat & Hd & He & Hm); [lia|].
  rewrite Hfloat, float_mul_half by (try assumption; lia).
  unfold size_t_of_float.
  assert (Hshift : Z.shiftl (Z.pos m) (e - 1) = Z.pos p / 2).
  { rewrite Z.shiftl_div_pow2 by lia. rewrite Hm.
    replace (- (e - 1)) with (1 + - e) by lia.
    rewrite Z.pow_add_r by lia. change (2 ^ 1) with 2.
    apply Z.div_mul_cancel_r; [lia|]. apply Z.pow_nonzero; lia. }
  rewrite Hshift.
  destruct (Z.ltb_spec (Z.pos p / 2) (2 ^ 64)); [reflexivity|].
  assert (Z.pos p / 2 <= Z.pos p) by (apply Z.div_le_upper_bound; lia). lia.
Qed.

Lemma spec_heap_size_half (min_heap b : Z) :
  spec_heap_size min_heap b (float_value float_half) = Z.max min_heap (b + b / 2).
Proof.
  unfold spec_heap_size. f_equal.
  change (float_value float_half) with (8388608 # 16777216)%Q.
  unfold Qfloor, Qmult, Qplus, inject_Z. cbn [Qnum Qden].
  change (Z.pos (1 * (1 * 16777216))) with 16777216.
  Z.div_mod_to_equations. lia.
Qed.

(** A look-up that finds the name leaves the VM as it is. *)
Lemma bfVM_getSymbol_found (self : BifrostVM) (name : string_range) :
  bfVMArray_find (symbols self) name bfVM_getSymbolHelper <> BIFROST_ARRAY_INVALID_INDEX ->
  fst (bfVM_getSymbol self name) = self.
Proof.
  intros Hfound. unfold bfVM_getSymbol, getSymbol.
  destruct (Z.eqb_spec (bfVMArray_find (symbols self) name bfVM_getSymbolHelper)
                       BIFROST_ARRAY_INVALID_INDEX) as [Heq|_]; [contradiction|].
  destruct self. reflexivity.
Qed.

(** A sweep that finds nothing unmarked, in a VM that has the symbol
    "dtor", counts no byte and changes nothing. *)
Lemma bfGCSweep_nothing (gc : Collector) (marks : Marks) (self : BifrostVM) :
  unreachable_objects marks = [] ->
  bfVMArray_find (symbols self) dtor bfVM_getSymbolHelper <> BIFROST_ARRAY_INVALID_INDEX ->
  bfGCSweep gc marks self = Ok (0, self).
Proof.
  intros Hnone Hfound. unfold bfGCSweep. rewrite Hnone.
  pose proof (bfVM_getSymbol_found self dtor Hfound) as Hsame.
  destruct (bfVM_getSymbol self dtor) as [self1 dtor_symbol]. cbn [fst] in Hsame. subst self1.
  destruct (Z.eqb_spec (bfVMArray_find (symbols self) dtor bfVM_getSymbolHelper)
                       BIFROST_ARRAY_INVALID_INDEX) as [Heq|_]; [contradiction|].
  reflexivity.
Qed.




(* ===================================================================== *)
(** * Further properties of the runtime *)
(* ===================================================================== *)

(** ** Instruction words (bifrost_vm_instruction_op.h, bifrost_vm.c) *)

Ltac unfold_inst :=
  unfold bfInst_decodeOp, bfInst_decodeRa, bfInst_decodeRb, bfInst_decodeRc, bfInst_decodeRBx,
    BIFROST_MAKE_INST_OP_ABC, BIFROST_MAKE_INST_OP_ABx, BIFROST_MAKE_INST_OP_AsBx,
    BIFROST_MAKE_INST_OP, BIFROST_MAKE_INST_RC, wrap32;
  unfold BIFROST_INST_RA_OFFSET, BIFROST_INST_RB_OFFSET, BIFROST_INST_RC_OFFSET,
    BIFROST_INST_RBx_OFFSET, BIFROST_INST_RsBx_OFFSET;
  change BIFROST_INST_OP_MASK with (Z.ones 5);
  change BIFROST_INST_RA_MASK with (Z.ones 9);
  change BIFROST_INST_RB_MASK with (Z.ones 9);
  change BIFROST_INST_RC_MASK with (Z.ones 9);
  change BIFROST_INST_RBx_MASK with (Z.ones 18);
  change BIFROST_INST_RsBx_MASK with (Z.ones 18).

Lemma decodeRa_ABC (op a b c : Z) :
  bfInst_decodeRa (BIFROST_MAKE_INST_OP_ABC op a b c) = Z.land a (Z.ones 9).
Proof. unfold_inst. Z.bitblast. Qed.

Lemma decodeRb_ABC (op a b c : Z) :
  bfInst_decodeRb (BIFROST_MAKE_INST_OP_ABC op a b c) = Z.land b (Z.ones 9).
Proof. unfold_inst. Z.bitblast. Qed.

Lemma decodeRc_ABC (op a b c : Z) :
  bfInst_decodeRc (BIFROST_MAKE_INST_OP_ABC op a b c) = Z.land c (Z.ones 9).
Proof. unfold_inst. Z.bitblast. Qed.

Lemma decodeRa_AsBx (op a sbx : Z) :
  bfInst_decodeRa (BIFROST_MAKE_INST_OP_AsBx op a sbx) = Z.land a (Z.ones 9).
Proof. unfold_inst. Z.bitblast. Qed.

(** The three-operand and the wide-operand layouts: each decoder reads
    back the operand it was given, cut to the width of its field (5 bits of
    opcode, 9 bits for A, B and C, 18 bits for Bx), whatever the other
    operands are; the word is a [uint32_t]. *)
Theorem inst_fields_round_trip (op a b c bx : Z) :
  (let inst := BIFROST_MAKE_INST_OP_ABC op a b c in
   bfInst_decodeOp inst = op mod 32
   /\ bfInst_decodeRa inst = a mod 512
   /\ bfInst_decodeRb inst = b mod 512
   /\ bfInst_decodeRc inst = c mod 512
   /\ 0 <= inst < 2 ^ 32)
  /\ (let inst := BIFROST_MAKE_INST_OP_ABx op a bx in
      bfInst_decodeOp inst = op mod 32
      /\ bfInst_decodeRa inst = a mod 512
      /\ bfInst_decodeRBx inst = bx mod 2 ^ 18
      /\ 0 <= inst < 2 ^ 32).
Proof.
  cbv zeta.
  rewrite decodeOp_ABC, decodeRa_ABC, decodeRb_ABC, decodeRc_ABC,
    decodeOp_ABx, decodeRa_ABx, decodeRBx_ABx.
  rewrite !Z.land_ones by lia.
  repeat split; try reflexivity;
    try (unfold BIFROST_MAKE_INST_OP_ABC, BIFROST_MAKE_INST_OP_ABx, wrap32;
         apply Z.mod_pos_bound; lia).
Qed.

(** The signed layout: a jump offset between -131071 and 131072 is read
    back exactly by [bfInst_decodeRsBx]; any other offset comes back
    reduced modulo 2^18 into that range. *)
Theorem inst_signed_offset_round_trip (op a sbx : Z) :
  let inst := BIFROST_MAKE_INST_OP_AsBx op a sbx in
  bfInst_decodeOp inst = op mod 32
  /\ bfInst_decodeRa inst = a mod 512
  /\ bfInst_decodeRsBx inst = (sbx + 131071) mod 2 ^ 18 - 131071
  /\ (-131071 <= sbx <= 131072 -> bfInst_decodeRsBx inst = sbx)
  /\ -131071 <= bfInst_decodeRsBx inst <= 131072.
Proof.
  cbv zeta. unfold bfInst_decodeRsBx.
  rewrite decodeOp_AsBx, decodeRa_AsBx, decodeRBx_AsBx.
  change BIFROST_INST_RsBx_MAX with 131071.
  rewrite !Z.land_ones by lia.
  pose proof (Z.mod_pos_bound (sbx + 131071) (2 ^ 18) ltac:(lia)) as Hb.
  change (2 ^ 18) with 262144 in *.
  repeat split; try reflexivity; try lia.
  intros Hin. rewrite Z.mod_small by lia. lia.
Qed.

(** ** Values (bifrost_vm_value.c) *)

Lemma isPointer_not_number (v : Z) :
  bfVMValue_isPointer v = true -> bfVMValue_isNumber v = false.
Proof.
  unfold bfVMValue_isPointer, bfVMValue_isNumber. intros Hp.
  apply Z.eqb_eq in Hp.
  assert (Hq : Z.land v k_QuietNan = k_QuietNan).
  { change k_QuietNan with (Z.land k_VMValuePointerMask k_QuietNan) at 1.
    rewrite Z.land_assoc, Hp. reflexivity. }
  rewrite Hq, Z.eqb_refl. reflexivity.
Qed.

(** Boxing a pointer: an address below 2^50 that is not NULL is boxed into
    a value that is a pointer and nothing else, and [bfVMValue_asPointer]
    gives the address back; NULL is boxed into nil. *)
Theorem pointer_boxing_round_trip (addr : Z) :
  0 < addr < 2 ^ 50 ->
  let v := bfVMValue_fromPointer addr in
  bfVMValue_asPointer v = addr
  /\ bfVMValue_isPointer v = true
  /\ bfVMValue_isNumber v = false
  /\ bfVMValue_isNull v = false
  /\ bfVMValue_isBool v = false
  /\ bfVMValue_fromPointer 0 = bfVMValue_fromNull.
Proof.
  intros Haddr v.
  assert (Hp : bfVMValue_isPointer v = true) by (apply isPointer_fromPointer; lia).
  assert (Hnot : forall c, Z.land c k_VMValuePointerMask <> k_VMValuePointerMask -> (v =? c) = false).
  { intros c Hc. apply Z.eqb_neq. intros ->.
    unfold bfVMValue_isPointer in Hp. apply Z.eqb_eq in Hp. contradiction. }
  split; [apply asPointer_fromPointer; assumption|].
  split; [exact Hp|].
  split; [apply isPointer_not_number; exact Hp|].
  split; [apply Hnot; vm_compute; discriminate|].
  split; [|reflexivity].
  unfold bfVMValue_isBool, bfVMValue_isTrue, bfVMValue_isFalse.
  rewrite !Hnot by (vm_compute; discriminate). reflexivity.
Qed.

Lemma pointer_boxing_round_trip_witness :
  bfVMValue_asPointer (bfVMValue_fromPointer 4096) = 4096.
Proof.
  apply (pointer_boxing_round_trip 4096). lia.
Defined.

(** The kinds of values exclude one another, the one exception being that
    false is nil: a number is neither a pointer nor nil nor a boolean, a
    pointer is neither nil nor a boolean, and nil is not true. *)
Theorem value_kinds_exclusive (v : Z) :
  (bfVMValue_isNumber v = true ->
   bfVMValue_isPointer v = false /\ bfVMValue_isNull v = false /\ bfVMValue_isBool v = false)
  /\ (bfVMValue_isPointer v = true ->
      bfVMValue_isNull v = false /\ bfVMValue_isBool v = false)
  /\ (bfVMValue_isNull v = true -> bfVMValue_isTrue v = false)
  /\ (bfVMValue_isFalse v = bfVMValue_isNull v).
Proof.
  split.
  { intros Hn.
    assert (Hnot : forall c, bfVMValue_isNumber c = false -> (v =? c) = false).
    { intros c Hc. apply Z.eqb_neq. intros ->. congruence. }
    split.
    { destruct (bfVMValue_isPointer v) eqn:Hp; [|reflexivity].
      apply isPointer_not_number in Hp. congruence. }
    unfold bfVMValue_isBool, bfVMValue_isNull, bfVMValue_isTrue, bfVMValue_isFalse.
    rewrite !Hnot by reflexivity. split; reflexivity. }
  split.
  { intros Hp.
    assert (Hnot : forall c, bfVMValue_isPointer c = false -> (v =? c) = false).
    { intros c Hc. apply Z.eqb_neq. intros ->. congruence. }
    unfold bfVMValue_isBool, bfVMValue_isNull, bfVMValue_isTrue, bfVMValue_isFalse.
    rewrite !Hnot by reflexivity. split; reflexivity. }
  split; [|reflexivity].
  unfold bfVMValue_isNull, bfVMValue_isTrue. intros Hn.
  apply Z.eqb_eq in Hn. subst v. reflexivity.
Qed.

Lemma value_kinds_exclusive_witness :
  bfVMValue_isPointer (bfVMValue_fromNumber 0) = false.
Proof.
  destruct (value_kinds_exclusive (bfVMValue_fromNumber 0)) as (Hnum & _).
  apply Hnum. reflexivity.
Defined.

Lemma inst_signed_offset_round_trip_witness :
  bfInst_decodeRsBx (BIFROST_MAKE_INST_OP_AsBx (op_code BIFROST_VM_OP_JUMP) 0 (-3)) = -3.
Proof.
  destruct (inst_signed_offset_round_trip (op_code BIFROST_VM_OP_JUMP) 0 (-3))
    as (_ & _ & _ & Hin & _).
  apply Hin. lia.
Defined.

(** ** Strings (bifrost_vm_obj.c) *)

Lemma bfVMString_cmp_zero_iff (s t : bytes) :
  bfVMString_cmp s t = 0 <-> length s = length t /\ c_string s = c_string t.
Proof.
  unfold bfVMString_cmp, bfVMString_length.
  destruct (Z.eqb_spec (Z.of_nat (length s)) (Z.of_nat (length t))) as [Heq|Hne]; cbn [negb].
  - rewrite Nat2Z.id. apply Nat2Z.inj in Heq.
    rewrite (LibC_strncmp_zero_iff s t Heq). tauto.
  - split; [discriminate|]. intros [Hlen _]. congruence.
Qed.

(** [bfVMString_cmp] answers 0 exactly for two strings of the same length
    that agree up to their first NUL; for strings without a NUL that is
    equality, and it answers -1 whenever the lengths differ. *)
Theorem bfVMString_cmp_equality (s t : bytes) :
  (bfVMString_cmp s t = 0 <-> length s = length t /\ c_string s = c_string t)
  /\ (Forall (fun c => c <> 0) s -> Forall (fun c => c <> 0) t ->
      (bfVMString_cmp s t = 0 <-> s = t))
  /\ (length s <> length t -> bfVMString_cmp s t = -1).
Proof.
  pose proof (bfVMString_cmp_zero_iff s t) as Hiff.
  split; [exact Hiff|]. split.
  - intros Hs Ht. rewrite Hiff, (c_string_no_NUL s Hs), (c_string_no_NUL t Ht).
    split; [tauto|]. intros ->. auto.
  - intros Hne. unfold bfVMString_cmp, bfVMString_length.
    destruct (Z.eqb_spec (Z.of_nat (length s)) (Z.of_nat (length t))) as [Heq|_];
      [apply Nat2Z.inj in Heq; contradiction|reflexivity].
Qed.

Lemma bfVMString_cmp_equality_witness :
  bfVMString_cmp (map chr ["a"; "b"]%char) (map chr ["a"; "c"]%char) <> 0.
Proof.
  destruct (bfVMString_cmp_equality (map chr ["a"; "b"]%char) (map chr ["a"; "c"]%char))
    as (_ & Hplain & _).
  intros Hcmp. apply Hplain in Hcmp.
  - discriminate Hcmp.
  - repeat constructor; discriminate.
  - repeat constructor; discriminate.
Defined.

Lemma EscapeConvert_not_NUL (c : Z) : c <> 0 -> EscapeConvert c <> 0.
Proof.
  intros Hc. unfold EscapeConvert.
  repeat (match goal with |- context [if ?b then _ else _] => destruct b end);
    first [discriminate | exact Hc].
Qed.

Lemma CString_unescape_facts (n : nat) (s : bytes) :
  (length s <= n)%nat ->
  (length (CString_unescape s) <= length s)%nat
  /\ Forall (fun c => c <> 0) (CString_unescape s).
Proof.
  revert s. induction n as [|n IH]; intros s Hn.
  - destruct s; [split; [reflexivity|constructor]|cbn in Hn; lia].
  - destruct s as [|c rest]; [split; [reflexivity|constructor]|].
    cbn [CString_unescape].
    destruct (Z.eqb_spec c 0) as [|Hc]; [split; [cbn; lia|constructor]|].
    destruct (Z.eqb_spec c 92) as [|_].
    + destruct rest as [|c' rest']; [split; [cbn; lia|constructor]|].
      destruct (Z.eqb_spec c' 0) as [|Hc']; [split; [cbn; lia|constructor]|].
      destruct (IH rest' ltac:(cbn in Hn; lia)) as [Hlen Hall].
      split; [cbn; lia|].
      constructor; [apply EscapeConvert_not_NUL; assumption|assumption].
    + destruct (IH rest ltac:(cbn in Hn; lia)) as [Hlen Hall].
      split; [cbn; lia|]. constructor; assumption.
Qed.

(** Unescaping in place ([bfVMString_unescape], which [bfObj_NewString]
    applies to every string object): the text never gets longer, what is
    left holds no NUL, and a text with neither a backslash nor a NUL is left
    as it is. *)
Theorem CString_unescape_shrinks (s : bytes) :
  (length (CString_unescape s) <= length s)%nat
  /\ Forall (fun c => c <> 0) (CString_unescape s)
  /\ (Forall (fun c => c <> 0 /\ c <> 92) s -> CString_unescape s = s)
  /\ str_value (bfObj_NewString_value s) = CString_unescape s
  /\ str_hash (bfObj_NewString_value s) = bfVMString_hashN (CString_unescape s).
Proof.
  destruct (CString_unescape_facts (length s) s (le_n _)) as [Hlen Hall].
  split; [exact Hlen|]. split; [exact Hall|]. split; [|split; reflexivity].
  clear Hlen Hall. induction 1 as [|c rest [Hc Hb] _ IH]; [reflexivity|].
  cbn [CString_unescape].
  destruct (Z.eqb_spec c 0); [contradiction|].
  destruct (Z.eqb_spec c 92); [contradiction|].
  rewrite IH. reflexivity.
Qed.

Lemma CString_unescape_shrinks_witness :
  CString_unescape (map chr ["s"; "t"; "d"; ":"; "i"; "o"]%char)
  = map chr ["s"; "t"; "d"; ":"; "i"; "o"]%char.
Proof.
  destruct (CString_unescape_shrinks (map chr ["s"; "t"; "d"; ":"; "i"; "o"]%char))
    as (_ & _ & Hplain & _).
  apply Hplain. repeat constructor; discriminate.
Defined.

(** ** Arrays (bifrost_vm_obj.c) *)

(** The array primitives: the element pushed is the last one and popping
    it gives the array back; popping an empty array fails its assertion and
    reading the back of one is undefined; a resize to [n] gives an array of
    [n] elements that keeps the elements below [n]. *)
Theorem bfVMArray_push_pop {A : Type} (self : list A) (x junk : A) (n : Z) :
  bfVMArray_back (bfVMArray_push self x) = Ok x
  /\ bfVMArray_pop (bfVMArray_push self x) = Ok self
  /\ bfVMArray_size (bfVMArray_push self x) = bfVMArray_size self + 1
  /\ bfVMArray_pop (@nil A) = Aborted
  /\ bfVMArray_back (@nil A) = Undefined
  /\ (0 <= n ->
      bfVMArray_size (bfVMArray_resize junk self n) = n
      /\ forall i, (i < Z.to_nat n)%nat ->
           bfVMArray_resize junk self n !! i
           = Some (default junk (self !! i))).
Proof.
  unfold bfVMArray_back, bfVMArray_pop, bfVMArray_push, bfVMArray_size, bfVMArray_resize.
  split; [rewrite last_snoc; reflexivity|].
  split.
  { rewrite length_app. cbn [length].
    destruct (Z.eqb_spec (Z.of_nat (length self + 1)) 0); [lia|].
    cbn. rewrite removelast_last. reflexivity. }
  split; [rewrite length_app; cbn [length]; lia|].
  split; [reflexivity|]. split; [reflexivity|].
  intros Hn. split.
  { rewrite length_app, length_take, length_replicate. lia. }
  intros i Hi.
  destruct (Nat.lt_ge_cases i (length self)) as [Hlt|Hge].
  - rewrite lookup_app_l by (rewrite length_take; lia).
    rewrite lookup_take_lt by lia.
    destruct (lookup_lt_is_Some_2 self i Hlt) as [y Hy]. rewrite Hy. reflexivity.
  - rewrite lookup_app_r by (rewrite length_take; lia).
    rewrite length_take, (lookup_ge_None_2 self i) by lia.
    rewrite lookup_replicate_2 by lia. reflexivity.
Qed.

Lemma bfVMArray_push_pop_witness :
  bfVMArray_size (bfVMArray_resize 0 [1; 2; 3] 2) = 2.
Proof.
  destruct (bfVMArray_push_pop [1; 2; 3] 0 0 2) as (_ & _ & _ & _ & _ & Hresize).
  apply Hresize. lia.
Defined.

(** ** The hash map (bifrost_hash_map.c) *)

Section HashMapFacts.
Context {K V : Type} (hash : K -> Z) (cmp : K -> K -> bool).
Context (Hequiv : key_equivalence hash cmp).

Lemma find_all_false {A : Type} (f : A -> bool) (l : list A) :
  Forall (fun x => f x = false) l -> List.find f l = None.
Proof. induction 1 as [|x l Hx _ IH]; [reflexivity|]. cbn. rewrite Hx. exact IH. Qed.

Lemma cmp_congruent (a b c : K) : cmp a b = true -> cmp a c = cmp b c.
Proof.
  destruct Hequiv as (_ & Hsym & Htrans & _). intros Hab.
  destruct (cmp b c) eqn:Hbc.
  - eapply Htrans; eassumption.
  - destruct (cmp a c) eqn:Hac; [|reflexivity].
    rewrite <- Hbc. symmetry. eapply Htrans; [apply Hsym|]; eassumption.
Qed.

Lemma cmp_sym (a b : K) : cmp a b = cmp b a.
Proof.
  destruct Hequiv as (_ & Hsym & _).
  destruct (cmp a b) eqn:Hab; [symmetry; auto|].
  destruct (cmp b a) eqn:Hba; [|reflexivity].
  apply Hsym in Hba. congruence.
Qed.

Lemma find_chain_set (key key' : K) (value : V) (chain : list (K * V)) (node : K * V) :
  List.find (fun node : K * V => cmp key (fst node)) chain = Some node ->
  List.find (fun node : K * V => cmp key' (fst node)) (chain_set cmp key value chain)
  = if cmp key' key then Some (key, value) else List.find (fun node : K * V => cmp key' (fst node)) chain.
Proof.
  induction chain as [|n rest IH]; [discriminate|].
  cbn [List.find chain_set].
  destruct (cmp key (fst n)) eqn:Hkn.
  - intros _. cbn [List.find fst].
    destruct (cmp key' key) eqn:Hk'; [reflexivity|].
    rewrite (cmp_sym key' (fst n)), <- (cmp_congruent key (fst n) key' Hkn), (cmp_sym key key'), Hk'.
    reflexivity.
  - intros Hfind. cbn [List.find].
    destruct (cmp key' (fst n)) eqn:Hk'n.
    + destruct (cmp key' key) eqn:Hk'; [|reflexivity].
      rewrite (cmp_congruent key' key (fst n) Hk') in Hk'n. congruence.
    + apply IH. exact Hfind.
Qed.

Lemma find_chain_remove (key key' : K) (chain chain' : list (K * V)) :
  chain_distinct cmp chain ->
  chain_remove cmp key chain = Some chain' ->
  List.find (fun node : K * V => cmp key' (fst node)) chain' = if cmp key' key then None else List.find (fun node : K * V => cmp key' (fst node)) chain.
Proof.
  revert chain'. induction chain as [|n rest IH]; [discriminate|].
  intros chain' [Hn Hrest]. cbn [chain_remove List.find].
  destruct (cmp key (fst n)) eqn:Hkn.
  - intros [= <-].
    destruct (cmp key' key) eqn:Hk'.
    + apply find_all_false. eapply Forall_impl; [exact Hn|].
      intros other Hother. cbn beta.
      rewrite (cmp_congruent key' key _ Hk'), (cmp_congruent key (fst n) _ Hkn). exact Hother.
    + rewrite (cmp_sym key' (fst n)), <- (cmp_congruent key (fst n) key' Hkn),
        (cmp_sym key key'), Hk'. reflexivity.
  - destruct (chain_remove cmp key rest) as [rest'|] eqn:Hrem; [|discriminate].
    intros [= <-]. cbn [List.find].
    destruct (cmp key' (fst n)) eqn:Hk'n.
    + destruct (cmp key' key) eqn:Hk'; [|reflexivity].
      rewrite (cmp_congruent key' key (fst n) Hk') in Hk'n. congruence.
    + apply IH; [exact Hrest|reflexivity].
Qed.

Lemma chain_remove_none (key : K) (chain : list (K * V)) :
  chain_remove cmp key chain = None <-> List.find (fun node : K * V => cmp key (fst node)) chain = None.
Proof.
  induction chain as [|n rest IH]; [split; reflexivity|].
  cbn [chain_remove List.find]. destruct (cmp key (fst n)); [split; discriminate|].
  destruct (chain_remove cmp key rest); cbn.
  - split; [discriminate|]. intros H. apply IH in H. discriminate.
  - split; [intros _; apply IH; reflexivity|reflexivity].
Qed.

Lemma chain_set_Forall (P : K * V -> Prop) (key : K) (value : V) (chain : list (K * V)) :
  Forall P chain -> P (key, value) -> Forall P (chain_set cmp key value chain).
Proof.
  intros Hall Hnew. induction Hall as [|n rest Hn Hrest IH]; [constructor|].
  cbn [chain_set]. destruct (cmp key (fst n)); constructor; assumption.
Qed.

Lemma chain_set_distinct (key : K) (value : V) (chain : list (K * V)) :
  chain_distinct cmp chain -> chain_distinct cmp (chain_set cmp key value chain).
Proof.
  induction chain as [|n rest IH]; [trivial|].
  intros [Hn Hrest]. cbn [chain_set].
  destruct (cmp key (fst n)) eqn:Hkn; cbn [chain_distinct fst].
  - split; [|exact Hrest].
    eapply Forall_impl; [exact Hn|]. intros other Hother. cbn beta in *.
    rewrite (cmp_congruent key (fst n) _ Hkn). exact Hother.
  - split; [|apply IH; exact Hrest].
    apply chain_set_Forall; [exact Hn|]. cbn [fst]. rewrite cmp_sym. exact Hkn.
Qed.

Lemma chain_remove_Forall (P : K * V -> Prop) (key : K) (chain chain' : list (K * V)) :
  chain_remove cmp key chain = Some chain' -> Forall P chain -> Forall P chain'.
Proof.
  revert chain'. induction chain as [|n rest IH]; [discriminate|].
  intros chain' Hrem Hall. inversion Hall as [|? ? Hn Hrest]; subst.
  cbn [chain_remove] in Hrem. destruct (cmp key (fst n)).
  - injection Hrem as <-. exact Hrest.
  - destruct (chain_remove cmp key rest) as [rest'|]; [|discriminate].
    injection Hrem as <-. constructor; [exact Hn|]. apply IH; [reflexivity|exact Hrest].
Qed.

Lemma chain_remove_distinct (key : K) (chain chain' : list (K * V)) :
  chain_remove cmp key chain = Some chain' ->
  chain_distinct cmp chain -> chain_distinct cmp chain'.
Proof.
  revert chain'. induction chain as [|n rest IH]; [discriminate|].
  intros chain' Hrem [Hn Hrest].
  cbn [chain_remove] in Hrem. destruct (cmp key (fst n)).
  - injection Hrem as <-. exact Hrest.
  - destruct (chain_remove cmp key rest) as [rest'|] eqn:Hrest'; [|discriminate].
    injection Hrem as <-. split.
    + eapply chain_remove_Forall; eassumption.
    + apply IH; [reflexivity|exact Hrest].
Qed.

Lemma bucket_index_lt (key : K) :
  (bucket_index hash key < Z.to_nat BIFROST_HASH_MAP_BUCKET_SIZE)%nat.
Proof.
  unfold bucket_index, BIFROST_HASH_MAP_BUCKET_SIZE.
  pose proof (Z.mod_pos_bound (hash key) 128 ltac:(lia)). lia.
Qed.

Lemma bfHashMap_get_set_law (self : BifrostHashMap K V) (key key' : K) (value : V) :
  length self = Z.to_nat BIFROST_HASH_MAP_BUCKET_SIZE ->
  bfHashMap_get hash cmp (bfHashMap_set hash cmp self key value) key'
  = (if cmp key' key then Some value else bfHashMap_get hash cmp self key')
  /\ bfHashMap_get hash cmp (bfHashMap_ctor : BifrostHashMap K V) key' = None.
Proof.
  intros Hlen. split.
  2: { unfold bfHashMap_get, bfHashMap_getNode, bfHashMap_ctor, BifrostHashMap.
       rewrite lookup_replicate_2 by apply bucket_index_lt. reflexivity. }
  pose proof (bucket_index_lt key) as Hb. rewrite <- Hlen in Hb.
  destruct Hequiv as (_ & _ & _ & Hbucket).
  unfold bfHashMap_get, bfHashMap_set, bfHashMap_getNode, BifrostHashMap in *.
  set (bucket := bucket_index hash key) in *.
  set (chain := default [] (self !! bucket)).
  assert (Hsame : bucket_index hash key' = bucket ->
            self !! bucket_index hash key' = Some chain).
  { intros ->. subst chain. destruct (lookup_lt_is_Some_2 self bucket Hb) as [c Hc].
    rewrite Hc. reflexivity. }
  destruct (Nat.eq_dec (bucket_index hash key') bucket) as [Heq|Hne].
  - rewrite (Hsame Heq), Heq. cbn [from_option id].
    destruct (List.find (fun node : K * V => cmp key (fst node)) chain) as [node|] eqn:Hfind.
    + rewrite list_lookup_insert_eq by exact Hb. cbn [from_option id].
      rewrite (find_chain_set _ _ _ _ _ Hfind).
      destruct (cmp key' key); reflexivity.
    + rewrite list_lookup_insert_eq by exact Hb. cbn [from_option id List.find fst].
      destruct (cmp key' key); reflexivity.
  - assert (Hcmp : cmp key' key = false).
    { destruct (cmp key' key) eqn:Hc; [|reflexivity]. apply Hbucket in Hc. contradiction. }
    rewrite Hcmp.
    destruct (List.find (fun node : K * V => cmp key (fst node)) chain);
      rewrite list_lookup_insert_ne by (intros E; apply Hne; symmetry; exact E); reflexivity.
Qed.

(** The map law of [bfHashMap_set] and [bfHashMap_get]: after a value is
    set under a key, the keys that [cmp] takes for that key read the value
    and every other key reads what it read before; nothing is read from a
    map fresh from [bfHashMap_ctor]. *)
Theorem bfHashMap_get_after_set (self : BifrostHashMap K V) (key key' : K) (value : V) :
  length self = Z.to_nat BIFROST_HASH_MAP_BUCKET_SIZE ->
  bfHashMap_get hash cmp (bfHashMap_set hash cmp self key value) key'
  = (if cmp key' key then Some value else bfHashMap_get hash cmp self key')
  /\ bfHashMap_get hash cmp (bfHashMap_ctor : BifrostHashMap K V) key' = None.
Proof. exact (bfHashMap_get_set_law self key key' value). Qed.

Lemma bfHashMap_wf_steps (self : BifrostHashMap K V) (key : K) (value : V) :
  bfHashMap_wf hash cmp (bfHashMap_ctor : BifrostHashMap K V)
  /\ (bfHashMap_wf hash cmp self ->
      bfHashMap_wf hash cmp (bfHashMap_set hash cmp self key value)
      /\ bfHashMap_wf hash cmp (fst (bfHashMap_remove hash cmp self key))).
Proof.
  unfold bfHashMap_wf, BifrostHashMap in *.
  split.
  { split; [apply length_replicate|]. split.
    - apply Forall_replicate. exact I.
    - intros bucket chain Hlook. apply lookup_replicate in Hlook as [-> _]. constructor. }
  intros (Hlen & Hdistinct & Hplaced).
  pose proof (bucket_index_lt key) as Hb. rewrite <- Hlen in Hb.
  destruct (lookup_lt_is_Some_2 self _ Hb) as [chain Hchain].
  assert (Hchain_distinct : chain_distinct cmp chain)
    by (eapply Forall_lookup_1; eassumption).
  assert (Hchain_placed := Hplaced _ _ Hchain).
  assert (Hkept : forall new : list (K * V),
             chain_distinct cmp new ->
             Forall (fun node => bucket_index hash (fst node) = bucket_index hash key) new ->
             length (<[bucket_index hash key := new]> self)
             = Z.to_nat BIFROST_HASH_MAP_BUCKET_SIZE
             /\ Forall (chain_distinct cmp) (<[bucket_index hash key := new]> self)
             /\ forall (bucket : nat) (c : list (K * V)),
                  <[bucket_index hash key := new]> self !! bucket = Some c ->
                  Forall (fun node => bucket_index hash (fst node) = bucket) c).
  { intros new Hnew_distinct Hnew_placed.
    split; [rewrite length_insert; exact Hlen|]. split.
    - apply Forall_insert; assumption.
    - intros bucket c Hlook.
      destruct (Nat.eq_dec bucket (bucket_index hash key)) as [->|Hne].
      + rewrite list_lookup_insert_eq in Hlook by exact Hb. injection Hlook as <-. exact Hnew_placed.
      + rewrite list_lookup_insert_ne in Hlook by (intros E; apply Hne; symmetry; exact E).
        eapply Hplaced. exact Hlook. }
  split.
  - unfold bfHashMap_set, bfHashMap_getNode, BifrostHashMap in *. rewrite Hchain. cbn [from_option id].
    destruct (List.find (fun node : K * V => cmp key (fst node)) chain) as [node|] eqn:Hfind.
    + apply Hkept; [apply chain_set_distinct; exact Hchain_distinct|].
      apply chain_set_Forall; [exact Hchain_placed|reflexivity].
    + apply Hkept.
      * split; [|exact Hchain_distinct]. apply Forall_forall. intros other Hin.
        apply list_elem_of_In in Hin. apply (find_none _ _ Hfind other Hin).
      * constructor; [reflexivity|exact Hchain_placed].
  - unfold bfHashMap_remove, bfHashMap_removeCmp, BifrostHashMap in *. rewrite Hchain. cbn [from_option id].
    destruct (chain_remove cmp key chain) as [chain'|] eqn:Hrem; cbn [fst].
    + apply Hkept; [eapply chain_remove_distinct|eapply chain_remove_Forall]; eassumption.
    + split; [exact Hlen|]. split; assumption.
Qed.

(** The shape of the map is kept: a map fresh from [bfHashMap_ctor] has
    it, and [bfHashMap_set] and [bfHashMap_remove] keep it: the same 128
    buckets, every node in the bucket of its key, no key stored twice. *)
Theorem bfHashMap_wf_kept (self : BifrostHashMap K V) (key : K) (value : V) :
  bfHashMap_wf hash cmp (bfHashMap_ctor : BifrostHashMap K V)
  /\ (bfHashMap_wf hash cmp self ->
      bfHashMap_wf hash cmp (bfHashMap_set hash cmp self key value)
      /\ bfHashMap_wf hash cmp (fst (bfHashMap_remove hash cmp self key))).
Proof. exact (bfHashMap_wf_steps self key value). Qed.

(** [bfHashMap_remove] answers 1 exactly when the key is in the map; after
    it the key and the keys that [cmp] takes for it read nothing, every
    other key reads what it read before, and a map without the key is left
    as it was. *)
Theorem bfHashMap_get_after_remove (self : BifrostHashMap K V) (key key' : K) :
  bfHashMap_wf hash cmp self ->
  let removed := bfHashMap_remove hash cmp self key in
  snd removed = (if bfHashMap_has hash cmp self key then 1 else 0)
  /\ bfHashMap_get hash cmp (fst removed) key'
     = (if cmp key' key then None else bfHashMap_get hash cmp self key')
  /\ (bfHashMap_has hash cmp self key = false ->
      fst removed = self /\ bfHashMap_get hash cmp self key = None).
Proof.
  intros Hwf removed. subst removed.
  unfold bfHashMap_wf, BifrostHashMap in *.
  destruct Hwf as (Hlen & Hdistinct & Hplaced).
  pose proof (bucket_index_lt key) as Hb. rewrite <- Hlen in Hb.
  destruct (lookup_lt_is_Some_2 self _ Hb) as [chain Hchain].
  assert (Hchain_distinct : chain_distinct cmp chain)
    by (eapply Forall_lookup_1; eassumption).
  destruct Hequiv as (_ & _ & _ & Hbucket).
  unfold bfHashMap_remove, bfHashMap_removeCmp, bfHashMap_has, bfHashMap_get, bfHashMap_getNode,
    BifrostHashMap in *.
  rewrite Hchain. cbn [from_option id].
  destruct (chain_remove cmp key chain) as [chain'|] eqn:Hrem; cbn [fst snd].
  - assert (Hfound : List.find (fun node : K * V => cmp key (fst node)) chain <> None).
    { intros Hnone. apply chain_remove_none in Hnone. congruence. }
    destruct (List.find (fun node : K * V => cmp key (fst node)) chain) eqn:Hfind;
      [|contradiction].
    split; [reflexivity|]. split; [|discriminate].
    destruct (Nat.eq_dec (bucket_index hash key') (bucket_index hash key)) as [Heq|Hne].
    + rewrite Heq, Hchain, list_lookup_insert_eq by exact Hb. cbn [from_option id].
      rewrite (find_chain_remove _ _ _ _ Hchain_distinct Hrem).
      destruct (cmp key' key); reflexivity.
    + rewrite list_lookup_insert_ne by (intros E; apply Hne; symmetry; exact E).
      destruct (cmp key' key) eqn:Hc; [apply Hbucket in Hc; contradiction|reflexivity].
  - apply chain_remove_none in Hrem. rewrite Hrem.
    split; [reflexivity|]. split; [|intros _; split; reflexivity].
    destruct (cmp key' key) eqn:Hc; [|reflexivity].
    rewrite (Hbucket _ _ Hc), Hchain. cbn [from_option id].
    rewrite (find_all_false (fun node : K * V => cmp key' (fst node)) chain); [reflexivity|].
    apply Forall_forall. intros other Hin. apply list_elem_of_In in Hin.
    rewrite (cmp_congruent key' key _ Hc). apply (find_none _ _ Hrem other Hin).
Qed.

End HashMapFacts.

(** The two pairs of callbacks that the runtime gives its maps. *)
Lemma default_key_equivalence : key_equivalence bfHashMap_defaultHash bfHashMap_defaultCmp.
Proof.
  unfold key_equivalence, bfHashMap_defaultCmp, bucket_index, bfHashMap_defaultHash.
  repeat split.
  - intros a. apply bool_decide_eq_true. reflexivity.
  - intros a b H. apply bool_decide_eq_true in H. apply bool_decide_eq_true. congruence.
  - intros a b c H1 H2. apply bool_decide_eq_true in H1, H2. apply bool_decide_eq_true.
    congruence.
  - intros a b H. apply bool_decide_eq_true in H. rewrite H. reflexivity.
Qed.

Lemma ModuleMap_cmp_spec (a b : BifrostObjStr) :
  ModuleMap_cmp a b = true
  <-> str_hash a = str_hash b
      /\ length (str_value a) = length (str_value b)
      /\ c_string (str_value a) = c_string (str_value b).
Proof.
  unfold ModuleMap_cmp. rewrite andb_true_iff, !Z.eqb_eq.
  rewrite (bfVMString_cmp_zero_iff (str_value a) (str_value b)). tauto.
Qed.

Lemma ModuleMap_key_equivalence : key_equivalence ModuleMap_hash ModuleMap_cmp.
Proof.
  unfold key_equivalence. repeat split.
  - intros a. apply ModuleMap_cmp_spec. auto.
  - intros a b H. apply ModuleMap_cmp_spec in H. apply ModuleMap_cmp_spec.
    destruct H as (? & ? & ?). auto.
  - intros a b c H1 H2. apply ModuleMap_cmp_spec in H1, H2. apply ModuleMap_cmp_spec.
    destruct H1 as (? & ? & ?), H2 as (? & ? & ?). repeat split; congruence.
  - intros a b H. apply ModuleMap_cmp_spec in H. destruct H as (Hh & _).
    unfold bucket_index, ModuleMap_hash. rewrite Hh. reflexivity.
Qed.

Lemma bfHashMap_get_after_set_witness :
  bfHashMap_get bfHashMap_defaultHash bfHashMap_defaultCmp
    (bfHashMap_set bfHashMap_defaultHash bfHashMap_defaultCmp bfHashMap_ctor [chr "x"] 7)
    [chr "x"]
  = Some 7.
Proof.
  destruct (bfHashMap_get_after_set bfHashMap_defaultHash bfHashMap_defaultCmp
              default_key_equivalence (bfHashMap_ctor : BifrostHashMap bytes Z)
              [chr "x"] [chr "x"] 7 eq_refl) as [Hget _].
  rewrite Hget. reflexivity.
Defined.

Lemma bfHashMap_wf_kept_witness :
  bfHashMap_wf ModuleMap_hash ModuleMap_cmp (modules demo_modules_vm).
Proof.
  destruct (bfHashMap_wf_kept ModuleMap_hash ModuleMap_cmp ModuleMap_key_equivalence
              (bfHashMap_ctor : BifrostHashMap BifrostObjStr Z)
              (bfObj_NewString_value std_io) 8192) as [Hctor Hkept].
  apply Hkept. exact Hctor.
Defined.

Lemma bfHashMap_get_after_remove_witness :
  bfHashMap_get ModuleMap_hash ModuleMap_cmp
    (fst (bfHashMap_remove ModuleMap_hash ModuleMap_cmp (modules demo_modules_vm)
            (bfObj_NewString_value std_io)))
    (bfObj_NewString_value std_io)
  = None.
Proof.
  destruct (bfHashMap_wf_steps ModuleMap_hash ModuleMap_cmp ModuleMap_key_equivalence
              (bfHashMap_ctor : BifrostHashMap BifrostObjStr Z)
              (bfObj_NewString_value std_io) 8192) as [Hctor Hkept].
  destruct (bfHashMap_get_after_remove ModuleMap_hash ModuleMap_cmp ModuleMap_key_equivalence
              (modules demo_modules_vm) (bfObj_NewString_value std_io)
              (bfObj_NewString_value std_io) (proj1 (Hkept Hctor)))
    as (_ & Hget & _).
  rewrite Hget. reflexivity.
Defined.

(** ** The function builder (bifrost_vm_function_builder.c) *)

Lemma declVariable_in_scope ccmpn_source (self : BifrostVMFunctionBuilder)
    (var_name : string_range) (base added : list string_range) (scopes : list Z) :
  local_vars self = base ++ added ->
  local_var_scope_size self = scopes ++ [Z.of_nat (length added)] ->
  exists self' slot again added',
    bfFuncBuilder_declVariable ccmpn_source self var_name = Ok (self', slot, again)
    /\ local_vars self' = base ++ added'
    /\ local_var_scope_size self' = scopes ++ [Z.of_nat (length added')]
    /\ max_local_idx self <= max_local_idx self'
    /\ instructions self' = instructions self
    /\ code_to_line self' = code_to_line self.
Proof.
  intros Hvars Hscopes.
  unfold bfFuncBuilder_declVariable, bfFuncBuilder__getVariable, bfVMArray_back.
  rewrite Hscopes, last_snoc. cbn [defined res_bind].
  unfold bfVMArray_size. rewrite Hvars, length_app.
  destruct ((Z.of_nat (length added) <=? 0)
            || (Z.of_nat (length added) <=? Z.of_nat (length base + length added)))
    eqn:Hassert.
  2: { apply orb_false_iff in Hassert as [_ H]. apply Z.leb_gt in H. lia. }
  cbn [LibC_assert res_bind].
  destruct (negb (_ =? BIFROST_ARRAY_INVALID_INDEX)).
  - exists self, (wrap32 (getVariable_scan ccmpn_source var_name
                           (rev (take (Z.to_nat (Z.of_nat (length added)))
                                      (indexed (base ++ added)))))), true, added.
    repeat split; try assumption; try reflexivity; lia.
  - eexists _, _, false, (added ++ [var_name]).
    split; [reflexivity|]. cbn.
    unfold bfVMArray_push. rewrite <- app_assoc.
    split; [reflexivity|].
    rewrite removelast_last, length_app. cbn [length].
    split; [f_equal; f_equal; lia|].
    split; [|split; reflexivity].
    destruct (Z.ltb_spec (max_local_idx self) (Z.of_nat (length base + length added))); lia.
Qed.

Lemma declare_variables_in_scope ccmpn_source (names : list string_range) :
  forall (self : BifrostVMFunctionBuilder) (base added : list string_range) (scopes : list Z),
    local_vars self = base ++ added ->
    local_var_scope_size self = scopes ++ [Z.of_nat (length added)] ->
    exists declared added',
      declare_variables ccmpn_source self names = Ok declared
      /\ local_vars declared = base ++ added'
      /\ local_var_scope_size declared = scopes ++ [Z.of_nat (length added')]
      /\ max_local_idx self <= max_local_idx declared
      /\ instructions declared = instructions self
      /\ code_to_line declared = code_to_line self.
Proof.
  induction names as [|var_name rest IH]; intros self base added scopes Hvars Hscopes.
  - exists self, added. repeat split; try assumption; try reflexivity; lia.
  - destruct (declVariable_in_scope ccmpn_source self var_name base added scopes Hvars Hscopes)
      as (self' & slot & again & added' & Hdecl & Hvars' & Hscopes' & Hmax & Hcode & Hlines).
    destruct (IH self' base added' scopes Hvars' Hscopes')
      as (declared & added'' & Hrest & Hv & Hs & Hm & Hc & Hl).
    exists declared, added''. cbn [declare_variables]. rewrite Hdecl. cbn [res_bind fst].
    repeat split; try assumption; try congruence; lia.
Qed.

(** Scopes: whatever is declared in a scope after [bfFuncBuilder_pushScope],
    new names and reported duplicates alike, [bfFuncBuilder_popScope] takes
    away again: the locals and the scope sizes are what they were before the
    scope was pushed, the code is untouched, and [max_local_idx] has not
    gone down. *)
Theorem scope_push_pop ccmpn_source (self : BifrostVMFunctionBuilder)
    (names : list string_range) :
  bfVMArray_size (local_vars self) < 2 ^ 64 ->
  exists declared popped,
    declare_variables ccmpn_source (bfFuncBuilder_pushScope self) names = Ok declared
    /\ bfFuncBuilder_popScope declared = Ok popped
    /\ local_vars popped = local_vars self
    /\ local_var_scope_size popped = local_var_scope_size self
    /\ instructions popped = instructions self
    /\ max_local_idx self <= max_local_idx popped.
Proof.
  intros Hmem.
  destruct (declare_variables_in_scope ccmpn_source names (bfFuncBuilder_pushScope self)
              (local_vars self) [] (local_var_scope_size self))
    as (declared & added & Hdecl & Hvars & Hscopes & Hmax & Hcode & _).
  { cbn. rewrite app_nil_r. reflexivity. }
  { reflexivity. }
  exists declared. unfold bfFuncBuilder_popScope, bfVMArray_back, bfVMArray_pop, bfVMArray_size.
  rewrite Hscopes, last_snoc. cbn [defined res_bind].
  rewrite length_app. cbn [length].
  destruct (Z.eqb_spec (Z.of_nat (length (local_var_scope_size self) + 1)) 0); [lia|].
  cbn [negb LibC_assert res_bind].
  eexists. split; [exact Hdecl|]. split; [reflexivity|]. cbn.
  rewrite removelast_last. split; [|split; [reflexivity|split; [exact Hcode|exact Hmax]]].
  unfold bfVMArray_resize. rewrite Hvars, length_app.
  assert (Hsize : wrap64 (Z.of_nat (length (local_vars self) + length added)
                          - Z.of_nat (length added))
                  = Z.of_nat (length (local_vars self)) mod 2 ^ 64)
    by (unfold wrap64; f_equal; lia).
  rewrite Hsize.
  unfold bfVMArray_size in Hmem.
  rewrite Z.mod_small by lia. rewrite Nat2Z.id.
  rewrite take_app_length, length_app.
  replace (length (local_vars self) - (length (local_vars self) + length added))%nat
    with 0%nat by lia.
  cbn. apply app_nil_r.
Qed.

Lemma scope_push_pop_witness :
  exists declared popped,
    declare_variables bfVMString_ccmpn (bfFuncBuilder_pushScope (bfFuncBuilder_ctor 1))
      [[chr "x"]; [chr "y"]; [chr "x"]] = Ok declared
    /\ bfFuncBuilder_popScope declared = Ok popped
    /\ local_vars popped = [].
Proof.
  destruct (scope_push_pop bfVMString_ccmpn (bfFuncBuilder_ctor 1)
              [[chr "x"]; [chr "y"]; [chr "x"]])
    as (declared & popped & Hdecl & Hpop & Hvars & _); [vm_compute; reflexivity|].
  exists declared, popped. auto.
Defined.

(** Temporaries: [bfFuncBuilder_pushTemp] hands out the slots after the
    live locals, as unnamed locals, and [bfFuncBuilder_popTemp] with the slot
    it returned gives the locals back as they were; the scope sizes never
    count temporaries. *)
Theorem temp_push_pop (self : BifrostVMFunctionBuilder) (num_temps : Z) :
  0 <= num_temps ->
  bfVMArray_size (local_vars self) < 2 ^ 16 ->
  let pushed := bfFuncBuilder_pushTemp self num_temps in
  let popped := bfFuncBuilder_popTemp (fst pushed) (snd pushed) in
  snd pushed = bfVMArray_size (local_vars self)
  /\ local_vars (fst pushed) = local_vars self ++ replicate (Z.to_nat num_temps) []
  /\ local_var_scope_size (fst pushed) = local_var_scope_size self
  /\ local_vars popped = local_vars self
  /\ local_var_scope_size popped = local_var_scope_size self
  /\ instructions popped = instructions self.
Proof.
  intros Hn Hsize. cbv zeta.
  unfold bfFuncBuilder_pushTemp, bfFuncBuilder_popTemp, bfVMArray_emplaceN, bfVMArray_resize,
    uint16, bfVMArray_size in *.
  cbn [fst snd local_vars local_var_scope_size instructions set_locals].
  rewrite Z.mod_small by lia. rewrite Nat2Z.id.
  repeat split; try reflexivity.
  rewrite take_app_length, length_app, length_replicate.
  unfold string_range, bytes in *.
  match goal with
  | |- context [replicate ?k] => replace k with 0%nat by lia
  end.
  cbn. apply app_nil_r.
Qed.

Lemma temp_push_pop_witness :
  local_vars
    (bfFuncBuilder_popTemp (fst (bfFuncBuilder_pushTemp (bfFuncBuilder_ctor 1) 3))
                           (snd (bfFuncBuilder_pushTemp (bfFuncBuilder_ctor 1) 3)))
  = [].
Proof.
  destruct (temp_push_pop (bfFuncBuilder_ctor 1) 3) as (_ & _ & _ & Hvars & _);
    [lia|vm_compute; reflexivity|].
  exact Hvars.
Defined.

(** Every instruction has a line: a builder fresh from
    [bfFuncBuilder_begin] has as many lines as instructions, every function
    that emits an instruction adds one of each, the patches of [loopPop] and
    of the jump helpers change none, and [bfFuncBuilder_end] hands both
    arrays, of the same length, to the function object. *)
Theorem lines_cover_code_kept (self : BifrostVMFunctionBuilder) :
  (forall fn_name begun,
      bfFuncBuilder_begin self fn_name = Ok begun -> lines_cover_code begun)
  /\ (lines_cover_code self ->
      (forall op a b c, lines_cover_code (bfFuncBuilder_addInstABC self op a b c))
      /\ (forall op a bx, lines_cover_code (bfFuncBuilder_addInstABx self op a bx))
      /\ (forall op a sbx, lines_cover_code (bfFuncBuilder_addInstAsBx self op a sbx))
      /\ lines_cover_code (bfFuncBuilder_addInstBreak self)
      /\ (forall parser parser',
             fn_builder parser = self -> loopPop parser = Ok parser' ->
             lines_cover_code (fn_builder parser'))
      /\ (forall parser jump_idx cond_var jump_amt if_not parser',
             fn_builder parser = self ->
             parserPatchJumpHelper parser jump_idx cond_var jump_amt if_not = Ok parser' ->
             lines_cover_code (fn_builder parser'))
      /\ (forall out arity self' fn,
             bfFuncBuilder_end self out arity = Ok (self', fn) ->
             length (fn_code_to_line fn) = length (fn_instructions fn)
             /\ lines_cover_code self')).
Proof.
  unfold lines_cover_code. split.
  { intros fn_name begun. unfold bfFuncBuilder_begin.
    destruct (LibC_assert _); try discriminate. cbn. intros [= <-]. reflexivity. }
  intros Hself.
  assert (Hadd : forall inst, length (code_to_line (bfFuncBuilder_addInst self inst))
                              = length (instructions (bfFuncBuilder_addInst self inst))).
  { intros inst. cbn. unfold bfVMArray_push. rewrite !length_app, Hself. reflexivity. }
  split; [intros; apply Hadd|]. split; [intros; apply Hadd|].
  split; [intros; apply Hadd|]. split; [apply Hadd|].
  split.
  { intros parser parser' <-. unfold loopPop.
    destruct (LibC_assert _); try discriminate. cbn [res_bind].
    destruct (loop_stack parser); [discriminate|]. intros [= <-]. cbn.
    rewrite loopPop_patch_length. exact Hself. }
  split.
  { intros parser jump_idx cond_var jump_amt if_not parser' <-.
    unfold parserPatchJumpHelper. destruct (_ && _); [|discriminate].
    intros [= <-]. cbn. rewrite length_insert. exact Hself. }
  intros out arity self' fn. unfold bfFuncBuilder_end, bfFuncBuilder_popScope.
  destruct (bfVMArray_back _); try discriminate. cbn [res_bind].
  destruct (bfVMArray_pop _); try discriminate. cbn [res_bind].
  intros [= <- <-]. cbn. unfold bfVMArray_push. rewrite !length_app, Hself. auto.
Qed.

Lemma lines_cover_code_kept_witness :
  lines_cover_code
    (bfFuncBuilder_addInstBreak (bfFuncBuilder_addInstABx (bfFuncBuilder_ctor 1)
                                   BIFROST_VM_OP_LOAD_BASIC 0 0)).
Proof.
  destruct (lines_cover_code_kept (bfFuncBuilder_addInstABx (bfFuncBuilder_ctor 1)
                                     BIFROST_VM_OP_LOAD_BASIC 0 0))
    as (_ & Hkept).
  destruct Hkept as (_ & _ & _ & Hbreak & _); [reflexivity|exact Hbreak].
Defined.

(** ** Jumps of the parser (bifrost_vm_parser.c) *)

Lemma decodeRsBx_AsBx_in_range (op a sbx : Z) :
  -131071 <= sbx <= 131072 ->
  bfInst_decodeRsBx (BIFROST_MAKE_INST_OP_AsBx op a sbx) = sbx.
Proof.
  intros Hrange. unfold bfInst_decodeRsBx. rewrite decodeRBx_AsBx.
  rewrite Z.land_ones by lia.
  change BIFROST_INST_RsBx_MAX with 131071 in *.
  rewrite Z.mod_small; [lia|]. change (2 ^ 18) with 262144. lia.
Qed.

(** The instruction that [parserPatchJumpHelper] writes. *)
Lemma patch_word_fields (cond_var jump_amt : Z) (if_not : bool) :
  -131071 <= jump_amt <= 131072 ->
  let jump :=
    if cond_var =? BIFROST_VM_INVALID_SLOT
    then BIFROST_MAKE_INST_OP_AsBx (op_code BIFROST_VM_OP_JUMP) 0 jump_amt
    else BIFROST_MAKE_INST_OP_AsBx
           (op_code (if if_not then BIFROST_VM_OP_JUMP_IF_NOT else BIFROST_VM_OP_JUMP_IF))
           cond_var jump_amt in
  bfInst_decodeRsBx jump = jump_amt
  /\ bfInst_decodeOp jump
     = op_code (if cond_var =? BIFROST_VM_INVALID_SLOT then BIFROST_VM_OP_JUMP
                else if if_not then BIFROST_VM_OP_JUMP_IF_NOT else BIFROST_VM_OP_JUMP_IF)
  /\ (cond_var <> BIFROST_VM_INVALID_SLOT -> bfInst_decodeRa jump = cond_var mod 512).
Proof.
  intros Hrange. cbv zeta.
  destruct (Z.eqb_spec cond_var BIFROST_VM_INVALID_SLOT) as [Heq|Hne].
  - rewrite decodeRsBx_AsBx_in_range, decodeOp_AsBx, op_code_fits by assumption.
    repeat split. intros Hc. contradiction.
  - rewrite decodeRsBx_AsBx_in_range, decodeOp_AsBx, op_code_fits, decodeRa_AsBx by assumption.
    rewrite Z.land_ones by lia. repeat split.
Qed.

(** A forward jump: [parserMakeJump] reserves an instruction, and once the
    code to jump over has been emitted [parserPatchJump] turns the reserved
    instruction into a jump that lands on the next instruction to be
    emitted: an unconditional JUMP when there is no condition slot, else a
    JUMP_IF or JUMP_IF_NOT on that slot.  The code jumped over is left as it
    is.  The distance has to fit the signed 18-bit operand. *)
Theorem forward_jump_lands_after_body (self later : BifrostParser)
    (body : list bfInstruction) (cond_var : Z) (if_not : bool) :
  let code := instructions (fn_builder self) in
  let made := parserMakeJump self in
  instructions (fn_builder later) = instructions (fn_builder (fst made)) ++ body ->
  bfVMArray_size code + Z.of_nat (length body) + 1 < 2 ^ 32 ->
  Z.of_nat (length body) + 1 <= 131072 ->
  exists patched jump,
    snd made = bfVMArray_size code
    /\ parserPatchJump later (snd made) cond_var if_not = Ok patched
    /\ instructions (fn_builder patched) = code ++ [jump] ++ body
    /\ snd made + bfInst_decodeRsBx jump = bfVMArray_size (instructions (fn_builder patched))
    /\ bfInst_decodeOp jump
       = op_code (if cond_var =? BIFROST_VM_INVALID_SLOT then BIFROST_VM_OP_JUMP
                  else if if_not then BIFROST_VM_OP_JUMP_IF_NOT else BIFROST_VM_OP_JUMP_IF)
    /\ (cond_var <> BIFROST_VM_INVALID_SLOT -> bfInst_decodeRa jump = cond_var mod 512).
Proof.
  intros code made Hlater Hfits Hrange. subst made.
  assert (Hcode : instructions (fn_builder self) = code) by reflexivity. clearbody code.
  unfold parserMakeJump in *. cbn [fst snd with_builder fn_builder] in *.
  unfold bfFuncBuilder_addInstAsBx, bfFuncBuilder_addInst in Hlater.
  cbn [instructions] in Hlater. rewrite Hcode in *. unfold bfVMArray_push in Hlater.
  unfold bfVMArray_size in *.
  assert (Hidx : wrap32 (Z.of_nat (length code)) = Z.of_nat (length code))
    by (clear - Hfits; unfold wrap32; apply Z.mod_small; lia).
  rewrite Hidx.
  unfold parserPatchJump, parserPatchJumpHelper, bfVMArray_size.
  rewrite Hlater, !length_app. cbn [length].
  assert (Hloc : wrap32 (Z.of_nat (length code + 1 + length body))
                 = Z.of_nat (length code) + (Z.of_nat (length body) + 1))
    by (clear - Hfits; unfold wrap32; rewrite Z.mod_small; lia).
  rewrite Hloc.
  replace (Z.of_nat (length code) + (Z.of_nat (length body) + 1) - Z.of_nat (length code))
    with (Z.of_nat (length body) + 1) by (clear; lia).
  destruct (patch_word_fields cond_var (Z.of_nat (length body) + 1) if_not
              ltac:(clear - Hrange; lia))
    as (Hoff & Hop & Hra).
  set (jump := if cond_var =? BIFROST_VM_INVALID_SLOT then _ else _) in *.
  destruct ((0 <=? Z.of_nat (length code))
            && (Z.of_nat (length code) <? Z.of_nat (length code + 1 + length body))) eqn:Hin.
  2: { clear - Hin.
       apply andb_false_iff in Hin as [H|H]; [apply Z.leb_gt in H|apply Z.ltb_ge in H]; lia. }
  eexists _, jump. split; [reflexivity|]. split; [reflexivity|].
  cbn [fn_builder with_builder instructions set_instructions].
  rewrite Nat2Z.id, <- app_assoc.
  rewrite insert_app_r_alt by (clear; lia). rewrite Nat.sub_diag. cbn [app].
  split; [reflexivity|].
  split; [rewrite Hoff, !length_app; simpl length; clear; lia|].
  split; assumption.
Qed.

Lemma forward_jump_lands_after_body_witness :
  exists patched,
    parserPatchJump
      (with_builder (fst (parserMakeJump short_loop))
         (bfFuncBuilder_addInstBreak (fn_builder (fst (parserMakeJump short_loop)))))
      (snd (parserMakeJump short_loop)) 3 true
    = Ok patched
    /\ snd (parserMakeJump short_loop) = 3.
Proof.
  destruct (forward_jump_lands_after_body short_loop
              (with_builder (fst (parserMakeJump short_loop))
                 (bfFuncBuilder_addInstBreak (fn_builder (fst (parserMakeJump short_loop)))))
              [BIFROST_INST_INVALID] 3 true)
    as (patched & jump & Hidx & Hpatch & _);
    [reflexivity|vm_compute; reflexivity|vm_compute; discriminate|].
  exists patched. split; [exact Hpatch|exact Hidx].
Defined.

(** A backward jump: [parserPatchJumpRev] emits one instruction, a jump
    from the current end of the code back to the index that
    [parserMakeJumpRev] gave when the target was the end of the code. *)
Theorem backward_jump_lands_on_mark (marked self : BifrostParser)
    (body : list bfInstruction) (cond_var : Z) (if_not : bool) :
  let mark := parserMakeJumpRev marked in
  let code := instructions (fn_builder self) in
  code = instructions (fn_builder marked) ++ body ->
  bfVMArray_size code < 2 ^ 32 ->
  Z.of_nat (length body) <= 131071 ->
  exists patched jump,
    mark = bfVMArray_size (instructions (fn_builder marked))
    /\ parserPatchJumpRev self mark cond_var if_not = Ok patched
    /\ instructions (fn_builder patched) = code ++ [jump]
    /\ bfVMArray_size code + bfInst_decodeRsBx jump = mark
    /\ bfInst_decodeOp jump
       = op_code (if cond_var =? BIFROST_VM_INVALID_SLOT then BIFROST_VM_OP_JUMP
                  else if if_not then BIFROST_VM_OP_JUMP_IF_NOT else BIFROST_VM_OP_JUMP_IF)
    /\ (cond_var <> BIFROST_VM_INVALID_SLOT -> bfInst_decodeRa jump = cond_var mod 512).
Proof.
  intros mark code Hcode Hfits Hrange. subst mark.
  assert (Hself : instructions (fn_builder self) = code) by reflexivity. clearbody code.
  unfold parserMakeJumpRev, parserPatchJumpRev, parserPatchJumpHelper, bfVMArray_size in *.
  cbn [fn_builder with_builder instructions bfFuncBuilder_addInstAsBx bfFuncBuilder_addInst].
  rewrite Hself. unfold bfVMArray_push. rewrite length_app. cbn [length].
  assert (Hlen : length code = (length (instructions (fn_builder marked)) + length body)%nat)
    by (rewrite Hcode, length_app; reflexivity).
  assert (Hmark : wrap32 (Z.of_nat (length (instructions (fn_builder marked))))
                  = Z.of_nat (length (instructions (fn_builder marked))))
    by (unfold wrap32; apply Z.mod_small; lia).
  assert (Hloc : wrap32 (Z.of_nat (length code)) = Z.of_nat (length code))
    by (unfold wrap32; apply Z.mod_small; lia).
  rewrite Hmark, Hloc.
  destruct (patch_word_fields cond_var
              (Z.of_nat (length (instructions (fn_builder marked))) - Z.of_nat (length code))
              if_not ltac:(lia))
    as (Hoff & Hop & Hra).
  set (jump := if cond_var =? BIFROST_VM_INVALID_SLOT then _ else _) in *.
  destruct ((0 <=? Z.of_nat (length code))
            && (Z.of_nat (length code) <? Z.of_nat (length code + 1))) eqn:Hin.
  2: { apply andb_false_iff in Hin as [H|H]; [apply Z.leb_gt in H|apply Z.ltb_ge in H]; lia. }
  eexists _, jump. split; [reflexivity|]. split; [reflexivity|].
  cbn [fn_builder with_builder instructions set_instructions].
  rewrite Nat2Z.id, insert_app_r_alt by lia. rewrite Nat.sub_diag. cbn [app].
  split; [reflexivity|]. split; [rewrite Hoff; lia|]. split; assumption.
Qed.

Lemma backward_jump_lands_on_mark_witness :
  exists patched,
    parserPatchJumpRev short_loop (parserMakeJumpRev short_loop) BIFROST_VM_INVALID_SLOT false
    = Ok patched.
Proof.
  destruct (backward_jump_lands_on_mark short_loop short_loop [] BIFROST_VM_INVALID_SLOT false)
    as (patched & jump & _ & Hpatch & _);
    [symmetry; apply app_nil_r|vm_compute; reflexivity|vm_compute; discriminate|].
  exists patched. exact Hpatch.
Defined.

(** ** The stack API (bifrost_vm.c) *)

Lemma stack_write_read (vm : BifrostVM) (i : Z) (v : bfVMValue) :
  0 <= i < bfVMArray_size (stack vm) ->
  exists written,
    stack_write vm i v = Ok written
    /\ written = set_stack vm (<[Z.to_nat i := v]> (stack vm))
    /\ stack_read written i = Ok v
    /\ (forall j, j <> i -> stack_read written j = stack_read vm j).
Proof.
  intros Hi. unfold stack_write, stack_read, bfVMArray_size in *.
  destruct ((0 <=? i) && (i <? Z.of_nat (length (stack vm)))) eqn:Hin.
  2: { apply andb_false_iff in Hin as [H|H]; [apply Z.leb_gt in H|apply Z.ltb_ge in H]; lia. }
  eexists. split; [reflexivity|]. split; [reflexivity|]. cbn [stack set_stack].
  rewrite length_insert. split.
  - rewrite Hin, list_lookup_insert_eq by lia. reflexivity.
  - intros j Hj. destruct ((0 <=? j) && (j <? Z.of_nat (length (stack vm)))) eqn:Hjin;
      [|reflexivity].
    apply andb_true_iff in Hjin as [H1 H2]. apply Z.leb_le in H1.
    rewrite list_lookup_insert_ne by lia. reflexivity.
Qed.

Lemma isNumber_not_bool (v : Z) :
  bfVMValue_isNumber v = true -> bfVMValue_isBool v = false.
Proof.
  unfold bfVMValue_isNumber, bfVMValue_isBool, bfVMValue_isTrue, bfVMValue_isFalse.
  intros H. apply negb_true_iff, Z.eqb_neq in H.
  apply orb_false_iff. split; apply Z.eqb_neq; intros ->; apply H; reflexivity.
Qed.

(** Room on the stack and a number in it: [bfVM_stackResize] reports no
    error and leaves at least [n] slots above the top of the stack, keeping
    the top and everything that was on the stack; a number then written to
    one of these slots with [bfVM_stackSetNumber] is read back by
    [bfVM_stackReadNumber], is reported as BIFROST_VM_NUMBER, and the other
    slots are not touched. *)
Theorem stack_number_round_trip (self : BifrostVM) (n idx value : Z) :
  0 <= stack_top self ->
  stack_top self + n < 2 ^ 64 ->
  0 <= idx < n ->
  bfVMValue_isNumber value = true ->
  let resized := snd (bfVM_stackResize self n) in
  fst (bfVM_stackResize self n) = BIFROST_VM_ERROR_NONE
  /\ stack_top resized = stack_top self
  /\ stack_top self + n <= bfVMArray_size (stack resized)
  /\ (forall i v, stack self !! i = Some v -> stack resized !! i = Some v)
  /\ exists written,
       bfVM_stackSetNumber resized idx value = Ok written
       /\ bfVM_stackReadNumber written idx = Ok value
       /\ bfVM_stackGetType written idx = Ok BIFROST_VM_NUMBER
       /\ forall j, j <> stack_top self + idx ->
            stack_read written j = stack_read resized j.
Proof.
  intros Htop Hfit Hidx Hnum resized.
  assert (Hresized : stack_top resized = stack_top self
                     /\ stack_top self + n <= bfVMArray_size (stack resized)
                     /\ forall i v, stack self !! i = Some v -> stack resized !! i = Some v).
  { subst resized. unfold bfVM_stackResize. cbn [snd].
    unfold wrap64. rewrite (Z.mod_small (stack_top self + n)) by lia.
    destruct (Z.ltb_spec (bfVMArray_size (stack self)) (stack_top self + n)) as [Hgrow|Hkeep].
    - cbn [stack stack_top set_stack set_stack_top]. split; [reflexivity|].
      unfold bfVMArray_size, bfVMArray_resize in *. split.
      + rewrite length_app, length_take, length_replicate. lia.
      + intros i v Hi. pose proof (lookup_lt_Some _ _ _ Hi) as Hlt.
        rewrite lookup_app_l by (rewrite length_take; lia).
        rewrite lookup_take_lt by lia. exact Hi.
    - split; [reflexivity|]. split; [lia|]. auto. }
  destruct Hresized as (Hsame_top & Hroom & Hkept).
  split; [reflexivity|]. split; [exact Hsame_top|]. split; [exact Hroom|].
  split; [exact Hkept|].
  destruct (stack_write_read resized (stack_top resized + idx) (bfVMValue_fromNumber value))
    as (written & Hwrite & Hwritten & Hread & Hothers); [lia|].
  assert (Hassert : forall vm, bfVMArray_size (stack vm) = bfVMArray_size (stack resized) ->
                      bfVM_assertStackIndex vm idx = Ok tt).
  { intros vm Hsize. unfold bfVM_assertStackIndex. rewrite Hsize.
    destruct (Z.ltb_spec idx (bfVMArray_size (stack resized))); [reflexivity|lia]. }
  assert (Hwsize : bfVMArray_size (stack written) = bfVMArray_size (stack resized)).
  { rewrite Hwritten. cbn [stack set_stack]. unfold bfVMArray_size.
    rewrite length_insert. reflexivity. }
  assert (Hwtop : stack_top written = stack_top resized) by (rewrite Hwritten; reflexivity).
  exists written.
  split; [unfold bfVM_stackSetNumber; rewrite (Hassert resized eq_refl); exact Hwrite|].
  split.
  { unfold bfVM_stackReadNumber. rewrite (Hassert written Hwsize), Hwtop. cbn [res_bind].
    rewrite Hread. cbn [res_bind]. unfold bfVMValue_fromNumber. rewrite Hnum. reflexivity. }
  split.
  { unfold bfVM_stackGetType. rewrite (Hassert written Hwsize), Hwtop. cbn [res_bind].
    rewrite Hread. cbn [res_bind]. unfold bfVMGetType, bfVMValue_fromNumber.
    rewrite (isNumber_not_bool value Hnum), Hnum. reflexivity. }
  intros j Hj. apply Hothers. lia.
Qed.

Lemma stack_number_round_trip_witness :
  exists written,
    bfVM_stackSetNumber (snd (bfVM_stackResize (demo_vm 0 [] []) 4)) 2 4631107791820423168
    = Ok written
    /\ bfVM_stackReadNumber written 2 = Ok 4631107791820423168.
Proof.
  destruct (stack_number_round_trip (demo_vm 0 [] []) 4 2 4631107791820423168)
    as (_ & _ & _ & _ & written & Hset & Hread & _);
    [cbn; lia|cbn; lia|lia|reflexivity|].
  exists written. auto.
Defined.

(** A boolean on the stack: written with [bfVM_stackSetBool] to a slot of
    the stack it is read back by [bfVM_stackReadBool] and reported as
    BIFROST_VM_BOOL, and reading it as a number aborts.  A slot set to nil
    with [bfVM_stackSetNil] is the same as one set to false: it too reads as
    the boolean false and is reported as BIFROST_VM_BOOL, not as
    BIFROST_VM_NIL. *)
Theorem stack_bool_round_trip (self : BifrostVM) (idx : Z) (value : bool) :
  0 <= stack_top self ->
  0 <= idx ->
  stack_top self + idx < bfVMArray_size (stack self) ->
  (exists written,
     bfVM_stackSetBool self idx value = Ok written
     /\ bfVM_stackReadBool written idx = Ok value
     /\ bfVM_stackGetType written idx = Ok BIFROST_VM_BOOL
     /\ bfVM_stackReadNumber written idx = Aborted)
  /\ (exists cleared,
        bfVM_stackSetNil self idx = Ok cleared
        /\ bfVM_stackSetBool self idx false = Ok cleared
        /\ bfVM_stackReadBool cleared idx = Ok false
        /\ bfVM_stackGetType cleared idx = Ok BIFROST_VM_BOOL).
Proof.
  intros Htop Hidx Hfit.
  assert (Hany : forall v,
            exists written,
              stack_write self (stack_top self + idx) v = Ok written
              /\ bfVM_assertStackIndex self idx = Ok tt
              /\ bfVM_assertStackIndex written idx = Ok tt
              /\ stack_read written (stack_top written + idx) = Ok v).
  { intros v.
    destruct (stack_write_read self (stack_top self + idx) v)
      as (written & Hwrite & Hwritten & Hread & _); [lia|].
    exists written. split; [exact Hwrite|].
    assert (Hassert : bfVM_assertStackIndex self idx = Ok tt).
    { unfold bfVM_assertStackIndex.
      destruct (Z.ltb_spec idx (bfVMArray_size (stack self))); [reflexivity|lia]. }
    split; [exact Hassert|]. split.
    - rewrite Hwritten. unfold bfVM_assertStackIndex in *. cbn [stack set_stack].
      unfold bfVMArray_size in *. rewrite length_insert. exact Hassert.
    - replace (stack_top written) with (stack_top self) by (rewrite Hwritten; reflexivity).
      exact Hread. }
  split.
  - destruct (Hany (bfVMValue_fromBool value)) as (written & Hwrite & Hself & Hassert & Hread).
    exists written.
    unfold bfVM_stackSetBool, bfVM_stackReadBool, bfVM_stackGetType, bfVM_stackReadNumber.
    rewrite Hself, Hassert. cbn [res_bind]. rewrite Hread. cbn [res_bind].
    split; [exact Hwrite|]. destruct value; repeat split; reflexivity.
  - destruct (Hany bfVMValue_fromNull) as (cleared & Hwrite & Hself & Hassert & Hread).
    exists cleared.
    unfold bfVM_stackSetNil, bfVM_stackSetBool, bfVM_stackReadBool, bfVM_stackGetType.
    rewrite Hself, Hassert. cbn [res_bind]. rewrite Hread. cbn [res_bind].
    split; [exact Hwrite|]. split; [exact Hwrite|]. split; reflexivity.
Qed.

Lemma stack_bool_round_trip_witness :
  exists written,
    bfVM_stackSetBool (demo_vm 0 [] [0; 0]) 1 true = Ok written
    /\ bfVM_stackReadBool written 1 = Ok true.
Proof.
  destruct (stack_bool_round_trip (demo_vm 0 [] [0; 0]) 1 true)
    as ((written & Hset & Hread & _) & _); [cbn; lia|lia|vm_compute; reflexivity|].
  exists written. auto.
Defined.

(** ** The module registry (bifrost_vm.c) *)

Section HashMapScan.
Context {K V : Type} (hash : K -> Z) (cmp : K -> K -> bool).
Context (Hequiv : key_equivalence hash cmp).

Lemma find_pointwise {A : Type} (f g : A -> bool) (l : list A) :
  (forall x, f x = g x) -> List.find f l = List.find g l.
Proof.
  intros Hfg. induction l as [|x l IH]; [reflexivity|]. cbn. rewrite Hfg, IH. reflexivity.
Qed.

Lemma find_app_first {A : Type} (f : A -> bool) (l1 l2 : list A) :
  List.find f (l1 ++ l2)
  = match List.find f l1 with Some x => Some x | None => List.find f l2 end.
Proof.
  induction l1 as [|x l1 IH]; [reflexivity|]. cbn. destruct (f x); [reflexivity|exact IH].
Qed.

(** A scan of a list of chains finds nothing for [key] when every chain is
    placed in a bucket other than the one of [key]. *)
Lemma find_concat_elsewhere (key : K) (chains : list (list (K * V))) :
  Forall (Forall (fun node => bucket_index hash (fst node) <> bucket_index hash key)) chains ->
  List.find (fun node : K * V => cmp key (fst node)) (concat chains) = None.
Proof.
  destruct Hequiv as (_ & _ & _ & Hbucket).
  induction 1 as [|chain chains Hchain _ IH]; [reflexivity|].
  cbn [concat]. rewrite find_app_first, IH.
  rewrite find_all_false; [reflexivity|].
  eapply Forall_impl; [exact Hchain|]. cbn. intros node Hnode.
  destruct (cmp key (fst node)) eqn:Hcmp; [|reflexivity].
  apply Hbucket in Hcmp. congruence.
Qed.

(** In a well-formed map the scan of every bucket ([bfHashMapFor]) for a key
    finds what the look-up in the key's own bucket finds. *)
Lemma find_nodes_is_getNode (self : BifrostHashMap K V) (key : K) :
  bfHashMap_wf hash cmp self ->
  List.find (fun node : K * V => cmp key (fst node)) (bfHashMap_nodes self)
  = bfHashMap_getNode cmp self key (bucket_index hash key).
Proof.
  intros (Hlen & _ & Hplaced).
  pose proof (bucket_index_lt hash key) as Hb.
  unfold bfHashMap_nodes, bfHashMap_getNode, BifrostHashMap in *.
  set (b := bucket_index hash key) in *.
  destruct (lookup_lt_is_Some_2 self b ltac:(lia)) as [chain Hchain].
  rewrite Hchain. cbn [from_option id default].
  rewrite <- (take_drop_middle self b chain Hchain) at 1.
  rewrite concat_app. cbn [concat].
  rewrite !find_app_first.
  rewrite (find_concat_elsewhere key (take b self)).
  2: { apply Forall_forall. intros c Hc.
       apply list_elem_of_lookup in Hc as [i Hi].
       pose proof (lookup_lt_Some _ _ _ Hi) as Hlt. rewrite length_take in Hlt.
       rewrite lookup_take_lt in Hi by lia.
       eapply Forall_impl; [exact (Hplaced i c Hi)|]. cbn. intros node ->. fold b. lia. }
  rewrite (find_concat_elsewhere key (drop (S b) self)).
  2: { apply Forall_forall. intros c Hc.
       apply list_elem_of_lookup in Hc as [i Hi].
       rewrite lookup_drop in Hi.
       eapply Forall_impl; [exact (Hplaced _ c Hi)|]. cbn. intros node ->. fold b. lia. }
  destruct (List.find _ chain); reflexivity.
Qed.

End HashMapScan.

(** The key under which [bfVM_findModule] looks a name up. *)
Lemma findModule_matches_is_cmp (name : string_range) (key : BifrostObjStr) :
  findModule_matches name key
  = ModuleMap_cmp {| str_value := name; str_hash := bfVMString_hashN name |} key.
Proof.
  unfold findModule_matches, ModuleMap_cmp, bfVMString_ccmpn, bfVMString_cmp,
    string_range_length, bfVMString_length. cbn [str_value str_hash].
  rewrite (Z.eqb_sym (str_hash key)).
  destruct (bfVMString_hashN name =? str_hash key); [|reflexivity]. cbn [andb].
  rewrite (Z.eqb_sym (Z.of_nat (length (str_value key)))).
  destruct (Z.eqb_spec (Z.of_nat (length name)) (Z.of_nat (length (str_value key))))
    as [Heq|Hne]; cbn [negb andb]; [|reflexivity].
  rewrite Heq. destruct (Z.gtb_spec (Z.of_nat (length (str_value key)))
                                    (Z.of_nat (length (str_value key)))); [lia|].
  rewrite Nat2Z.id. apply Nat2Z.inj in Heq.
  pose proof (LibC_strncmp_zero_iff (str_value key) name (eq_sym Heq)) as Hkn.
  pose proof (LibC_strncmp_zero_iff name (str_value key) Heq) as Hnk.
  rewrite Heq in Hnk.
  destruct (Z.eqb_spec (LibC_strncmp (str_value key) name (length (str_value key))) 0) as [H1|H1],
           (Z.eqb_spec (LibC_strncmp name (str_value key) (length (str_value key))) 0) as [H2|H2];
    try reflexivity; exfalso.
  - apply H2, Hnk. symmetry. apply Hkn. exact H1.
  - apply H1, Hkn. symmetry. apply Hnk. exact H2.
Qed.

Lemma findModule_lookup (self : BifrostVM) (name : string_range) :
  bfHashMap_wf ModuleMap_hash ModuleMap_cmp (modules self) ->
  bfVM_findModule self name
  = default 0 (bfHashMap_get ModuleMap_hash ModuleMap_cmp (modules self)
                 {| str_value := name; str_hash := bfVMString_hashN name |}).
Proof.
  intros Hwf. unfold bfVM_findModule, bfHashMap_get.
  rewrite <- (find_nodes_is_getNode ModuleMap_hash ModuleMap_cmp ModuleMap_key_equivalence
                (modules self) _ Hwf).
  rewrite (find_pointwise _ (fun node : BifrostObjStr * Z =>
             ModuleMap_cmp {| str_value := name; str_hash := bfVMString_hashN name |} (fst node)))
    by (intros node; apply findModule_matches_is_cmp).
  destruct (List.find _ _); reflexivity.
Qed.

(** [bfVM_findModule] walks every bucket of the module map, comparing the
    name with each key; on a well-formed map it finds what the hashed
    look-up [bfHashMap_get] finds for the string object of that name, and
    NULL where the look-up finds nothing. *)
Theorem bfVM_findModule_is_hash_lookup (self : BifrostVM) (name : string_range) :
  bfHashMap_wf ModuleMap_hash ModuleMap_cmp (modules self) ->
  bfVM_findModule self name
  = default 0 (bfHashMap_get ModuleMap_hash ModuleMap_cmp (modules self)
                 {| str_value := name; str_hash := bfVMString_hashN name |}).
Proof. exact (findModule_lookup self name). Qed.

Lemma bfVM_findModule_is_hash_lookup_witness :
  bfVM_findModule demo_modules_vm std_io
  = default 0 (bfHashMap_get ModuleMap_hash ModuleMap_cmp (modules demo_modules_vm)
                 {| str_value := std_io; str_hash := bfVMString_hashN std_io |}).
Proof.
  apply (bfVM_findModule_is_hash_lookup demo_modules_vm std_io).
  destruct (bfHashMap_wf_steps ModuleMap_hash ModuleMap_cmp ModuleMap_key_equivalence
              bfHashMap_ctor (bfObj_NewString_value std_io) 8192) as [Hctor Hstep].
  exact (proj1 (Hstep Hctor)).
Defined.

Lemma CString_unescape_plain (name : bytes) :
  Forall (fun c => c <> 0 /\ c <> 92) name -> CString_unescape name = name.
Proof.
  induction 1 as [|c name [Hnul Hbackslash] _ IH]; [reflexivity|].
  cbn [CString_unescape].
  destruct (Z.eqb_spec c 0); [contradiction|].
  destruct (Z.eqb_spec c 92); [contradiction|].
  rewrite IH. reflexivity.
Qed.

Lemma register_then_find (self : BifrostVM) (name : string_range) (m : Z) :
  bfHashMap_wf ModuleMap_hash ModuleMap_cmp (modules self) ->
  Forall (fun c => c <> 0 /\ c <> 92) name ->
  let registered :=
    set_modules self (bfHashMap_set ModuleMap_hash ModuleMap_cmp (modules self)
                        (bfObj_NewString_value name) m) in
  bfVM_findModule registered name = m
  /\ (forall other, Forall (fun c => c <> 0) other -> other <> name ->
        bfVM_findModule registered other = bfVM_findModule self other)
  /\ bfHashMap_wf ModuleMap_hash ModuleMap_cmp (modules registered).
Proof.
  intros Hwf Hplain registered.
  assert (Hwf' : bfHashMap_wf ModuleMap_hash ModuleMap_cmp (modules registered)).
  { subst registered. destruct self. cbn [modules set_modules] in *.
    exact (proj1 (proj2 (bfHashMap_wf_steps ModuleMap_hash ModuleMap_cmp
                           ModuleMap_key_equivalence modules0 _ m) Hwf)). }
  assert (Hkey : bfObj_NewString_value name
                 = {| str_value := name; str_hash := bfVMString_hashN name |}).
  { unfold bfObj_NewString_value, bfVMString_newLen.
    rewrite (CString_unescape_plain name Hplain). reflexivity. }
  assert (Hget : forall other,
            bfVM_findModule registered other
            = default 0
                (if ModuleMap_cmp {| str_value := other; str_hash := bfVMString_hashN other |}
                                  {| str_value := name; str_hash := bfVMString_hashN name |}
                 then Some m
                 else bfHashMap_get ModuleMap_hash ModuleMap_cmp (modules self)
                        {| str_value := other; str_hash := bfVMString_hashN other |})).
  { intros other. rewrite (findModule_lookup registered other Hwf').
    subst registered. destruct self. cbn [modules set_modules] in *.
    rewrite Hkey.
    destruct (bfHashMap_get_set_law ModuleMap_hash ModuleMap_cmp ModuleMap_key_equivalence
                modules0 {| str_value := name; str_hash := bfVMString_hashN name |}
                {| str_value := other; str_hash := bfVMString_hashN other |} m
                (proj1 Hwf)) as [-> _].
    reflexivity. }
  split; [|split; [|exact Hwf']].
  - rewrite Hget.
    destruct ModuleMap_key_equivalence as (Hrefl & _). rewrite Hrefl. reflexivity.
  - intros other Hother Hne. rewrite Hget, (findModule_lookup self other Hwf).
    destruct (ModuleMap_cmp _ _) eqn:Hcmp; [|reflexivity].
    apply ModuleMap_cmp_spec in Hcmp. cbn [str_value str_hash] in Hcmp.
    destruct Hcmp as (_ & _ & Hsame).
    rewrite (c_string_no_NUL other Hother) in Hsame.
    rewrite (c_string_no_NUL name) in Hsame
      by (eapply Forall_impl; [exact Hplain|]; cbn; tauto).
    contradiction.
Qed.

(** Registering a module: once the string object of a name (without NUL
    or backslash, so that the unescaped key is the name) is set in a
    well-formed module map, [bfVM_findModule] finds the module by that name;
    what it finds for every other name is as before, and the map stays
    well formed. *)
Theorem module_registered_is_found (self : BifrostVM) (name : string_range) (m : Z) :
  bfHashMap_wf ModuleMap_hash ModuleMap_cmp (modules self) ->
  Forall (fun c => c <> 0 /\ c <> 92) name ->
  let registered :=
    set_modules self (bfHashMap_set ModuleMap_hash ModuleMap_cmp (modules self)
                        (bfObj_NewString_value name) m) in
  bfVM_findModule registered name = m
  /\ (forall other, Forall (fun c => c <> 0) other -> other <> name ->
        bfVM_findModule registered other = bfVM_findModule self other)
  /\ bfHashMap_wf ModuleMap_hash ModuleMap_cmp (modules registered).
Proof. exact (register_then_find self name m). Qed.

Lemma module_registered_is_found_witness :
  bfVM_findModule demo_modules_vm std_io = 8192.
Proof.
  apply (module_registered_is_found (demo_vm 0 [] []) std_io 8192).
  - exact (proj1 (bfHashMap_wf_steps ModuleMap_hash ModuleMap_cmp ModuleMap_key_equivalence
                    bfHashMap_ctor (bfObj_NewString_value std_io) 0)).
  - repeat constructor; discriminate.
Defined.

(** ** C10: importing a module that is registered *)

(** C10.  [bfVM_importModule] registers a module under the string object
    of its name, whose characters are the unescaped name, and looks a
    module up by the name as it is written.  Once a module is registered
    that way in a well-formed module map:
    - it is in the map under the string object of the name;
    - for a name without NUL and without backslash the import returns the
      registered module and the VM as it was: the same module map, nothing
      added to the calls made to the host;
    - for a name whose unescaped text is shorter (it has an escape
      sequence), [bfVM_findModule] finds what it found before the module
      was registered; where that was nothing and the VM has no load
      callback, the import returns NULL with the "no module function"
      message;
    - on the VM [demo_import_vm], whose host [import_rt] has a source for
      every name, two imports of the name written a\nb in a row both ask
      the host for the source, compile and run it: the second returns
      another module, which replaces the first in the map. *)
Theorem C10_escaped_name_is_imported_again (fp : DoubleOps) (rt : Runtime) (fuel : nat)
    (self : BifrostVM) (from name : string_range) (m : Z) :
  bfHashMap_wf ModuleMap_hash ModuleMap_cmp (modules self) ->
  m <> 0 ->
  let registered :=
    set_modules self (bfHashMap_set ModuleMap_hash ModuleMap_cmp (modules self)
                        (bfObj_NewString_value name) m) in
  bfHashMap_get ModuleMap_hash ModuleMap_cmp (modules registered) (bfObj_NewString_value name)
  = Some m
  /\ (Forall (fun c => c <> 0 /\ c <> 92) name ->
        bfVM_importModule fp rt fuel registered from name = Ok (m, registered))
  /\ (length (CString_unescape name) <> length name ->
        bfVM_findModule registered name = bfVM_findModule self name
        /\ (bfVM_findModule self name = 0 -> has_module_fn self = false ->
              bfVM_importModule fp rt fuel registered from name
              = Ok (0, set_last_error registered (MsgNoModuleFunction name))))
  /\ (exists first second m1 m2,
        bfVM_importModule idle_fp import_rt 2 demo_import_vm (map chr ["m"]%char) escaped_name
        = Ok (m1, first)
        /\ bfHashMap_get ModuleMap_hash ModuleMap_cmp (modules first)
             (bfObj_NewString_value escaped_name) = Some m1
        /\ m1 <> 0
        /\ bfVM_importModule idle_fp import_rt 2 first (map chr ["m"]%char) escaped_name
           = Ok (m2, second)
        /\ m2 <> m1
        /\ bfHashMap_get ModuleMap_hash ModuleMap_cmp (modules second)
             (bfObj_NewString_value escaped_name) = Some m2
        /\ host_log second
           = [ EvModuleFn (map chr ["m"]%char) (CString_unescape escaped_name);
               EvCompile m1; EvRunModule m1;
               EvModuleFn (map chr ["m"]%char) (CString_unescape escaped_name);
               EvCompile m2; EvRunModule m2 ]).
Proof.
  intros Hwf Hm registered.
  assert (Hwf' : bfHashMap_wf ModuleMap_hash ModuleMap_cmp (modules registered)).
  { subst registered. destruct self. cbn [modules set_modules] in *.
    exact (proj1 (proj2 (bfHashMap_wf_steps ModuleMap_hash ModuleMap_cmp
                           ModuleMap_key_equivalence modules0 _ m) Hwf)). }
  assert (Hget : forall key,
            bfHashMap_get ModuleMap_hash ModuleMap_cmp (modules registered) key
            = if ModuleMap_cmp key (bfObj_NewString_value name) then Some m
              else bfHashMap_get ModuleMap_hash ModuleMap_cmp (modules self) key).
  { intros key. subst registered. destruct self. cbn [modules set_modules] in *.
    exact (proj1 (bfHashMap_get_set_law ModuleMap_hash ModuleMap_cmp ModuleMap_key_equivalence
                    modules0 (bfObj_NewString_value name) key m (proj1 Hwf))). }
  split; [|split; [|split]].
  - rewrite Hget. destruct ModuleMap_key_equivalence as (Hrefl & _). rewrite Hrefl. reflexivity.
  - intros Hplain.
    destruct (register_then_find self name m Hwf Hplain) as (Hfind & _).
    fold registered in Hfind.
    unfold bfVM_importModule. rewrite Hfind.
    destruct (Z.eqb_spec m 0); [contradiction|reflexivity].
  - intros Hshorter.
    assert (Hmiss : bfVM_findModule registered name = bfVM_findModule self name).
    { rewrite (findModule_lookup registered name Hwf'), (findModule_lookup self name Hwf), Hget.
      destruct (ModuleMap_cmp _ _) eqn:Hcmp; [|reflexivity].
      apply ModuleMap_cmp_spec in Hcmp. destruct Hcmp as (_ & Hlen & _).
      cbn [str_value bfObj_NewString_value] in Hlen.
      unfold bfObj_NewString_value, bfVMString_newLen in Hlen. cbn [str_value] in Hlen.
      congruence. }
    split; [exact Hmiss|].
    intros Hnone Hcallback.
    unfold bfVM_importModule. rewrite Hmiss, Hnone. cbn [Z.eqb].
    replace (has_module_fn registered) with (has_module_fn self) by (destruct self; reflexivity).
    rewrite Hcallback. reflexivity.
  - let first_run :=
      eval vm_compute in
        (bfVM_importModule idle_fp import_rt 2 demo_import_vm (map chr ["m"]%char) escaped_name) in
    match first_run with
    | Ok (?m1, ?first) =>
        let second_run :=
          eval vm_compute in
            (bfVM_importModule idle_fp import_rt 2 first (map chr ["m"]%char) escaped_name) in
        match second_run with
        | Ok (?m2, ?second) => exists first, second, m1, m2
        end
    end.
    repeat split; try (vm_compute; reflexivity); vm_compute; discriminate.
Qed.

Lemma C10_escaped_name_is_imported_again_witness :
  let registered :=
    set_modules demo_import_vm
      (bfHashMap_set ModuleMap_hash ModuleMap_cmp (modules demo_import_vm)
         (bfObj_NewString_value escaped_name) 8192) in
  bfHashMap_get ModuleMap_hash ModuleMap_cmp (modules registered)
    (bfObj_NewString_value escaped_name) = Some 8192
  /\ bfVM_findModule registered escaped_name = 0.
Proof.
  intros registered.
  destruct (C10_escaped_name_is_imported_again idle_fp idle_rt 0 demo_import_vm
              (map chr ["m"]%char) escaped_name 8192)
    as (Hregistered & _ & Hescaped & _).
  - exact (proj1 (bfHashMap_wf_steps ModuleMap_hash ModuleMap_cmp ModuleMap_key_equivalence
                    bfHashMap_ctor (bfObj_NewString_value escaped_name) 0)).
  - discriminate.
  - split; [exact Hregistered|].
    destruct Hescaped as [Hmiss _]; [vm_compute; discriminate|].
    fold registered in Hmiss. rewrite Hmiss. reflexivity.
Defined.

Lemma assertStackIndex_ok (self : BifrostVM) (idx : Z) :
  0 <= stack_top self ->
  stack_top self + idx < bfVMArray_size (stack self) ->
  bfVM_assertStackIndex self idx = Ok tt.
Proof.
  intros Htop Hfit. unfold bfVM_assertStackIndex.
  destruct (Z.ltb_spec idx (bfVMArray_size (stack self))); [reflexivity|lia].
Qed.

Lemma c_string_has_no_NUL (s : bytes) : Forall (fun c => c <> 0) (c_string s).
Proof.
  induction s as [|c s IH]; [constructor|].
  cbn [c_string]. destruct (Z.eqb_spec c 0); [constructor|]. constructor; assumption.
Qed.

(** Making a module and loading it: [bfVM_moduleMake] with a name that is
    not registered (and has no backslash) allocates a module, registers it
    and leaves it in the stack slot; [bfVM_moduleLoad] with that name then
    puts the same module in a slot, and a second [bfVM_moduleMake] with the
    name answers BIFROST_VM_ERROR_MODULE_ALREADY_DEFINED, leaves the
    registered module in the slot and allocates nothing. *)
Theorem module_make_then_load (rt : Runtime) (self : BifrostVM) (idx : Z) (name : bytes) :
  allocator_succeeds rt ->
  bfHashMap_wf ModuleMap_hash ModuleMap_cmp (modules self) ->
  Forall (fun c => c <> 92) (c_string name) ->
  0 <= stack_top self ->
  0 <= idx ->
  stack_top self + idx < bfVMArray_size (stack self) ->
  bfVM_findModule self (c_string name) = 0 ->
  exists (made : BifrostVM) (m : Z),
    bfVM_moduleMake rt self idx (Some name) = Ok (BIFROST_VM_ERROR_NONE, made)
    /\ m <> 0
    /\ bfVM_findModule made (c_string name) = m
    /\ stack_read made (stack_top made + idx) = Ok (bfVMValue_fromPointer m)
    /\ bfHashMap_wf ModuleMap_hash ModuleMap_cmp (modules made)
    /\ (exists loaded,
          bfVM_moduleLoad made idx (c_string name) = Ok (BIFROST_VM_ERROR_NONE, loaded)
          /\ stack_read loaded (stack_top loaded + idx) = Ok (bfVMValue_fromPointer m)
          /\ modules loaded = modules made /\ heap loaded = heap made)
    /\ (exists again,
          bfVM_moduleMake rt made idx (Some name)
          = Ok (BIFROST_VM_ERROR_MODULE_ALREADY_DEFINED, again)
          /\ stack_read again (stack_top again + idx) = Ok (bfVMValue_fromPointer m)
          /\ modules again = modules made /\ heap again = heap made).
Proof.
  intros Halloc Hwf Hplain Htop Hidx Hfit Hnew.
  set (range := c_string name) in *.
  assert (Hchars : Forall (fun c => c <> 0 /\ c <> 92) range).
  { pose proof (c_string_has_no_NUL name) as Hnul. fold range in Hnul.
    apply Forall_and. split; assumption. }
  unfold bfVM_moduleMake at 1. rewrite (assertStackIndex_ok self idx Htop Hfit).
  cbn [res_bind]. unfold bfVM__moduleMake at 1.
  cbn [bool_decide decide_rel default from_option id]. 
  rewrite bool_decide_eq_false_2 by discriminate.
  cbn [negb andb default from_option id]. fold range. rewrite Hnew. cbn [Z.eqb negb].
  unfold bfObj_NewModule.
  match goal with |- context [allocate rt self ?obj] =>
    destruct (Halloc self obj) as (self1 & m & -> & Hm & Hmods1 & Hstack1 & Htop1) end.
  cbn [res_bind].
  match goal with |- context [allocate rt ?vm ?obj] =>
    destruct (Halloc vm obj) as (self2 & p & -> & _ & Hmods2 & Hstack2 & Htop2) end.
  cbn [res_bind].
  assert (Hmods : modules self2 = modules self).
  { rewrite Hmods2. destruct self1. exact Hmods1. }
  assert (Hstack : stack self2 = stack self).
  { rewrite Hstack2. destruct self1. exact Hstack1. }
  assert (Hstacktop : stack_top self2 = stack_top self).
  { rewrite Htop2. destruct self1. exact Htop1. }
  set (registered := set_modules self2 _).
  assert (Hreg_stack : stack registered = stack self) by (subst registered; destruct self2; exact Hstack).
  assert (Hreg_top : stack_top registered = stack_top self)
    by (subst registered; destruct self2; exact Hstacktop).
  destruct (stack_write_read registered (stack_top registered + idx) (bfVMValue_fromPointer m))
    as (made & Hwrite & Hmade & Hread & _); [rewrite Hreg_stack, Hreg_top; lia|].
  rewrite Hwrite. cbn [res_bind].
  assert (Hmade_top : stack_top made = stack_top self)
    by (rewrite Hmade; destruct registered; exact Hreg_top).
  assert (Hmade_size : bfVMArray_size (stack made) = bfVMArray_size (stack self)).
  { rewrite Hmade. destruct registered. cbn [stack set_stack] in *.
    unfold bfVMArray_size. rewrite length_insert, Hreg_stack. reflexivity. }
  assert (Hmade_mods : modules made = modules registered)
    by (rewrite Hmade; destruct registered; reflexivity).
  destruct (register_then_find self2 range m) as (Hfound & _ & Hwf');
    [rewrite Hmods; exact Hwf|exact Hchars|].
  fold registered in Hfound, Hwf'.
  assert (Hmade_found : bfVM_findModule made range = m).
  { unfold bfVM_findModule in *. rewrite Hmade_mods. exact Hfound. }
  assert (Hmade_read : stack_read made (stack_top made + idx) = Ok (bfVMValue_fromPointer m)).
  { rewrite Hmade_top, <- Hreg_top. exact Hread. }
  assert (Hagain : exists again,
            stack_write made (stack_top made + idx) (bfVMValue_fromPointer m) = Ok again
            /\ stack_read again (stack_top again + idx) = Ok (bfVMValue_fromPointer m)
            /\ modules again = modules made /\ heap again = heap made).
  { destruct (stack_write_read made (stack_top made + idx) (bfVMValue_fromPointer m))
      as (again & Hw & Hagain & Hr & _); [rewrite Hmade_top, Hmade_size; lia|].
    exists again. split; [exact Hw|].
    rewrite Hagain in *. destruct made. cbn [stack_top set_stack modules heap] in *.
    auto. }
  destruct Hagain as (again & Hw & Hr & Hsame_mods & Hsame_heap).
  assert (Hm_test : (m =? 0) = false) by (apply Z.eqb_neq; exact Hm).
  assert (Hassert_made : bfVM_assertStackIndex made idx = Ok tt)
    by (apply assertStackIndex_ok; rewrite ?Hmade_top, ?Hmade_size; lia).
  exists made, m.
  split; [reflexivity|]. split; [exact Hm|]. split; [exact Hmade_found|].
  split; [exact Hmade_read|]. split; [rewrite Hmade_mods; exact Hwf'|]. split.
  - exists again. unfold bfVM_moduleLoad. rewrite Hassert_made. cbn [res_bind].
    rewrite Hmade_found, Hm_test. cbn [negb]. rewrite Hw. cbn [res_bind]. auto.
  - exists again. unfold bfVM_moduleMake, bfVM__moduleMake. rewrite Hassert_made.
    cbn [res_bind]. rewrite bool_decide_eq_false_2 by discriminate.
    cbn [negb andb default from_option id]. fold range.
    rewrite Hmade_found, Hm_test. cbn [negb res_bind]. rewrite Hw. cbn [res_bind]. auto.
Qed.

Lemma bump_rt_succeeds : allocator_succeeds bump_rt.
Proof.
  intros vm obj. eexists _, _. split; [reflexivity|]. split; [lia|].
  destruct vm. repeat split; reflexivity.
Qed.

Lemma module_make_then_load_witness :
  exists (made : BifrostVM) (m : Z),
    bfVM_moduleMake bump_rt (demo_vm 0 [] [0; 0]) 1 (Some std_io)
    = Ok (BIFROST_VM_ERROR_NONE, made)
    /\ m <> 0
    /\ bfVM_findModule made (c_string std_io) = m.
Proof.
  destruct (module_make_then_load bump_rt (demo_vm 0 [] [0; 0]) 1 std_io)
    as (made & m & Hmake & Hm & Hfound & _).
  - exact bump_rt_succeeds.
  - exact (proj1 (bfHashMap_wf_steps ModuleMap_hash ModuleMap_cmp ModuleMap_key_equivalence
                    bfHashMap_ctor (bfObj_NewString_value std_io) 0)).
  - vm_compute c_string. repeat constructor; discriminate.
  - cbn; lia.
  - lia.
  - vm_compute; reflexivity.
  - vm_compute; reflexivity.
  - exists made, m. auto.
Defined.

(** ** Call frames (bifrost_vm.c) *)

Lemma resize_keeps {A : Type} (junk : A) (self : list A) (size : Z) (i : nat) (v : A) :
  Z.of_nat (length self) < size ->
  self !! i = Some v -> bfVMArray_resize junk self size !! i = Some v.
Proof.
  intros Hgrow Hi. pose proof (lookup_lt_Some _ _ _ Hi) as Hlt.
  unfold bfVMArray_resize.
  rewrite lookup_app_l by (rewrite length_take; lia).
  rewrite lookup_take_lt by lia. exact Hi.
Qed.

(** Pushing and popping a call frame: [bfVM_pushCallFrame] appends a frame
    at ip 0 that remembers the top of the stack and has its locals at
    [new_start]; for a script function the stack afterwards has room for the
    slots the function needs, and nothing that was on the stack is lost.
    [bfVM_popCallFrame] of that frame gives back the call stack and the
    top of the stack as they were before the push. *)
Theorem call_frame_push_pop (self : BifrostVM) (fn new_start : Z) (fnobj : BifrostObjFn) :
  (fn <> 0 -> deref_fn self fn = Ok fnobj) ->
  0 <= stack_top self ->
  0 <= new_start ->
  0 <= fn_needed_stack_space fnobj ->
  stack_top self + new_start + fn_needed_stack_space fnobj < 2 ^ 64 ->
  exists (pushed : BifrostVM) (frame : BifrostVMStackFrame),
    bfVM_pushCallFrame self fn new_start = Ok pushed
    /\ frames pushed = frames self ++ [frame]
    /\ frame = {| frame_fn := fn; frame_ip := 0;
                  frame_old_stack := stack_top self; frame_stack := new_start |}
    /\ (fn <> 0 ->
        new_start + fn_needed_stack_space fnobj <= bfVMArray_size (stack pushed))
    /\ (forall i v, stack self !! i = Some v -> stack pushed !! i = Some v)
    /\ exists popped,
         bfVM_popCallFrame pushed frame = Ok popped
         /\ frames popped = frames self
         /\ stack_top popped = stack_top self
         /\ stack popped = stack pushed.
Proof.
  intros Hfn Htop Hstart Hneeded Hfit.
  assert (Hpop : forall vm frame,
            frames vm = frames self ++ [frame] ->
            frame_old_stack frame = stack_top self ->
            exists popped,
              bfVM_popCallFrame vm frame = Ok popped
              /\ frames popped = frames self
              /\ stack_top popped = stack_top self
              /\ stack popped = stack vm).
  { intros vm frame Hframes Hold. unfold bfVM_popCallFrame, bfVMArray_pop, bfVMArray_size.
    rewrite Hframes, length_app. cbn [length].
    destruct (Z.eqb_spec (Z.of_nat (length (frames self) + 1)) 0); [lia|].
    cbn [negb LibC_assert res_bind]. rewrite removelast_last.
    eexists. split; [reflexivity|]. destruct vm. cbn. auto. }
  unfold bfVM_pushCallFrame.
  destruct (Z.eqb_spec fn 0) as [Hnull|Hscript]; cbn [negb res_bind].
  - eexists _, _. split; [reflexivity|].
    split; [destruct self; reflexivity|]. split; [reflexivity|].
    split; [intros Hnz; contradiction|].
    split; [destruct self; cbn; auto|].
    apply Hpop; destruct self; reflexivity.
  - rewrite (Hfn Hscript). cbn [res_bind].
    unfold bfVM_ensureStackspace, wrap64.
    rewrite (Z.mod_small (new_start + fn_needed_stack_space fnobj)) by lia.
    rewrite Z.mod_small by lia.
    destruct (Z.ltb_spec (bfVMArray_size (stack self))
                (stack_top self + (new_start + fn_needed_stack_space fnobj))) as [Hgrow|Hkeep];
      cbn [res_bind].
    + eexists _, _. split; [reflexivity|].
      split; [destruct self; reflexivity|]. split; [reflexivity|].
      split.
      { intros _. destruct self. cbn [stack set_stack set_frames set_stack_top set_frames_capacity] in *.
        unfold bfVMArray_size, bfVMArray_resize in *.
        rewrite length_app, length_take, length_replicate. lia. }
      split.
      { intros i v Hi. destruct self. cbn [stack set_stack set_frames set_stack_top set_frames_capacity] in *.
        apply resize_keeps; [exact Hgrow|exact Hi]. }
      apply Hpop; destruct self; reflexivity.
    + eexists _, _. split; [reflexivity|].
      split; [destruct self; reflexivity|]. split; [reflexivity|].
      split; [intros _; destruct self; cbn [stack set_frames set_frames_capacity] in *; lia|].
      split; [destruct self; cbn; auto|].
      apply Hpop; destruct self; reflexivity.
Qed.

Lemma call_frame_push_pop_witness :
  exists pushed frame popped,
    bfVM_pushCallFrame (demo_vm 0 [] [0; 0]) 4096 1 = Ok pushed
    /\ frames pushed = [frame]
    /\ bfVM_popCallFrame pushed frame = Ok popped
    /\ stack_top popped = 0.
Proof.
  destruct (call_frame_push_pop (demo_vm 0 [] [0; 0]) 4096 1 (demo_fn 0 []))
    as (pushed & frame & Hpush & Hframes & _ & _ & _ & popped & Hpop & _ & Htop & _);
    [reflexivity|cbn; lia|lia|cbn; lia|cbn; lia|].
  exists pushed, frame, popped. auto.
Defined.

(** ** Leaving a frame: RETURN and runtime errors (bifrost_vm.c) *)

(** The capacity of the [frames] array after a frame has been pushed. *)
Lemma pushCallFrame_capacity (self pushed : BifrostVM) (fn new_start : Z) :
  bfVM_pushCallFrame self fn new_start = Ok pushed ->
  frames_capacity pushed
  = Array_reserve (frames_capacity self) (wrap64 (bfVMArray_size (frames self) + 1)).
Proof.
  unfold bfVM_pushCallFrame.
  destruct (negb (fn =? 0)); cbn [res_bind].
  - destruct (deref_fn self fn) as [fnobj| | |]; cbn [res_bind]; try discriminate.
    unfold bfVM_ensureStackspace.
    destruct (_ <? _); cbn [res_bind]; intros H; inversion H; destruct self; reflexivity.
  - intros H. inversion H. destruct self. reflexivity.
Qed.

Section Leaving.
Context (fp : DoubleOps) (rt : Runtime).

Lemma exec_step_RETURN vm reference_frame frame fn inst below v :
  at_instruction vm frame fn inst ->
  bfInst_decodeOp inst = op_code BIFROST_VM_OP_RETURN ->
  frames vm = below ++ [frame] ->
  stack_read vm (frame_stack frame + bfInst_decodeRBx inst) = Ok v ->
  0 <= frame_stack frame < bfVMArray_size (stack vm) ->
  let back :=
    set_frames
      (set_stack_top (set_stack vm (<[Z.to_nat (frame_stack frame) := v]> (stack vm)))
                     (frame_old_stack frame))
      below in
  exec_step fp rt vm reference_frame
  = if ptr_capacity reference_frame =? frames_capacity vm
    then Ok (if ptr_index reference_frame <? bfVMArray_size below
             then inl back
             else inr (BIFROST_VM_ERROR_NONE, back))
    else Undefined.
Proof.
  intros Hat Hop Hframes Hread Hbase back.
  rewrite (exec_step_eq fp rt _ _ _ _ _ Hat).
  unfold exec_switch. rewrite (switch_op _ _ Hop). cbn [res_bind].
  rewrite Hread. cbn [res_bind]. rewrite Z.add_0_r.
  unfold stack_write.
  destruct (Z.leb_spec 0 (frame_stack frame)); [|lia].
  destruct (Z.ltb_spec (frame_stack frame) (bfVMArray_size (stack vm))); [|lia].
  cbn [andb res_bind].
  destruct Hat as (Hback & _).
  assert (Hback' : bfVMArray_back
                     (frames (set_stack vm (<[Z.to_nat (frame_stack frame) := v]> (stack vm))))
                   = Ok frame) by (destruct vm; exact Hback).
  rewrite Hback'. cbn [res_bind].
  unfold bfVM_popCallFrame, bfVMArray_pop, bfVMArray_size.
  replace (frames (set_stack vm (<[Z.to_nat (frame_stack frame) := v]> (stack vm))))
    with (below ++ [frame]) by (destruct vm; symmetry; exact Hframes).
  rewrite length_app. cbn [length].
  destruct (Z.eqb_spec (Z.of_nat (length below + 1)) 0); [lia|].
  cbn [negb LibC_assert res_bind]. rewrite removelast_last.
  replace (Z.of_nat (length below + 1) - 1) with (Z.of_nat (length below)) by lia.
  fold back. unfold frame_index.
  replace (frames_capacity back) with (frames_capacity vm) by (destruct vm; reflexivity).
  destruct (ptr_capacity reference_frame =? frames_capacity vm); cbn [res_bind];
    [|reflexivity].
  unfold bfVMArray_size.
  destruct (ptr_index reference_frame <? Z.of_nat (length below)); reflexivity.
Qed.

(** RETURN A,Bx: the value of locals[Bx] is stored in slot 0 of the
    frame, the frame is popped and the top of the stack goes back to where
    it was when the frame was pushed.  [bfVM_execTopFrame] then compares its
    pointer to the reference frame with the frame left.  As long as the
    [frames] array has not been reallocated since that pointer was taken,
    the run goes on in the frame below when the frame left is above the
    reference frame, and ends with BIFROST_VM_ERROR_NONE when it is the
    reference frame itself.  Once the array has been reallocated (a push
    onto a full array, 12 frames at first) the pointer dangles and the
    comparison is undefined. *)
Theorem return_leaves_the_frame (fuel : nat) (vm : BifrostVM) (reference_frame : FramePtr)
    (frame : BifrostVMStackFrame) (fn : BifrostObjFn) (inst : bfInstruction)
    (below : list BifrostVMStackFrame) (v : bfVMValue) :
  at_instruction vm frame fn inst ->
  bfInst_decodeOp inst = op_code BIFROST_VM_OP_RETURN ->
  frames vm = below ++ [frame] ->
  stack_read vm (frame_stack frame + bfInst_decodeRBx inst) = Ok v ->
  0 <= frame_stack frame < bfVMArray_size (stack vm) ->
  (exists back,
     frames back = below
     /\ stack_top back = frame_old_stack frame
     /\ stack_read back (frame_stack frame) = Ok v
     /\ (forall i, i <> frame_stack frame -> stack_read back i = stack_read vm i)
     /\ heap back = heap vm
     /\ (ptr_capacity reference_frame = frames_capacity vm ->
         ptr_index reference_frame < bfVMArray_size below ->
         exec_step fp rt vm reference_frame = Ok (inl back))
     /\ (ptr_capacity reference_frame = frames_capacity vm ->
         bfVMArray_size below <= ptr_index reference_frame ->
         exec_loop fp rt (S fuel) vm reference_frame = Ok (BIFROST_VM_ERROR_NONE, back)))
  /\ (ptr_capacity reference_frame <> frames_capacity vm ->
      exec_step fp rt vm reference_frame = Undefined)
  /\ (forall self pushed callee new_start,
         bfVM_pushCallFrame self callee new_start = Ok pushed ->
         0 <= frames_capacity self /\ frames_capacity self + 1 < 2 ^ 64 ->
         (bfVMArray_size (frames self) < frames_capacity self ->
          frames_capacity pushed = frames_capacity self)
         /\ (bfVMArray_size (frames self) = frames_capacity self ->
             frames_capacity self < frames_capacity pushed)).
Proof.
  intros Hat Hop Hframes Hread Hbase.
  pose proof (exec_step_RETURN vm reference_frame frame fn inst below v
                Hat Hop Hframes Hread Hbase) as Hstep.
  cbv zeta in Hstep.
  destruct (stack_write_read vm (frame_stack frame) v Hbase)
    as (written & _ & Hwritten & Hslot & Hothers).
  split; [|split].
  - eexists. split; [|split; [|split; [|split; [|split; [|split]]]]].
    6: { intros Hgood Habove. rewrite Hstep.
         apply Z.eqb_eq in Hgood. rewrite Hgood.
         destruct (Z.ltb_spec (ptr_index reference_frame) (bfVMArray_size below));
           [reflexivity|lia]. }
    6: { intros Hgood Hat_ref. cbn [exec_loop]. rewrite Hstep.
         apply Z.eqb_eq in Hgood. rewrite Hgood. cbn [res_bind].
         destruct (Z.ltb_spec (ptr_index reference_frame) (bfVMArray_size below));
           [lia|reflexivity]. }
    + reflexivity.
    + reflexivity.
    + rewrite <- Hslot, Hwritten. reflexivity.
    + intros i Hi. rewrite <- (Hothers i Hi), Hwritten. reflexivity.
    + reflexivity.
  - intros Hstale. rewrite Hstep.
    apply Z.eqb_neq in Hstale. rewrite Hstale. reflexivity.
  - intros self pushed callee new_start Hpush Hcap.
    rewrite (pushCallFrame_capacity self pushed callee new_start Hpush).
    unfold Array_reserve, wrap64, bfVMArray_size.
    split.
    + intros Hroom. rewrite Z.mod_small by lia.
      destruct (Z.ltb_spec (frames_capacity self) (Z.of_nat (length (frames self)) + 1));
        [lia|reflexivity].
    + intros Hfull. rewrite Hfull, (Z.mod_small (frames_capacity self + 1)) by lia.
      destruct (Z.ltb_spec (frames_capacity self) (frames_capacity self + 1)); [|lia].
      match goal with
      | |- context [if ?grown <? _ then _ else _] =>
          destruct (Z.ltb_spec grown (frames_capacity self + 1)); lia
      end.
Qed.

(** A runtime error ends the run at once: whatever instruction raises it,
    that turn of [bfVM_execTopFrame]'s loop never goes on to another
    instruction.  As long as the [frames] array has not been reallocated
    since the pointer to the reference frame was taken, the loop returns
    BIFROST_VM_ERROR_RUNTIME in that turn, with the call stack cut down to
    the frames below the reference frame, the top of the stack back where
    the reference frame found it, and the stack slots and the heap as the
    failing instruction left them.  Once the array has been reallocated the
    unwinding goes through a dangling pointer and is undefined. *)
Theorem runtime_error_ends_the_run (fuel : nat) (vm failed : BifrostVM)
    (reference_frame : FramePtr) (frame : BifrostVMStackFrame) (fn : BifrostObjFn)
    (inst : bfInstruction) :
  at_instruction vm frame fn inst ->
  exec_switch fp rt vm frame fn inst = Ok (FlowRuntimeError failed) ->
  (forall vm1, exec_step fp rt vm reference_frame <> Ok (inl vm1))
  /\ (forall entry,
         ptr_capacity reference_frame = frames_capacity failed ->
         0 <= ptr_index reference_frame ->
         frames failed !! Z.to_nat (ptr_index reference_frame) = Some entry ->
         exists unwound,
           exec_loop fp rt (S fuel) vm reference_frame
           = Ok (BIFROST_VM_ERROR_RUNTIME, unwound)
           /\ frames unwound = take (Z.to_nat (ptr_index reference_frame)) (frames failed)
           /\ stack_top unwound = frame_old_stack entry
           /\ stack unwound = stack failed
           /\ heap unwound = heap failed)
  /\ (ptr_capacity reference_frame <> frames_capacity failed ->
      exec_loop fp rt (S fuel) vm reference_frame = Undefined).
Proof.
  intros Hat Hswitch.
  assert (Hstep : exec_step fp rt vm reference_frame
                  = res_bind (bfVM_popAllCallFrames failed reference_frame)
                      (fun vm2 => Ok (inr (BIFROST_VM_ERROR_RUNTIME, vm2)))).
  { rewrite (exec_step_eq fp rt _ _ _ _ _ Hat), Hswitch. reflexivity. }
  split; [|split].
  - intros vm1. rewrite Hstep.
    destruct (bfVM_popAllCallFrames failed reference_frame); cbn [res_bind]; discriminate.
  - intros entry Hgood Href Hentry.
    destruct (popAllCallFrames_frames failed reference_frame entry Hgood Href Hentry)
      as (unwound & Hpop & Hframes & Htop & Hstack & Hheap).
    exists unwound. split; [|auto].
    cbn [exec_loop]. rewrite Hstep, Hpop. reflexivity.
  - intros Hstale. cbn [exec_loop]. rewrite Hstep.
    unfold bfVM_popAllCallFrames, frame_index.
    apply Z.eqb_neq in Hstale. rewrite Hstale. reflexivity.
Qed.

End Leaving.

Lemma return_leaves_the_frame_witness :
  exists back,
    exec_loop idle_fp idle_rt 1
      (demo_running 0 [BIFROST_MAKE_INST_OP_ABx (op_code BIFROST_VM_OP_RETURN) 0 1]
                    [0; 4631107791820423168])
      (frames_back
         (demo_running 0 [BIFROST_MAKE_INST_OP_ABx (op_code BIFROST_VM_OP_RETURN) 0 1]
                       [0; 4631107791820423168]))
    = Ok (BIFROST_VM_ERROR_NONE, back)
    /\ stack_read back 0 = Ok 4631107791820423168.
Proof.
  destruct (return_leaves_the_frame idle_fp idle_rt 0
              (demo_running 0 [BIFROST_MAKE_INST_OP_ABx (op_code BIFROST_VM_OP_RETURN) 0 1]
                            [0; 4631107791820423168])
              (frames_back
                 (demo_running 0 [BIFROST_MAKE_INST_OP_ABx (op_code BIFROST_VM_OP_RETURN) 0 1]
                               [0; 4631107791820423168]))
              demo_frame
              (demo_fn 0 [BIFROST_MAKE_INST_OP_ABx (op_code BIFROST_VM_OP_RETURN) 0 1])
              (BIFROST_MAKE_INST_OP_ABx (op_code BIFROST_VM_OP_RETURN) 0 1)
              [] 4631107791820423168)
    as ((back & _ & _ & Hslot & _ & _ & _ & Hrun) & _).
  - repeat split; first [reflexivity | cbn; lia].
  - reflexivity.
  - reflexivity.
  - reflexivity.
  - vm_compute. split; [discriminate|reflexivity].
  - exists back. split; [apply Hrun; [reflexivity|vm_compute; discriminate]|exact Hslot].
Defined.

Lemma runtime_error_ends_the_run_witness :
  exists unwound,
    exec_loop idle_fp idle_rt 1
      (demo_running 0 (binary_then_return BIFROST_VM_OP_CMP_LE) [0; 0; 0; 0])
      (frames_back (demo_running 0 (binary_then_return BIFROST_VM_OP_CMP_LE) [0; 0; 0; 0]))
    = Ok (BIFROST_VM_ERROR_RUNTIME, unwound)
    /\ frames unwound = [].
Proof.
  destruct (runtime_error_ends_the_run idle_fp idle_rt 0
              (demo_running 0 (binary_then_return BIFROST_VM_OP_CMP_LE) [0; 0; 0; 0])
              (set_last_error
                 (demo_running 0 (binary_then_return BIFROST_VM_OP_CMP_LE) [0; 0; 0; 0])
                 (MsgInvalidOp (op_code BIFROST_VM_OP_CMP_LE)))
              (frames_back
                 (demo_running 0 (binary_then_return BIFROST_VM_OP_CMP_LE) [0; 0; 0; 0]))
              demo_frame
              (demo_fn 0 (binary_then_return BIFROST_VM_OP_CMP_LE))
              (BIFROST_MAKE_INST_OP_ABC (op_code BIFROST_VM_OP_CMP_LE) 0 1 2))
    as (_ & Hunwind & _).
  - repeat split; first [reflexivity | cbn; lia].
  - reflexivity.
  - destruct (Hunwind demo_frame) as (unwound & Hrun & Hframes & _);
      [reflexivity|vm_compute; discriminate|reflexivity|].
    exists unwound. split; [exact Hrun|exact Hframes].
Defined.

(** ** Equality of values (bifrost_vm_value.c) *)

Lemma fromPointer_injective (p q : Z) :
  0 < p < 2 ^ 50 -> 0 < q < 2 ^ 50 ->
  (bfVMValue_fromPointer p =? bfVMValue_fromPointer q) = bool_decide (p = q).
Proof.
  intros Hp Hq. destruct (Z.eqb_spec (bfVMValue_fromPointer p) (bfVMValue_fromPointer q)) as [Heq|Hne].
  - apply (f_equal bfVMValue_asPointer) in Heq.
    rewrite !asPointer_fromPointer in Heq by assumption.
    rewrite bool_decide_eq_true_2 by exact Heq. reflexivity.
  - rewrite bool_decide_eq_false_2; [reflexivity|]. intros ->. contradiction.
Qed.

(** [bfVMValue_ee] on two objects: two string objects are equal exactly
    when their (unescaped) texts are, whatever their addresses; two objects
    that are not both strings are equal exactly when they are the same
    object. *)
Theorem objects_equality (fp : DoubleOps) (vm : BifrostVM) (p q : Z) (a b : BifrostObj) :
  0 < p < 2 ^ 50 ->
  0 < q < 2 ^ 50 ->
  heap vm !! p = Some a ->
  heap vm !! q = Some b ->
  (forall s t,
      a = ObjStr (bfObj_NewString_value s) ->
      b = ObjStr (bfObj_NewString_value t) ->
      bfVMValue_ee fp vm (bfVMValue_fromPointer p) (bfVMValue_fromPointer q)
      = Ok (bool_decide (CString_unescape s = CString_unescape t)))
  /\ (obj_type a <> BIFROST_VM_OBJ_STRING \/ obj_type b <> BIFROST_VM_OBJ_STRING ->
      bfVMValue_ee fp vm (bfVMValue_fromPointer p) (bfVMValue_fromPointer q)
      = Ok (bool_decide (p = q))).
Proof.
  intros Hp Hq Ha Hb.
  assert (Hee : bfVMValue_ee fp vm (bfVMValue_fromPointer p) (bfVMValue_fromPointer q)
                = match a, b with
                  | ObjStr lhs_string, ObjStr rhs_string =>
                      Ok ((str_hash lhs_string =? str_hash rhs_string)
                          && (bfVMString_cmp (str_value lhs_string) (str_value rhs_string) =? 0))
                  | _, _ => Ok (bool_decide (p = q))
                  end).
  { unfold bfVMValue_ee.
    rewrite (isPointer_not_number _ (isPointer_fromPointer p ltac:(lia))).
    cbn [andb]. rewrite !isPointer_fromPointer by lia. cbn [andb].
    rewrite !asPointer_fromPointer by lia.
    unfold deref. rewrite Ha, Hb. cbn [defined res_bind].
    rewrite (fromPointer_injective p q Hp Hq).
    destruct a, b; reflexivity. }
  split.
  - intros s t -> ->. rewrite Hee. f_equal.
    unfold bfObj_NewString_value, bfVMString_newLen. cbn [str_value str_hash].
    destruct (CString_unescape_facts (length s) s (le_n _)) as [_ Hs].
    destruct (CString_unescape_facts (length t) t (le_n _)) as [_ Ht].
    destruct (decide (CString_unescape s = CString_unescape t)) as [Heq|Hne].
    + rewrite bool_decide_eq_true_2 by exact Heq. rewrite Heq, Z.eqb_refl. cbn [andb].
      apply Z.eqb_eq. apply bfVMString_cmp_zero_iff. auto.
    + rewrite bool_decide_eq_false_2 by exact Hne.
      apply andb_false_iff. right. apply Z.eqb_neq. intros Hcmp.
      apply bfVMString_cmp_zero_iff in Hcmp as [_ Hsame].
      rewrite (c_string_no_NUL _ Hs), (c_string_no_NUL _ Ht) in Hsame. contradiction.
  - intros Hkind. rewrite Hee.
    destruct a, b; try reflexivity. destruct Hkind as [H|H]; contradiction H; reflexivity.
Qed.

Lemma objects_equality_witness :
  bfVMValue_ee idle_fp (demo_vm 0 [] []) (bfVMValue_fromPointer 4096) (bfVMValue_fromPointer 4096)
  = Ok true.
Proof.
  destruct (objects_equality idle_fp (demo_vm 0 [] []) 4096 4096
              (ObjFn (demo_fn 0 [])) (ObjFn (demo_fn 0 [])))
    as [_ Hidentity]; [lia|lia|reflexivity|reflexivity|].
  rewrite Hidentity; [reflexivity|]. left. discriminate.
Defined.

(** ** Calling a native function through the API (bifrost_vm.c) *)



Lemma concat_replicate_nil {A : Type} (n : nat) : concat (replicate n (@nil A)) = [].
Proof. induction n as [|n IH]; [reflexivity|exact IH]. Qed.

(** [bfVM_moduleUnloadAll] forgets every module: afterwards
    [bfVM_findModule] answers NULL for every name and [bfVM_moduleLoad]
    answers BIFROST_VM_ERROR_MODULE_NOT_FOUND without touching the stack;
    the map is the empty map of [bfHashMap_ctor] again, and neither the
    heap nor the stack has changed. *)
Theorem unload_all_forgets_modules (self : BifrostVM) (idx : Z) (name : string_range) :
  length (modules self) = Z.to_nat BIFROST_HASH_MAP_BUCKET_SIZE ->
  idx < bfVMArray_size (stack self) ->
  let unloaded := bfVM_moduleUnloadAll self in
  bfVM_findModule unloaded name = 0
  /\ bfVM_moduleLoad unloaded idx name = Ok (BIFROST_VM_ERROR_MODULE_NOT_FOUND, unloaded)
  /\ modules unloaded = bfHashMap_ctor
  /\ heap unloaded = heap self
  /\ stack unloaded = stack self.
Proof.
  intros Hlen Hidx unloaded.
  assert (Hmods : modules unloaded = bfHashMap_ctor).
  { subst unloaded. destruct self. cbn [modules set_modules bfVM_moduleUnloadAll] in *.
    unfold bfHashMap_clear, bfHashMap_ctor. rewrite Hlen. reflexivity. }
  assert (Hfind : bfVM_findModule unloaded name = 0).
  { unfold bfVM_findModule. rewrite Hmods.
    unfold bfHashMap_nodes, bfHashMap_ctor. rewrite concat_replicate_nil. reflexivity. }
  split; [exact Hfind|]. split; [|split; [exact Hmods|split; destruct self; reflexivity]].
  unfold bfVM_moduleLoad, bfVM_assertStackIndex.
  replace (stack unloaded) with (stack self) by (destruct self; reflexivity).
  apply Z.ltb_lt in Hidx. rewrite Hidx. cbn [LibC_assert res_bind].
  rewrite Hfind. reflexivity.
Qed.

Lemma unload_all_forgets_modules_witness :
  bfVM_findModule (bfVM_moduleUnloadAll (set_stack demo_modules_vm [0])) std_io = 0.
Proof.
  apply (unload_all_forgets_modules (set_stack demo_modules_vm [0]) 0 std_io).
  - vm_compute. reflexivity.
  - vm_compute. reflexivity.
Defined.

(** ** The fields of a new instance (bifrost_vm_obj.c) *)

Lemma NewInstance_fields_fold (inits : list BifrostVMSymbol) :
  Forall (fun sym => sym_name sym <> None) inits ->
  exists fields,
    fold_left
      (fun acc sym =>
         res_bind acc (fun m =>
           res_bind (defined (sym_name sym)) (fun key =>
             Ok (bfHashMap_set bfHashMap_defaultHash bfHashMap_defaultCmp m key
                   (sym_value sym)))))
      inits (Ok (bfHashMap_ctor : BifrostHashMap bytes bfVMValue))
    = Ok fields
    /\ bfHashMap_wf bfHashMap_defaultHash bfHashMap_defaultCmp fields
    /\ forall key,
         bfHashMap_get bfHashMap_defaultHash bfHashMap_defaultCmp fields key
         = sym_value <$>
             List.find (fun sym => match sym_name sym with
                                   | Some name => bfHashMap_defaultCmp key name
                                   | None => false
                                   end)
                       (rev inits).
Proof.
  induction inits as [|sym inits IH] using rev_ind; intros Hnamed.
  - eexists. split; [reflexivity|]. split.
    + exact (proj1 (bfHashMap_wf_steps bfHashMap_defaultHash bfHashMap_defaultCmp
                      default_key_equivalence bfHashMap_ctor [] 0)).
    + intros key.
      exact (proj2 (bfHashMap_get_set_law bfHashMap_defaultHash bfHashMap_defaultCmp
                      default_key_equivalence bfHashMap_ctor key key 0
                      (length_replicate _ _))).
  - apply Forall_app in Hnamed as [Hinits Hsym]. apply Forall_inv in Hsym.
    destruct (IH Hinits) as (fields & Hfold & Hwf & Hget).
    rewrite fold_left_app. cbn [fold_left]. rewrite Hfold. cbn [res_bind].
    destruct (sym_name sym) as [name|] eqn:Hname; [|contradiction]. cbn [defined res_bind].
    eexists. split; [reflexivity|]. split.
    + exact (proj1 (proj2 (bfHashMap_wf_steps bfHashMap_defaultHash bfHashMap_defaultCmp
                             default_key_equivalence fields name (sym_value sym)) Hwf)).
    + intros key. rewrite rev_app_distr. cbn [rev app List.find]. rewrite Hname.
      rewrite (proj1 (bfHashMap_get_set_law bfHashMap_defaultHash bfHashMap_defaultCmp
                        default_key_equivalence fields name key (sym_value sym)
                        (proj1 Hwf))).
      destruct (bfHashMap_defaultCmp key name); [reflexivity|apply Hget].
Qed.

(** [bfObj_NewInstance] sets the fields of the instance from the field
    initializers of its class, in their order: a field reads the value of
    the last initializer of its name, and a name without initializer reads
    nothing; the instance points to its class and its field map is well
    formed. *)
Theorem new_instance_fields (clz_ptr : Z) (clz : BifrostObjClass) :
  Forall (fun sym => sym_name sym <> None) (clz_field_initializers clz) ->
  exists inst,
    bfObj_NewInstance_value clz_ptr clz = Ok inst
    /\ inst_clz inst = clz_ptr
    /\ bfHashMap_wf bfHashMap_defaultHash bfHashMap_defaultCmp (inst_fields inst)
    /\ forall key,
         bfHashMap_get bfHashMap_defaultHash bfHashMap_defaultCmp (inst_fields inst) key
         = sym_value <$>
             List.find (fun sym => match sym_name sym with
                                   | Some name => bfHashMap_defaultCmp key name
                                   | None => false
                                   end)
                       (rev (clz_field_initializers clz)).
Proof.
  intros Hnamed.
  destruct (NewInstance_fields_fold (clz_field_initializers clz) Hnamed)
    as (fields & Hfold & Hwf & Hget).
  unfold bfObj_NewInstance_value. rewrite Hfold. cbn [res_bind].
  eexists. split; [reflexivity|]. cbn [inst_clz inst_fields]. auto.
Qed.

Lemma new_instance_fields_witness :
  exists inst,
    bfObj_NewInstance_value 4096 demo_clz = Ok inst
    /\ bfHashMap_get bfHashMap_defaultHash bfHashMap_defaultCmp (inst_fields inst)
         (map chr ["x"]%char) = Some 2.
Proof.
  destruct (new_instance_fields 4096 demo_clz) as (inst & Hnew & _ & _ & Hget).
  - repeat constructor; discriminate.
  - exists inst. split; [exact Hnew|]. rewrite Hget. reflexivity.
Defined.

(** ** The bytes a collection counts (bifrost_vm_gc.c, bifrost_vm_obj.c) *)

Lemma wrap64_sub_congr (a b c : Z) :
  wrap64 a = wrap64 b -> wrap64 (a - c) = wrap64 (b - c).
Proof.
  unfold wrap64. intros H.
  rewrite <- (Zminus_mod_idemp_l a), H, Zminus_mod_idemp_l. reflexivity.
Qed.

Lemma wrap64_idem (a : Z) : wrap64 (wrap64 a) = wrap64 a.
Proof. unfold wrap64. apply Zmod_mod. Qed.

Lemma count_memory_free (vm : BifrostVM) (size : Z) :
  bytes_allocated (count_memory vm size 0) = wrap64 (bytes_allocated vm - size)
  /\ params (count_memory vm size 0) = params vm
  /\ symbols (count_memory vm size 0) = symbols vm
  /\ heap (count_memory vm size 0) = heap vm.
Proof.
  unfold count_memory. cbn [bytes_allocated set_bytes_allocated params symbols heap].
  rewrite Z.add_0_r, wrap64_idem. auto.
Qed.

Lemma free_blocks (blocks : list Z) (vm : BifrostVM) :
  let vm' := fold_left (fun vm block => count_memory vm block 0) blocks vm in
  wrap64 (bytes_allocated vm') = wrap64 (bytes_allocated vm - fold_right Z.add 0 blocks)
  /\ params vm' = params vm
  /\ symbols vm' = symbols vm
  /\ heap vm' = heap vm.
Proof.
  revert vm. induction blocks as [|block blocks IH]; intros vm; cbn [fold_left fold_right].
  - rewrite Z.sub_0_r. auto.
  - destruct (IH (count_memory vm block 0)) as (Hbytes & Hparams & Hsymbols & Hheap).
    destruct (count_memory_free vm block) as (Hb & Hp & Hs & Hh).
    cbv zeta. rewrite Hbytes, Hparams, Hsymbols, Hheap, Hb, Hp, Hs, Hh.
    repeat split; try reflexivity.
    rewrite (wrap64_sub_congr _ (bytes_allocated vm - block) _ (wrap64_idem _)).
    f_equal. lia.
Qed.

Lemma bfObj_Delete_counts (gc : Collector) (vm : BifrostVM) (obj : Z) :
  let vm' := snd (bfObj_Delete gc vm obj) in
  fst (bfObj_Delete gc vm obj) = bfObj_AllocationSize gc obj
  /\ bytes_allocated vm'
     = wrap64 (bytes_allocated vm - fold_right Z.add 0 (destructed_blocks gc obj)
               - bfObj_AllocationSize gc obj)
  /\ params vm' = params vm
  /\ symbols vm' = symbols vm
  /\ heap vm' = delete obj (heap vm).
Proof.
  unfold bfObj_Delete. cbn [fst snd].
  destruct (free_blocks (destructed_blocks gc obj) vm) as (Hbytes & Hparams & Hsymbols & Hheap).
  cbv zeta in Hbytes, Hparams, Hsymbols, Hheap.
  set (vm1 := fold_left _ _ vm) in *.
  destruct (count_memory_free vm1 (bfObj_AllocationSize gc obj)) as (Hb & Hp & Hs & Hh).
  cbn [bytes_allocated set_heap params symbols heap].
  rewrite Hb, Hp, Hs, Hh, Hparams, Hsymbols, Hheap.
  repeat split; try reflexivity.
  apply wrap64_sub_congr.
  rewrite Hbytes. reflexivity.
Qed.

Lemma garbage_bytes_app (gc : Collector) (l1 l2 : list Z) :
  garbage_bytes gc (l1 ++ l2) = garbage_bytes gc l1 + garbage_bytes gc l2.
Proof.
  unfold garbage_bytes. induction l1 as [|x l1 IH]; cbn [app fold_right]; [reflexivity|].
  rewrite IH. lia.
Qed.

Lemma owned_bytes_app (gc : Collector) (l1 l2 : list Z) :
  owned_bytes gc (l1 ++ l2) = owned_bytes gc l1 + owned_bytes gc l2.
Proof.
  unfold owned_bytes. induction l1 as [|x l1 IH]; cbn [app fold_right]; [reflexivity|].
  rewrite IH. lia.
Qed.

Lemma garbage_bytes_rev (gc : Collector) (l : list Z) :
  garbage_bytes gc (rev l) = garbage_bytes gc l.
Proof.
  induction l as [|x l IH]; [reflexivity|].
  cbn [rev]. rewrite garbage_bytes_app, IH. unfold garbage_bytes. cbn [fold_right]. lia.
Qed.

Lemma owned_bytes_rev (gc : Collector) (l : list Z) :
  owned_bytes gc (rev l) = owned_bytes gc l.
Proof.
  induction l as [|x l IH]; [reflexivity|].
  cbn [rev]. rewrite owned_bytes_app, IH. unfold owned_bytes. cbn [fold_right]. lia.
Qed.

Lemma wrap64_sub_wrap (x c d : Z) : wrap64 (wrap64 x - c - d) = wrap64 (x - c - d).
Proof.
  unfold wrap64. rewrite (Z.mod_eq x (2 ^ 64)) by lia.
  replace (x - 2 ^ 64 * (x / 2 ^ 64) - c - d) with (x - c - d + - (x / 2 ^ 64) * 2 ^ 64) by lia.
  apply Z_mod_plus_full.
Qed.

(** Deleting the objects of a list, one after the other. *)
Lemma delete_all_counts (gc : Collector) (objs : list Z) (vm : BifrostVM) :
  let vm' := fold_left (fun vm garbage => snd (bfObj_Delete gc vm garbage)) objs vm in
  wrap64 (bytes_allocated vm')
  = wrap64 (bytes_allocated vm - owned_bytes gc objs - garbage_bytes gc objs)
  /\ (0 <= bytes_allocated vm < 2 ^ 64 -> 0 <= bytes_allocated vm' < 2 ^ 64)
  /\ params vm' = params vm
  /\ symbols vm' = symbols vm
  /\ (forall obj, In obj objs -> heap vm' !! obj = None)
  /\ (forall obj, heap vm' !! obj = None \/ heap vm' !! obj = heap vm !! obj).
Proof.
  revert vm. induction objs as [|g objs IH]; intros vm; cbn [fold_left].
  - cbv zeta. unfold owned_bytes, garbage_bytes. cbn [fold_right].
    rewrite !Z.sub_0_r. repeat split; auto; try tauto. intros obj [].
  - destruct (IH (snd (bfObj_Delete gc vm g))) as (Hbytes & Hrange & Hparams & Hsymbols & Hheap & Hkept).
    destruct (bfObj_Delete_counts gc vm g) as (_ & Hb & Hp & Hs & Hh).
    cbv zeta in *. rewrite Hbytes, Hparams, Hsymbols, Hp, Hs.
    repeat split; try reflexivity.
    + rewrite Hb, wrap64_sub_wrap.
      unfold owned_bytes, garbage_bytes. cbn [fold_right]. f_equal. lia.
    + apply Hrange. rewrite Hb. unfold wrap64. apply Z.mod_pos_bound. lia.
    + apply Hrange. rewrite Hb. unfold wrap64. apply Z.mod_pos_bound. lia.
    + intros obj [<-|Hin].
      * destruct (Hkept g) as [Hnone|Hsame]; [exact Hnone|].
        rewrite Hsame, Hh. apply lookup_delete_eq.
      * apply Hheap. exact Hin.
    + intros obj. destruct (Hkept obj) as [Hnone|Hsame]; [left; exact Hnone|].
      rewrite Hsame, Hh. destruct (decide (g = obj)) as [->|Hne].
      * left. apply lookup_delete_eq.
      * right. apply lookup_delete_ne. exact Hne.
Qed.

Lemma collected_bytes_sum (gc : Collector) (objs : list Z) (bytes : Z) :
  0 <= bytes < 2 ^ 64 ->
  fold_left (fun bytes garbage => wrap64 (bytes + bfObj_AllocationSize gc garbage)) objs bytes
  = wrap64 (bytes + garbage_bytes gc objs).
Proof.
  revert bytes. induction objs as [|g objs IH]; intros bytes Hrange; cbn [fold_left].
  - unfold garbage_bytes. cbn [fold_right]. rewrite Z.add_0_r.
    unfold wrap64. symmetry. apply Z.mod_small. exact Hrange.
  - rewrite IH by (unfold wrap64; apply Z.mod_pos_bound; lia).
    unfold garbage_bytes. cbn [fold_right]. fold (garbage_bytes gc objs).
    unfold wrap64. rewrite Zplus_mod_idemp_l. f_equal. lia.
Qed.

Lemma bfGCFinalizePostMark_counts (gc : Collector) (objs : list Z) (bytes : Z)
    (vm : BifrostVM) :
  0 <= bytes < 2 ^ 64 ->
  fold_left (fun state garbage =>
               let '(obj_size, self1) := bfObj_Delete gc (snd state) garbage in
               (wrap64 (fst state + obj_size), self1))
            objs (bytes, vm)
  = (wrap64 (bytes + garbage_bytes gc objs),
     fold_left (fun vm garbage => snd (bfObj_Delete gc vm garbage)) objs vm).
Proof.
  revert bytes vm. induction objs as [|g objs IH]; intros bytes vm Hrange; cbn [fold_left].
  - unfold garbage_bytes. cbn [fold_right]. rewrite Z.add_0_r.
    unfold wrap64. rewrite Z.mod_small by exact Hrange. reflexivity.
  - cbn [fst snd].
    destruct (bfObj_Delete_counts gc vm g) as (Hsize & _).
    destruct (bfObj_Delete gc vm g) as [obj_size self1]. cbn [fst snd] in *. subst obj_size.
    rewrite IH by (unfold wrap64; apply Z.mod_pos_bound; lia).
    unfold garbage_bytes. cbn [fold_right]. fold (garbage_bytes gc objs).
    unfold wrap64. rewrite Zplus_mod_idemp_l. f_equal. f_equal. lia.
Qed.

(** Where no object of the garbage list is an instance or a reference,
    the first walk of the sweep runs no code and deletes nothing. *)
Lemma sweep_instances_none (gc : Collector) (dtor_symbol : Z) (garbage_list : list Z)
    (collected_bytes : Z) (finalize : list Z) (self : BifrostVM) :
  (forall obj, In obj garbage_list -> clz_of self obj = None) ->
  sweep_instances gc dtor_symbol garbage_list collected_bytes finalize self
  = Ok (garbage_list, collected_bytes, finalize, self).
Proof.
  induction garbage_list as [|g rest IH]; intros Hnone; cbn [sweep_instances]; [reflexivity|].
  rewrite (Hnone g) by (left; reflexivity).
  rewrite IH by (intros obj Hin; apply Hnone; right; exact Hin).
  reflexivity.
Qed.

Lemma clz_of_kept (self self' : BifrostVM) (obj : Z) :
  heap self' !! obj = None \/ heap self' !! obj = heap self !! obj ->
  clz_of self obj = None -> clz_of self' obj = None.
Proof.
  unfold clz_of. intros [-> | ->]; [reflexivity|]. tauto.
Qed.


